(** * katalama-botu: risk governor and futures position lifecycle

    A shallow embedding of the decision core of the bot:

    - [backend/src/database.js]      the settings store read through
                                     [getSetting] / [getSettingNum];
    - [backend/src/risk-manager.js]  [RiskManager]: admission gate, daily
                                     circuit breaker, ledger, Kelly and
                                     trailing-stop helpers;
    - [backend/src/strategies/technical-analysis.js]
                                     [generateSignal], [analyzeSymbol],
                                     [multiTimeframeAnalysis] and the trend
                                     alignment, from the indicator snapshot
                                     on;
    - [backend/src/strategies/futures-100.js]
                                     [FuturesEngine]: signal score, scan,
                                     leverage tiers, sizing, stop/target,
                                     open / monitor / close, start / stop.

    Number model.  The source computes on JavaScript numbers (IEEE-754
    doubles).  The embedding computes on exact rationals [Q]: comparisons,
    [Math.min], [Math.max] and [Math.abs] are the exact ones, and rounding is
    not modelled.  [null] / [undefined] are [None]; JavaScript truthiness of
    a number ([x || d], [if (x)]) is "present and non-zero".  A quotient that
    the source may take with a zero divisor is an [option Q] through [jsdiv]
    ([None] stands for the NaN / Infinity the source gets); elsewhere the
    divisor is non-zero at every call site (an entry price that passed the
    truthiness guard, a leverage, the peak balance) and the quotient is the
    rational one.

    Clock model.  Every operation that reads [new Date()] takes the instant
    [now] in milliseconds of local time; the local calendar day
    ([toDateString]) is [now / 86400000] and "tomorrow 00:00"
    ([setDate(+1); setHours(0,0,0,0)]) is the start of the next such day.

    Effects that are only observed from outside (logger calls, Telegram
    messages, rows inserted in [trades] and [risk_events]) are not part of
    the state; where such a call can throw inside a [try], the throw is an
    input of the operation.

    Store model.  The lock rows are written through [setSetting], whose
    statement a SQLite may accept or reject ([Db.Store]).  [Db.setLock],
    [Risk.lockBot], [Risk.recordPnL], [Engine.closePosition] and the
    monitor built on them are the operations on a store that accepts it.
    [Db.writeLock], [Risk.unlockBot], [Risk.recordPnLOn],
    [Engine.closePositionOn], [Engine.monitorSymbolOn] and
    [Engine.monitorPositionsOn] take the store as an input and follow the
    throw to the [catch] it lands in; on [Accepts] they are the former.

    Pass model.  [Engine.monitorPositions], [Engine.monitorPasses] and
    [Engine.afterTicks] are passes that run one after the other.  The
    timer does not enforce that; [Engine.overlappedTicks] is the one
    interleaving of two passes in which a test and the write it guards are
    separated by an awaited call. *)

From Stdlib Require Import QArith Qabs Qminmax ZArith List String Bool Lia Lqa.
Import ListNotations.

Local Open Scope Q_scope.

(* ================================================================== *)
(** ** JavaScript numbers as rationals *)

Module JsNum.

(** [a < b] on numbers. *)
Definition Qltb (a b : Q) : bool := negb (Qle_bool b a).

(** [a > b] on numbers. *)
Definition Qgtb (a b : Q) : bool := Qltb b a.

(** [a <= b] and [a >= b]. *)
Definition Qleb (a b : Q) : bool := Qle_bool a b.
Definition Qgeb (a b : Q) : bool := Qle_bool b a.

(** Truthiness of a number: every number but zero. *)
Definition truthyQ (a : Q) : bool := negb (Qeq_bool a 0).

(** Truthiness of a possibly missing number. *)
Definition truthy (a : option Q) : bool :=
  match a with
  | Some v => truthyQ v
  | None => false
  end.

(** [x || d] for a numeric default [d]. *)
Definition orDefault (a : option Q) (d : Q) : Q :=
  match a with
  | Some v => if truthyQ v then v else d
  | None => d
  end.

(** [x || null]. *)
Definition orNull (a : option Q) : option Q :=
  match a with
  | Some v => if truthyQ v then Some v else None
  | None => None
  end.

(** [a / b] where the divisor may be zero. *)
Definition jsdiv (a b : Q) : option Q :=
  if Qeq_bool b 0 then None else Some (a / b).

End JsNum.
Import JsNum.

(* ================================================================== *)
(** ** Local wall clock *)

Module Clock.
Local Open Scope Z_scope.

Definition msPerDay : Z := 86400000.

(** [new Date().toDateString()], as a day number. *)
Definition dayOf (now : Z) : Z := now / msPerDay.

(** [t.setDate(t.getDate() + 1); t.setHours(0, 0, 0, 0)]. *)
Definition nextMidnight (now : Z) : Z := (dayOf now + 1) * msPerDay.

End Clock.
Import Clock.

(* ================================================================== *)
(** ** database.js: the settings table *)

Module Db.

(** The rows of [settings] the risk governor and the futures engine read.
    A numeric row holds what [getSettingNum] returns for it; [bot.locked]
    is [true] for the string ['1']; [bot.lock_until] is [None] for the
    empty string and otherwise the instant its ISO text denotes. *)
Record Settings : Type := mkSettings {
  risk_max_daily_loss_pct : Q;
  risk_max_position_risk_pct : Q;
  risk_max_open_positions : Q;
  risk_max_margin_usage_pct : Q;
  risk_min_rr_ratio : Q;
  futures_default_leverage : Q;
  futures_max_leverage : Q;
  futures_min_signal_score : Q;
  futures_trailing_stop_activate_pct : Q;
  futures_trailing_stop_distance_pct : Q;
  futures_partial_close_pct : Q;
  futures_partial_close_amount : Q;
  bot_locked : bool;
  bot_lock_until : option Z;
  bot_initial_balance : Q
}.

(** [insertDefaultSettings]. *)
Definition defaults : Settings := {|
  risk_max_daily_loss_pct := 10;
  risk_max_position_risk_pct := 3;
  risk_max_open_positions := 2;
  risk_max_margin_usage_pct := 50;
  risk_min_rr_ratio := 2.5;
  futures_default_leverage := 2;
  futures_max_leverage := 4;
  futures_min_signal_score := 7;
  futures_trailing_stop_activate_pct := 2;
  futures_trailing_stop_distance_pct := 1.5;
  futures_partial_close_pct := 4;
  futures_partial_close_amount := 50;
  bot_locked := false;
  bot_lock_until := None;
  bot_initial_balance := 100
|}.

(** [setSetting('bot.locked', ..)] together with
    [setSetting('bot.lock_until', ..)]: the only rows the modelled code
    writes. *)
Definition setLock (s : Settings) (locked : bool) (until : option Z)
  : Settings := {|
  risk_max_daily_loss_pct := risk_max_daily_loss_pct s;
  risk_max_position_risk_pct := risk_max_position_risk_pct s;
  risk_max_open_positions := risk_max_open_positions s;
  risk_max_margin_usage_pct := risk_max_margin_usage_pct s;
  risk_min_rr_ratio := risk_min_rr_ratio s;
  futures_default_leverage := futures_default_leverage s;
  futures_max_leverage := futures_max_leverage s;
  futures_min_signal_score := futures_min_signal_score s;
  futures_trailing_stop_activate_pct := futures_trailing_stop_activate_pct s;
  futures_trailing_stop_distance_pct := futures_trailing_stop_distance_pct s;
  futures_partial_close_pct := futures_partial_close_pct s;
  futures_partial_close_amount := futures_partial_close_amount s;
  bot_locked := locked;
  bot_lock_until := until;
  bot_initial_balance := bot_initial_balance s
|}.

(** Two stores agree on every numeric row. *)
Definition sameConfig (a b : Settings) : Prop :=
  setLock a false None = setLock b false None.

(** How the SQLite of the runtime reads the statement [setSetting]
    prepares.  Its text ends in [datetime("now")], the word [now] in
    double quotes, where the table definitions of the same file write it
    in single quotes.  A SQLite that takes a double-quoted word for a
    string accepts the statement; one that takes it for a column name,
    as [node:sqlite] does unless told otherwise, rejects it in
    [db.prepare], and then every [setSetting] call throws before anything
    is written. *)
Inductive Store : Type := Accepts | Rejects.

(** [setLock] on such a store; [None] when the first of the two calls
    throws. *)
Definition writeLock (store : Store) (s : Settings) (locked : bool)
    (until : option Z) : option Settings :=
  match store with
  | Accepts => Some (setLock s locked until)
  | Rejects => None
  end.

End Db.
Import Db.

(* ================================================================== *)
(** ** risk-manager.js: class RiskManager *)

Module Risk.

Inductive Outcome : Type := win | loss.

(** The fields set by the constructor. *)
Record RiskManager : Type := mkRiskManager {
  dailyPnL : Q;
  dailyTradeCount : nat;
  tradeHistory : list Outcome;
  maxDrawdown : Q;
  peakBalance : Q;
  currentDay : Z
}.

(** [new RiskManager()] at instant [now]. *)
Definition create (now : Z) : RiskManager := {|
  dailyPnL := 0;
  dailyTradeCount := 0;
  tradeHistory := [];
  maxDrawdown := 0;
  peakBalance := 100;
  currentDay := dayOf now
|}.

(** The [tradeConfig] argument of [canTrade]; a field the caller leaves
    out is [None].  [canTrade()] is [canTrade(noContext)]. *)
Record TradeConfig : Type := mkTradeConfig {
  balance : option Q;
  margin : option Q;
  rrRatio : option Q
}.

Definition noContext : TradeConfig :=
  {| balance := None; margin := None; rrRatio := None |}.

(** The store and the manager, threaded through every method. *)
Definition Sys : Type := (Settings * RiskManager)%type.

Definition withDaily (rm : RiskManager) (pnl : Q) (count : nat) (day : Z)
  : RiskManager := {|
  dailyPnL := pnl;
  dailyTradeCount := count;
  tradeHistory := tradeHistory rm;
  maxDrawdown := maxDrawdown rm;
  peakBalance := peakBalance rm;
  currentDay := day
|}.

(** [checkDayReset()]. *)
Definition checkDayReset (now : Z) (st : Sys) : Sys :=
  let '(s, rm) := st in
  let today := dayOf now in
  if Z.eqb today (currentDay rm) then (s, rm)
  else
    let rm' := withDaily rm 0 0%nat today in
    if bot_locked s then
      match bot_lock_until s with
      | Some lockUntil =>
          if Z.leb lockUntil now then (setLock s false None, rm')
          else (s, rm')
      | None => (s, rm')
      end
    else (s, rm').

(** [lockBot(reason)]: only the store changes. *)
Definition lockBot (now : Z) (s : Settings) : Settings :=
  setLock s true (Some (nextMidnight now)).

(** [unlockBot()]; [None] when its first statement, a [setSetting],
    throws: nothing has changed then, [dailyPnL] included. *)
Definition unlockBot (store : Store) (st : Sys) : option Sys :=
  let '(s, rm) := st in
  match writeLock store s false None with
  | Some s' => Some (s', withDaily rm 0 (dailyTradeCount rm) (currentDay rm))
  | None => None
  end.

(** The position-size block of [canTrade]: entered only for a truthy
    [margin] and a truthy [balance]. *)
Definition marginTooHigh (s : Settings) (tradeConfig : TradeConfig) : bool :=
  match margin tradeConfig, balance tradeConfig with
  | Some m, Some b =>
      if truthyQ m && truthyQ b then
        let maxMarginPct := risk_max_margin_usage_pct s / 100 in
        Qgtb m (b * maxMarginPct)
      else false
  | _, _ => false
  end.

(** The risk:reward block of [canTrade]: entered only for a truthy
    [rrRatio]. *)
Definition rrTooLow (s : Settings) (tradeConfig : TradeConfig) : bool :=
  match rrRatio tradeConfig with
  | Some rr =>
      if truthyQ rr then
        let minRR := risk_min_rr_ratio s in
        Qltb rr minRR
      else false
  | None => false
  end.

(** [canTrade(tradeConfig = {})]: the answer and the state it leaves. *)
Definition canTrade (now : Z) (tradeConfig : TradeConfig) (st : Sys)
  : bool * Sys :=
  let '(s, rm) := checkDayReset now st in
  if bot_locked s then (false, (s, rm))
  else
    let bal := orDefault (balance tradeConfig) (bot_initial_balance s) in
    let maxDailyLossPct := risk_max_daily_loss_pct s / 100 in
    let maxDailyLoss := bal * maxDailyLossPct in
    if Qltb (dailyPnL rm) (- maxDailyLoss) then
      (false, (lockBot now s, rm))
    else if marginTooHigh s tradeConfig then (false, (s, rm))
    else if rrTooLow s tradeConfig then (false, (s, rm))
    else (true, (s, rm)).

(** [tradeHistory.push(o); if (length > 50) shift()]. *)
Definition pushOutcome (h : list Outcome) (o : Outcome) : list Outcome :=
  let h' := (h ++ [o])%list in
  if Nat.ltb 50 (List.length h') then tl h' else h'.

(** [recordPnL(pnl)]. *)
Definition recordPnL (now : Z) (pnl : Q) (st : Sys) : Sys :=
  let '(s, rm) := st in
  let daily := dailyPnL rm + pnl in
  let history :=
    pushOutcome (tradeHistory rm) (if Qgeb pnl 0 then win else loss) in
  let bal := bot_initial_balance s + daily in
  let peak := if Qgtb bal (peakBalance rm) then bal else peakBalance rm in
  let drawdown := ((peak - bal) / peak) * 100 in
  let maxDD :=
    if Qgtb drawdown (maxDrawdown rm) then drawdown else maxDrawdown rm in
  let rm' := {|
    dailyPnL := daily;
    dailyTradeCount := S (dailyTradeCount rm);
    tradeHistory := history;
    maxDrawdown := maxDD;
    peakBalance := peak;
    currentDay := currentDay rm
  |} in
  let initialBalance := bot_initial_balance s in
  let maxDailyLossPct := risk_max_daily_loss_pct s / 100 in
  let maxDailyLoss := initialBalance * maxDailyLossPct in
  if Qltb daily (- maxDailyLoss) then (lockBot now s, rm') else (s, rm').

(** [recordPnL(pnl)] on a store that may reject writes: the state it
    leaves and whether it threw.  The counters are written before
    [lockBot] is called, whose first statement is the [setSetting]; they
    are updated either way. *)
Definition recordPnLOn (store : Store) (now : Z) (pnl : Q) (st : Sys)
  : Sys * bool :=
  let '(s, rm) := st in
  let daily := dailyPnL rm + pnl in
  let history :=
    pushOutcome (tradeHistory rm) (if Qgeb pnl 0 then win else loss) in
  let bal := bot_initial_balance s + daily in
  let peak := if Qgtb bal (peakBalance rm) then bal else peakBalance rm in
  let drawdown := ((peak - bal) / peak) * 100 in
  let maxDD :=
    if Qgtb drawdown (maxDrawdown rm) then drawdown else maxDrawdown rm in
  let rm' := {|
    dailyPnL := daily;
    dailyTradeCount := S (dailyTradeCount rm);
    tradeHistory := history;
    maxDrawdown := maxDD;
    peakBalance := peak;
    currentDay := currentDay rm
  |} in
  let initialBalance := bot_initial_balance s in
  let maxDailyLossPct := risk_max_daily_loss_pct s / 100 in
  let maxDailyLoss := initialBalance * maxDailyLossPct in
  if Qltb daily (- maxDailyLoss) then
    match writeLock store s true (Some (nextMidnight now)) with
    | Some s' => ((s', rm'), false)
    | None => ((s, rm'), true)
    end
  else ((s, rm'), false).

(** ** Sequences of calls

    A call on the manager, made at some instant. *)
Inductive Call : Type :=
| CanTrade (tradeConfig : TradeConfig)
| RecordPnL (pnl : Q).

(** Make the calls in order: the answers of the [canTrade] calls, in
    order, and the state left at the end. *)
Fixpoint run (calls : list (Z * Call)) (st : Sys) : list bool * Sys :=
  match calls with
  | [] => ([], st)
  | (now, CanTrade c) :: rest =>
      let '(answer, st1) := canTrade now c st in
      let '(answers, st2) := run rest st1 in
      (answer :: answers, st2)
  | (now, RecordPnL pnl) :: rest => run rest (recordPnL now pnl st)
  end.

(** A context that passes every check but the lock: the loss limit it
    implies is not negative, and neither the margin block nor the
    risk:reward block rejects it. *)
Definition qualifies (s : Settings) (c : TradeConfig) : Prop :=
  0 <= orDefault (balance c) (bot_initial_balance s)
       * (risk_max_daily_loss_pct s / 100) /\
  marginTooHigh s c = false /\
  rrTooLow s c = false.

(** The state of a tripped breaker during the local day [t0] falls in:
    locked until the midnight that ends this day, by a manager whose day
    is not ahead of the clock, on the numeric rows of [s0]. *)
Definition trippedAt (s0 : Settings) (t0 : Z) (st : Sys) : Prop :=
  bot_locked (fst st) = true /\
  bot_lock_until (fst st) = Some (nextMidnight t0) /\
  (currentDay (snd st) <= dayOf t0)%Z /\
  sameConfig (fst st) s0.

End Risk.

(* ================================================================== *)
(** ** futures-100.js: the values the engine passes around *)

Inductive Direction : Type := long | short.

(** The [bollinger] object of an indicator snapshot. *)
Module Bollinger.
Record t : Type := mk {
  upper : Q;
  middle : Q;
  lower : Q;
  position : Q;
  squeeze : bool
}.
End Bollinger.

(** The fields of [analysis.timeframes['1h'].indicators] that
    [openPosition] and [analyzeOnly] read; a missing snapshot or field is
    [None]. *)
Module Indicators.
Record t : Type := mk {
  price : option Q;
  atr : option Q;
  atrPct : option Q;
  bollinger : option Bollinger.t
}.
End Indicators.

(** What [determineLeverage] returns.  The three mode strings are
    ['GÜVEN 4x 🔥'], ['Normal 2x (Yüksek Volatilite)'] and
    [`Normal ${defaultLeverage}x`]. *)
Module Leverage.
Inductive Mode : Type :=
| GUVEN_4x
| Normal_2x_YuksekVolatilite
| Normal (defaultLeverage : Q).

Record t : Type := mk {
  leverage : Q;
  mode : Mode
}.
End Leverage.

(** What [calculatePositionSize] returns when it is not [null].
    [stopDistance] is the percentage before [toFixed(2) + '%']. *)
Module Sizing.
Record t : Type := mk {
  riskUSD : Q;
  stopDistance : Q;
  positionValue : Q;
  margin : Q;
  amount : Q;
  leverage : Q
}.
End Sizing.

(** What [calculateSLTP] returns.  The three display fields are the
    numbers before [toFixed(2)]; each is [None] when its divisor is zero. *)
Module SLTP.
Record t : Type := mk {
  stopLoss : Q;
  takeProfit : Q;
  slDistance : option Q;
  tpDistance : option Q;
  rrRatio : option Q
}.
End SLTP.

(** An entry of [this.positions].  The opaque [id], [orderId] and the
    [layers] breakdown are never read by the lifecycle and are left out. *)
Module Position.
Record t : Type := mk {
  symbol : string;
  direction : Direction;
  entryPrice : Q;
  currentPrice : Q;
  amount : Q;
  leverage : Q;
  leverageMode : Leverage.Mode;
  stopLoss : Q;
  takeProfit : Q;
  trailingStopActive : bool;
  trailingStopPrice : option Q;
  partialClosed : bool;
  score : Z;
  margin : Q;
  positionValue : Q;
  openedAt : Z;
  pnl : Q;
  pnlPct : Q
}.

(** [pos.currentPrice = ..; pos.pnl = ..; pos.pnlPct = ..]. *)
Definition setMark (p : t) (cur pnl' pnlPct' : Q) : t :=
  mk (symbol p) (direction p) (entryPrice p) cur (amount p) (leverage p)
     (leverageMode p) (stopLoss p) (takeProfit p) (trailingStopActive p)
     (trailingStopPrice p) (partialClosed p) (score p) (margin p)
     (positionValue p) (openedAt p) pnl' pnlPct'.

(** [pos.trailingStopActive = ..; pos.trailingStopPrice = ..]. *)
Definition setTrailing (p : t) (active : bool) (tsl : option Q) : t :=
  mk (symbol p) (direction p) (entryPrice p) (currentPrice p) (amount p)
     (leverage p) (leverageMode p) (stopLoss p) (takeProfit p) active tsl
     (partialClosed p) (score p) (margin p) (positionValue p) (openedAt p)
     (pnl p) (pnlPct p).

(** [pos.amount -= closeAmount; pos.partialClosed = true;
    pos.stopLoss = pos.entryPrice]. *)
Definition setPartial (p : t) (closeAmount : Q) : t :=
  mk (symbol p) (direction p) (entryPrice p) (currentPrice p)
     (amount p - closeAmount) (leverage p) (leverageMode p) (entryPrice p)
     (takeProfit p) (trailingStopActive p) (trailingStopPrice p) true
     (score p) (margin p) (positionValue p) (openedAt p) (pnl p)
     (pnlPct p).

(** A [null] trailing stop compared as a number. *)
Definition tslValue (p : t) : Q :=
  match trailingStopPrice p with
  | Some v => v
  | None => 0
  end.
End Position.

(** The reason strings passed to [closePosition]. *)
Inductive CloseReason : Type :=
| STOP_LOSS
| TAKE_PROFIT
| TRAILING_STOP
| MANUAL_CLOSE.

(** ** The execution gateway, as seen by one call

    What the exchange and the collaborators answer while one position is
    handled.  [tickerLast] is [getTicker(..).last] ([None] when the call
    throws or the field is missing).  [exchangeBalance] is what
    [exchangeManager.getBalance] gives: [None] when it throws, otherwise its
    [totalUSD] field.  [fault] names the first call that throws inside the
    surrounding [try]: the exchange order (with [setLeverage] and
    [setMarginMode] before it), the [insertTrade] that follows it, or a
    notifier call at the end. *)
Module Gateway.
Inductive Fault : Type :=
| OrderThrows
| InsertTradeThrows
| NotifyThrows.

Record t : Type := mk {
  tickerLast : option Q;
  exchangeBalance : option (option Q);
  fault : option Fault
}.

Definition orderPlaced (g : t) : bool :=
  match fault g with
  | Some OrderThrows => false
  | _ => true
  end.
End Gateway.

(* ================================================================== *)
(** ** technical-analysis.js: what an analysis hands to the engine *)

(** The [macd] and [macdPrev] objects of an indicator snapshot. *)
Module Macd.
Record t : Type := mk {
  MACD : Q;
  signal : Q;
  histogram : Q
}.
End Macd.

(** The [ema] object; a period with too few candles is [null]. *)
Module Ema.
Record t : Type := mk {
  ema9 : option Q;
  ema21 : option Q;
  ema50 : option Q
}.
End Ema.

(** The [stochastic] object. *)
Module Stochastic.
Record t : Type := mk {
  k : Q;
  d : Q
}.
End Stochastic.

(** The fields of the object [calculateIndicators] returns that the
    signal generator and the engine read; [volumeRatio] is
    [volume.ratio]. *)
Module Snapshot.
Record t : Type := mk {
  price : option Q;
  rsi : option Q;
  macd : option Macd.t;
  macdPrev : option Macd.t;
  bollinger : option Bollinger.t;
  ema : Ema.t;
  stochastic : option Stochastic.t;
  atr : option Q;
  atrPct : option Q;
  volumeRatio : option Q
}.

(** The part [openPosition] and [analyzeOnly] read. *)
Definition indicators (x : t) : Indicators.t :=
  Indicators.mk (price x) (atr x) (atrPct x) (bollinger x).
End Snapshot.

(** The five [signal] strings of [generateSignal]. *)
Inductive Signal : Type :=
| strong_buy
| buy
| neutral
| sell
| strong_sell.

(** [signal.includes('buy')] and [signal.includes('sell')]. *)
Definition includesBuy (s : Signal) : bool :=
  match s with
  | strong_buy | buy => true
  | _ => false
  end.

Definition includesSell (s : Signal) : bool :=
  match s with
  | strong_sell | sell => true
  | _ => false
  end.

(** What [analyzeSymbol] resolves to for one timeframe: an object with an
    [error] and neither [signal] nor [indicators], or the signal object
    with its indicators. *)
Module Timeframe.
Inductive t : Type :=
| Failed
| Analysed (signal : Signal) (indicators : Snapshot.t).

(** [tf?.signal?.includes('buy')], [tf?.signal?.includes('sell')]. *)
Definition buys (tf : t) : bool :=
  match tf with
  | Analysed s _ => includesBuy s
  | Failed => false
  end.

Definition sells (tf : t) : bool :=
  match tf with
  | Analysed s _ => includesSell s
  | Failed => false
  end.

(** [tf?.indicators], as read by [openPosition]. *)
Definition indicators (tf : t) : Indicators.t :=
  match tf with
  | Analysed _ x => Snapshot.indicators x
  | Failed => Indicators.mk None None None None
  end.
End Timeframe.

(** [analysis.timeframes] of [multiTimeframeAnalysis]. *)
Module Timeframes.
Record t : Type := mk {
  tf15m : Timeframe.t;
  tf1h : Timeframe.t;
  tf4h : Timeframe.t
}.
End Timeframes.

(** The [score] entries of the [layers] object of [calculateSignalScore]
    (the [status] labels are left out); [{}] is all zero. *)
Module Layers.
Record t : Type := mk {
  trend : Z;
  rsi : Z;
  macd : Z;
  bollinger : Z;
  ema : Z;
  volume : Z;
  entry_timing : Z
}.

Definition empty : t := mk 0 0 0 0 0 0 0.

Definition total (l : t) : Z :=
  (trend l + rsi l + macd l + bollinger l + ema l + volume l
   + entry_timing l)%Z.
End Layers.

(** What [calculateSignalScore] returns. *)
Module SignalScore.
Record t : Type := mk {
  score : Z;
  direction : option Direction;
  layers : Layers.t
}.
End SignalScore.

(** What one symbol meets during a scan: the result of
    [multiTimeframeAnalysis] ([None] when it carries an [error]) and the
    gateway answers while the symbol is handled. *)
Module Feed.
Record t : Type := mk {
  analysis : option Timeframes.t;
  gateway : Gateway.t
}.
End Feed.

(* ================================================================== *)
(** ** technical-analysis.js: signals and trend alignment *)

Module TA.

(** The running pair [(buyScore, sellScore)] of [generateSignal]. *)
Definition Votes : Type := (Q * Q)%type.

Definition addBuy (v : Votes) (x : Q) : Votes := (fst v + x, snd v).
Definition addSell (v : Votes) (x : Q) : Votes := (fst v, snd v + x).

(** 1. RSI. *)
Definition rsiBlock (indicators : Snapshot.t) (v : Votes) : Votes :=
  match Snapshot.rsi indicators with
  | Some rsi =>
      if Qltb rsi 25 then addBuy v 2
      else if Qltb rsi 35 then addBuy v 1
      else if Qgtb rsi 75 then addSell v 2
      else if Qgtb rsi 65 then addSell v 1
      else v
  | None => v
  end.

(** 2. MACD crossover. *)
Definition macdBlock (indicators : Snapshot.t) (v : Votes) : Votes :=
  match Snapshot.macd indicators, Snapshot.macdPrev indicators with
  | Some macd, Some macdPrev =>
      let crossUp :=
        Qleb (Macd.MACD macdPrev) (Macd.signal macdPrev)
        && Qgtb (Macd.MACD macd) (Macd.signal macd) in
      let crossDown :=
        Qgeb (Macd.MACD macdPrev) (Macd.signal macdPrev)
        && Qltb (Macd.MACD macd) (Macd.signal macd) in
      if crossUp then addBuy v 2
      else if crossDown then addSell v 2
      else if Qgtb (Macd.histogram macd) 0 then addBuy v 1
      else if Qltb (Macd.histogram macd) 0 then addSell v 1
      else v
  | _, _ => v
  end.

(** 3. Bollinger bands. *)
Definition bollingerBlock (indicators : Snapshot.t) (v : Votes) : Votes :=
  match Snapshot.bollinger indicators with
  | Some bb =>
      if Qltb (Bollinger.position bb) 0.1 then addBuy v 1.5
      else if Qgtb (Bollinger.position bb) 0.9 then addSell v 1.5
      else if Bollinger.squeeze bb then addSell (addBuy v 0.5) 0.5
      else v
  | None => v
  end.

(** 4. EMA trend. *)
Definition emaBlock (indicators : Snapshot.t) (v : Votes) : Votes :=
  match Ema.ema9 (Snapshot.ema indicators),
        Ema.ema21 (Snapshot.ema indicators),
        Ema.ema50 (Snapshot.ema indicators) with
  | Some ema9, Some ema21, Some ema50 =>
      if truthyQ ema9 && truthyQ ema21 && truthyQ ema50 then
        if Qgtb ema9 ema21 && Qgtb ema21 ema50 then addBuy v 1.5
        else if Qltb ema9 ema21 && Qltb ema21 ema50 then addSell v 1.5
        else if Qgtb ema9 ema21 then addBuy v 0.5
        else addSell v 0.5
      else v
  | _, _, _ => v
  end.

(** 5. Stochastic. *)
Definition stochasticBlock (indicators : Snapshot.t) (v : Votes) : Votes :=
  match Snapshot.stochastic indicators with
  | Some st =>
      if Qltb (Stochastic.k st) 20 && Qltb (Stochastic.d st) 20
      then addBuy v 1
      else if Qgtb (Stochastic.k st) 80 && Qgtb (Stochastic.d st) 80
      then addSell v 1
      else v
  | None => v
  end.

(** 6. Volume: a high ratio adds a point to the side that leads. *)
Definition volumeBlock (indicators : Snapshot.t) (v : Votes) : Votes :=
  match Snapshot.volumeRatio indicators with
  | Some ratio =>
      if Qgtb ratio 1.5 then
        if Qgtb (fst v) (snd v) then addBuy v 1
        else if Qgtb (snd v) (fst v) then addSell v 1
        else v
      else v
  | None => v
  end.

(** The six blocks in the order of the source. *)
Definition votes (indicators : Snapshot.t) : Votes :=
  volumeBlock indicators
    (stochasticBlock indicators
       (emaBlock indicators
          (bollingerBlock indicators
             (macdBlock indicators
                (rsiBlock indicators (0, 0)))))).

(** The [signal] chosen from the two totals. *)
Definition decide (v : Votes) : Signal :=
  let buyScore := fst v in
  let sellScore := snd v in
  if Qgeb buyScore 7 && Qgtb buyScore (sellScore + 2) then strong_buy
  else if Qgeb buyScore 5 && Qgtb buyScore (sellScore + 1) then buy
  else if Qgeb sellScore 7 && Qgtb sellScore (buyScore + 2) then strong_sell
  else if Qgeb sellScore 5 && Qgtb sellScore (buyScore + 1) then sell
  else neutral.

(** The [signal], [buyScore] and [sellScore] of the object
    [generateSignal] returns.  Every increment is a multiple of one half,
    so the totals are exact and [Math.round(x * 10) / 10] returns them
    unchanged. *)
Record Generated : Type := mkGenerated {
  signal : Signal;
  buyScore : Q;
  sellScore : Q
}.

(** [generateSignal(indicators)]. *)
Definition generateSignal (indicators : option Snapshot.t) : Generated :=
  match indicators with
  | None => mkGenerated neutral 0 0
  | Some x =>
      let v := votes x in
      mkGenerated (decide v) (fst v) (snd v)
  end.

(** [analyzeSymbol], [fetched] being what [calculateIndicators] made of
    the candles, or [None] when they could not be fetched or were fewer
    than 50. *)
Definition analyzeSymbol (fetched : option Snapshot.t) : Timeframe.t :=
  match fetched with
  | None => Timeframe.Failed
  | Some indicators =>
      Timeframe.Analysed (signal (generateSignal (Some indicators)))
        indicators
  end.

Inductive Trend : Type := bullish | bearish | mixed.

(** The [strength] strings ['güçlü'], ['orta'] and ['zayıf']. *)
Inductive Strength : Type := guclu | orta | zayif.

(** [tf?.signal], kept by [filter(Boolean)] when present. *)
Definition signalOf (tf : Timeframe.t) : list Signal :=
  match tf with
  | Timeframe.Analysed s _ => [s]
  | Timeframe.Failed => []
  end.

(** [checkTrendAlignment(tf15m, tf1h, tf4h)]. *)
Definition checkTrendAlignment (tf15m tf1h tf4h : Timeframe.t)
  : Trend * Strength :=
  let signals := (signalOf tf15m ++ signalOf tf1h ++ signalOf tf4h)%list in
  let nBullish := List.length (filter includesBuy signals) in
  let nBearish := List.length (filter includesSell signals) in
  if Nat.leb 2 nBullish then
    (bullish, if Nat.eqb nBullish 3 then guclu else orta)
  else if Nat.leb 2 nBearish then
    (bearish, if Nat.eqb nBearish 3 then guclu else orta)
  else (mixed, zayif).

(** [multiTimeframeAnalysis]: the three timeframes and their alignment. *)
Definition multiTimeframeAnalysis (f15m f1h f4h : option Snapshot.t)
  : Timeframes.t * (Trend * Strength) :=
  let tf15m := analyzeSymbol f15m in
  let tf1h := analyzeSymbol f1h in
  let tf4h := analyzeSymbol f4h in
  (Timeframes.mk tf15m tf1h tf4h, checkTrendAlignment tf15m tf1h tf4h).

End TA.

(* ================================================================== *)
(** ** futures-100.js: class FuturesEngine *)

Module Engine.

(** [atrPct !== null && test(atrPct)]. *)
Definition notNullAnd (a : option Q) (test : Q -> bool) : bool :=
  match a with
  | Some v => test v
  | None => false
  end.

(** [determineLeverage(score, atrPct)]. *)
Definition determineLeverage (s : Settings) (score : Z) (atrPct : option Q)
  : Leverage.t :=
  let maxLeverage := futures_max_leverage s in
  let defaultLeverage := futures_default_leverage s in
  if (9 <=? score)%Z && notNullAnd atrPct (fun a => Qltb a 2) then
    Leverage.mk (Qmin 4 maxLeverage) Leverage.GUVEN_4x
  else if notNullAnd atrPct (fun a => Qgtb a 3) then
    Leverage.mk 2 Leverage.Normal_2x_YuksekVolatilite
  else
    Leverage.mk defaultLeverage (Leverage.Normal defaultLeverage).

(** [calculatePositionSize(balance, entryPrice, stopLossPrice, leverage)];
    [None] is the [null] it returns for a zero stop distance.  Every call
    site passes a truthy [entryPrice] and a leverage chosen by
    [determineLeverage]; the two are the divisors here. *)
Definition calculatePositionSize (s : Settings)
    (balance entryPrice stopLossPrice leverage : Q) : option Sizing.t :=
  let maxRiskPct := risk_max_position_risk_pct s / 100 in
  let maxMarginPct := risk_max_margin_usage_pct s / 100 in
  let riskUSD := balance * maxRiskPct in
  let stopDistance := Qabs (entryPrice - stopLossPrice) / entryPrice in
  if Qeq_bool stopDistance 0 then None
  else
    let positionValue := riskUSD / stopDistance in
    let margin := positionValue / leverage in
    let maxMargin := balance * maxMarginPct in
    let actualMargin := Qmin margin maxMargin in
    let actualPositionValue := actualMargin * leverage in
    let amount := actualPositionValue / entryPrice in
    Some (Sizing.mk riskUSD (stopDistance * 100) actualPositionValue
            actualMargin amount leverage).

(** [calculateSLTP], first half: the ATR and percentage candidates and the
    Bollinger comparison.  Returns [(stopLoss, takeProfit)] as they stand
    when the reward:risk check starts. *)
Definition candidateSLTP (direction : Direction) (entryPrice atr : Q)
    (bollinger : option Bollinger.t) : Q * Q :=
  let atrSL := atr * 1.5 in
  let atrTP := atr * 3.5 in
  let pctSL := entryPrice * 0.02 in
  let pctTP := entryPrice * 0.07 in
  match direction with
  | long =>
      let slDist := Qmin atrSL pctSL in
      let stopLoss := entryPrice - slDist in
      let tpDist := Qmax atrTP pctTP in
      let takeProfit := entryPrice + tpDist in
      match bollinger with
      | Some bb =>
          (if Qgtb (Bollinger.lower bb) stopLoss
           then Bollinger.lower bb * 0.998 else stopLoss,
           if Qltb (Bollinger.upper bb) takeProfit
           then Bollinger.upper bb * 1.002 else takeProfit)
      | None => (stopLoss, takeProfit)
      end
  | short =>
      let slDist := Qmin atrSL pctSL in
      let stopLoss := entryPrice + slDist in
      let tpDist := Qmax atrTP pctTP in
      let takeProfit := entryPrice - tpDist in
      match bollinger with
      | Some bb =>
          (if Qltb (Bollinger.upper bb) stopLoss
           then Bollinger.upper bb * 1.002 else stopLoss,
           if Qgtb (Bollinger.lower bb) takeProfit
           then Bollinger.lower bb * 0.998 else takeProfit)
      | None => (stopLoss, takeProfit)
      end
  end.

(** [calculateSLTP], second half: the reward:risk check and the returned
    object. *)
Definition enforceMinRR (s : Settings) (direction : Direction)
    (entryPrice : Q) (candidate : Q * Q) : SLTP.t :=
  let '(stopLoss, takeProfit) := candidate in
  let slDist := Qabs (entryPrice - stopLoss) in
  let tpDist := Qabs (entryPrice - takeProfit) in
  let rrRatio := if Qgtb slDist 0 then tpDist / slDist else 0 in
  let minRR := risk_min_rr_ratio s in
  let takeProfit' :=
    if Qltb rrRatio minRR then
      let adjustedTPDist := slDist * minRR in
      match direction with
      | long => entryPrice + adjustedTPDist
      | short => entryPrice - adjustedTPDist
      end
    else takeProfit in
  SLTP.mk stopLoss takeProfit'
    (option_map (fun d => d * 100)
       (jsdiv (Qabs (entryPrice - stopLoss)) entryPrice))
    (option_map (fun d => d * 100)
       (jsdiv (Qabs (entryPrice - takeProfit')) entryPrice))
    (jsdiv (Qabs (entryPrice - takeProfit')) (Qabs (entryPrice - stopLoss))).

(** [calculateSLTP(direction, entryPrice, atr, bollinger)]. *)
Definition calculateSLTP (s : Settings) (direction : Direction)
    (entryPrice atr : Q) (bollinger : option Bollinger.t) : SLTP.t :=
  enforceMinRR s direction entryPrice
    (candidateSLTP direction entryPrice atr bollinger).

(** ** The engine object *)

Record FuturesEngine : Type := mkEngine {
  riskManager : Risk.RiskManager;
  running : bool;
  positions : list (string * Position.t);
  dailyPnL : Q;
  dailyPnLReset : Z
}.

Definition State : Type := (Settings * FuturesEngine)%type.

(** [this.positions] is a [Map]: insertion-ordered, one entry per key. *)
Fixpoint mapGet (m : list (string * Position.t)) (k : string)
  : option Position.t :=
  match m with
  | [] => None
  | (k', v) :: rest => if String.eqb k' k then Some v else mapGet rest k
  end.

Fixpoint mapSet (m : list (string * Position.t)) (k : string)
    (v : Position.t) : list (string * Position.t) :=
  match m with
  | [] => [(k, v)]
  | (k', v') :: rest =>
      if String.eqb k' k then (k', v) :: rest
      else (k', v') :: mapSet rest k v
  end.

Definition mapDelete (m : list (string * Position.t)) (k : string)
  : list (string * Position.t) :=
  filter (fun kv => negb (String.eqb (fst kv) k)) m.

Definition withRisk (e : FuturesEngine) (rm : Risk.RiskManager)
  : FuturesEngine :=
  mkEngine rm (running e) (positions e) (dailyPnL e) (dailyPnLReset e).

Definition withPositions (e : FuturesEngine)
    (ps : list (string * Position.t)) : FuturesEngine :=
  mkEngine (riskManager e) (running e) ps (dailyPnL e) (dailyPnLReset e).

Definition withDailyPnL (e : FuturesEngine) (d : Q) : FuturesEngine :=
  mkEngine (riskManager e) (running e) (positions e) d (dailyPnLReset e).

(** [getBalance()]. *)
Definition getBalance (s : Settings) (g : Gateway.t) : Q :=
  match Gateway.exchangeBalance g with
  | Some totalUSD => orDefault totalUSD 100
  | None => bot_initial_balance s
  end.

(** [openPosition(symbol, direction, score, layers, analysis)], where
    [ind] is [analysis.timeframes['1h'].indicators]. *)
Definition openPosition (now : Z) (g : Gateway.t) (symbol : string)
    (direction : Direction) (score : Z) (ind : Indicators.t) (st : State)
  : State :=
  let '(s, e) := st in
  let '(allowed, (s1, rm1)) :=
    Risk.canTrade now Risk.noContext (s, riskManager e) in
  let e1 := withRisk e rm1 in
  if negb allowed then (s1, e1)
  else
    let balance := getBalance s1 g in
    let atrPct := orNull (Indicators.atrPct ind) in
    let atr := orDefault (Indicators.atr ind) 0 in
    let bollinger := Indicators.bollinger ind in
    match Indicators.price ind with
    | None => (s1, e1)
    | Some entryPrice =>
        if negb (truthyQ entryPrice) then (s1, e1)
        else
          let lev := determineLeverage s1 score atrPct in
          let sltp := calculateSLTP s1 direction entryPrice atr bollinger in
          match calculatePositionSize s1 balance entryPrice
                  (SLTP.stopLoss sltp) (Leverage.leverage lev) with
          | None => (s1, e1)
          | Some sizing =>
              if Qgtb (Sizing.margin sizing) (balance * 0.5) then (s1, e1)
              else if negb (Gateway.orderPlaced g) then (s1, e1)
              else
                let position :=
                  Position.mk symbol direction entryPrice entryPrice
                    (Sizing.amount sizing) (Leverage.leverage lev)
                    (Leverage.mode lev) (SLTP.stopLoss sltp)
                    (SLTP.takeProfit sltp) false None false score
                    (Sizing.margin sizing) (Sizing.positionValue sizing)
                    now 0 0 in
                (s1, withPositions e1 (mapSet (positions e1) symbol position))
          end
    end.

(** The partial-profit block of the monitor loop. *)
Definition partialClose (s : Settings) (g : Gateway.t) (pos : Position.t)
  : Position.t :=
  let partialClosePct := futures_partial_close_pct s in
  let partialCloseAmount := futures_partial_close_amount s in
  if Qgeb (Position.pnlPct pos) partialClosePct
     && negb (Position.partialClosed pos) then
    let closeAmount := Position.amount pos * (partialCloseAmount / 100) in
    if Gateway.orderPlaced g then Position.setPartial pos closeAmount
    else pos
  else pos.

(** The P&L block of the monitor loop: [pos.currentPrice], [pos.pnl] and
    [pos.pnlPct] at the fresh price. *)
Definition markToMarket (pos : Position.t) (currentPrice : Q) : Position.t :=
  let entry := Position.entryPrice pos in
  match Position.direction pos with
  | long =>
      Position.setMark pos currentPrice
        ((currentPrice - entry) * Position.amount pos)
        (((currentPrice - entry) / entry) * 100 * Position.leverage pos)
  | short =>
      Position.setMark pos currentPrice
        ((entry - currentPrice) * Position.amount pos)
        (((entry - currentPrice) / entry) * 100 * Position.leverage pos)
  end.

(** [hitSL]. *)
Definition hitSL (pos : Position.t) (currentPrice : Q) : bool :=
  match Position.direction pos with
  | long => Qleb currentPrice (Position.stopLoss pos)
  | short => Qgeb currentPrice (Position.stopLoss pos)
  end.

(** [hitTP]. *)
Definition hitTP (pos : Position.t) (currentPrice : Q) : bool :=
  match Position.direction pos with
  | long => Qgeb currentPrice (Position.takeProfit pos)
  | short => Qleb currentPrice (Position.takeProfit pos)
  end.

(** The trailing-stop block, first [if]: activation. *)
Definition activateTrailing (s : Settings) (pos : Position.t)
    (currentPrice : Q) : Position.t :=
  let trailingActivatePct := futures_trailing_stop_activate_pct s in
  let trailingDistancePct := futures_trailing_stop_distance_pct s in
  if Qgeb (Position.pnlPct pos) trailingActivatePct
     && negb (Position.trailingStopActive pos) then
    let distance := currentPrice * (trailingDistancePct / 100) in
    Position.setTrailing pos true
      (Some (match Position.direction pos with
             | long => currentPrice - distance
             | short => currentPrice + distance
             end))
  else pos.

(** The trailing-stop block, second [if]: the candidate [newTSL] replaces
    the trailing stop when it is strictly beyond it. *)
Definition ratchetTrailing (s : Settings) (pos : Position.t)
    (currentPrice : Q) : Position.t :=
  let trailingDistancePct := futures_trailing_stop_distance_pct s in
  let distance := currentPrice * (trailingDistancePct / 100) in
  match Position.direction pos with
  | long =>
      let newTSL := currentPrice - distance in
      if Qgtb newTSL (Position.tslValue pos)
      then Position.setTrailing pos (Position.trailingStopActive pos)
             (Some newTSL)
      else pos
  | short =>
      let newTSL := currentPrice + distance in
      if Qltb newTSL (Position.tslValue pos)
      then Position.setTrailing pos (Position.trailingStopActive pos)
             (Some newTSL)
      else pos
  end.

(** The breach test that follows the ratchet. *)
Definition hitTrailing (pos : Position.t) (currentPrice : Q) : bool :=
  match Position.direction pos with
  | long => Qleb currentPrice (Position.tslValue pos)
  | short => Qgeb currentPrice (Position.tslValue pos)
  end.

(** One iteration of the [for] loop of [monitorPositions] on the entry
    [pos]: the entry as the iteration leaves it, and the reason passed to
    [closePosition] when the iteration calls it. *)
Definition monitorPosition (s : Settings) (g : Gateway.t) (pos : Position.t)
  : Position.t * option CloseReason :=
  match Gateway.tickerLast g with
  | None => (pos, None)
  | Some currentPrice =>
      if negb (truthyQ currentPrice) then (pos, None)
      else
        let p1 := markToMarket pos currentPrice in
        if hitSL p1 currentPrice then (p1, Some STOP_LOSS)
        else if hitTP p1 currentPrice then (p1, Some TAKE_PROFIT)
        else
          let p2 := activateTrailing s p1 currentPrice in
          if Position.trailingStopActive p2 then
            let p3 := ratchetTrailing s p2 currentPrice in
            if hitTrailing p3 currentPrice then (p3, Some TRAILING_STOP)
            else (partialClose s g p3, None)
          else (partialClose s g p2, None)
  end.

(** [closePosition(symbol, reason, closePrice)].  The reason only labels
    the trade row and the messages. *)
Definition closePosition (now : Z) (g : Gateway.t) (symbol : string)
    (reason : CloseReason) (closePrice : Q) (st : State) : State :=
  let '(s, e) := st in
  match mapGet (positions e) symbol with
  | None => (s, e)
  | Some pos =>
      if negb (Gateway.orderPlaced g) then (s, e)
      else
        let finalPnL :=
          match Position.direction pos with
          | long => (closePrice - Position.entryPrice pos) * Position.amount pos
          | short => (Position.entryPrice pos - closePrice) * Position.amount pos
          end in
        let e1 := withDailyPnL e (dailyPnL e + finalPnL) in
        match Gateway.fault g with
        | Some Gateway.InsertTradeThrows => (s, e1)
        | _ =>
            let '(s2, rm2) := Risk.recordPnL now finalPnL (s, riskManager e1) in
            let e2 := withRisk e1 rm2 in
            let balance := getBalance s2 g in
            let maxDailyLossPct := risk_max_daily_loss_pct s2 / 100 in
            let maxDailyLoss := balance * maxDailyLossPct in
            let s3 :=
              if Qltb (dailyPnL e2) (- maxDailyLoss)
              then setLock s2 true (Some (nextMidnight now)) else s2 in
            match Gateway.fault g with
            | Some Gateway.NotifyThrows => (s3, e2)
            | _ => (s3, withPositions e2 (mapDelete (positions e2) symbol))
            end
        end
  end.

(** The entry after a run of monitor iterations on it, each with the
    settings and the gateway answers of its tick. *)
Definition afterTicks (ticks : list (Settings * Gateway.t))
    (pos : Position.t) : Position.t :=
  fold_left (fun p tick => fst (monitorPosition (fst tick) (snd tick) p))
    ticks pos.

(** The body of the monitor loop for the entry stored under [symbol],
    with the [closePosition] call it may make. *)
Definition monitorSymbol (now : Z) (g : Gateway.t) (symbol : string)
    (st : State) : State :=
  let '(s, e) := st in
  match mapGet (positions e) symbol with
  | None => (s, e)
  | Some pos =>
      let '(pos', request) := monitorPosition s g pos in
      let st' := (s, withPositions e (mapSet (positions e) symbol pos')) in
      match request with
      | Some reason =>
          closePosition now g symbol reason (Position.currentPrice pos') st'
      | None => st'
      end
  end.

(** [monitorPositions()]: one pass over the entries, [gw symbol] being
    what the gateway answers while [symbol] is handled. *)
Definition monitorPositions (now : Z) (gw : string -> Gateway.t)
    (st : State) : State :=
  let '(s, e) := st in
  if negb (running e) || Nat.eqb (List.length (positions e)) 0 then st
  else
    fold_left (fun acc symbol => monitorSymbol now (gw symbol) symbol acc)
      (map fst (positions e)) st.

(** What [analyzeOnly] returns when the analysis has no error (the
    [symbol], [layers] and raw signal strings are left out). *)
Record Analysis : Type := mkAnalysis {
  an_score : Z;
  an_minScore : Q;
  an_direction : option Direction;
  an_leverage : Q;
  an_leverageMode : Leverage.Mode;
  an_entryPrice : option Q;
  an_sltp : option SLTP.t;
  an_sizing : option Sizing.t;
  an_atrPct : option Q;
  an_wouldTrade : bool
}.

(** [analyzeOnly(symbol)], [score] and [direction] being what
    [calculateSignalScore] gave for the analysis and [ind] its 1h
    indicators. *)
Definition analyzeOnly (s : Settings) (g : Gateway.t) (score : Z)
    (direction : option Direction) (ind : Indicators.t) : Analysis :=
  let atrPct := orNull (Indicators.atrPct ind) in
  let atr := orDefault (Indicators.atr ind) 0 in
  let bollinger := Indicators.bollinger ind in
  let entryPrice := Indicators.price ind in
  let lev := determineLeverage s score atrPct in
  let '(sltp, sizing) :=
    match direction, entryPrice with
    | Some d, Some entry =>
        if truthyQ entry then
          let sltp := calculateSLTP s d entry atr bollinger in
          let balance := getBalance s g in
          (Some sltp,
           calculatePositionSize s balance entry (SLTP.stopLoss sltp)
             (Leverage.leverage lev))
        else (None, None)
    | _, _ => (None, None)
    end in
  mkAnalysis score (futures_min_signal_score s) direction
    (Leverage.leverage lev) (Leverage.mode lev) entryPrice sltp sizing
    atrPct
    (Qgeb (inject_Z score) (futures_min_signal_score s)
     && match direction with Some _ => true | None => false end).

(** A run of monitor passes, each at its instant and with the gateway
    answers of that pass. *)
Definition monitorPasses (passes : list (Z * (string -> Gateway.t)))
    (st : State) : State :=
  fold_left (fun acc pass => monitorPositions (fst pass) (snd pass) acc)
    passes st.

(** ** Scoring and scanning *)

(** [calculateSignalScore(mtfAnalysis)]. *)
Definition calculateSignalScore (timeframes : Timeframes.t) : SignalScore.t :=
  let tf1h := Timeframes.tf1h timeframes in
  let tf4h := Timeframes.tf4h timeframes in
  let tf15m := Timeframes.tf15m timeframes in
  match tf1h, tf4h with
  | Timeframe.Analysed _ ind, Timeframe.Analysed _ _ =>
      let direction :=
        if Timeframe.buys tf1h then Some long
        else if Timeframe.sells tf1h then Some short
        else if Timeframe.buys tf4h then Some long
        else if Timeframe.sells tf4h then Some short
        else None in
      match direction with
      | None => SignalScore.mk 0 None Layers.empty
      | Some d =>
          let trend :=
            match d with
            | long =>
                if Timeframe.buys tf4h && Timeframe.buys tf1h then 2
                else if Timeframe.buys tf4h || Timeframe.buys tf1h then 1
                else 0
            | short =>
                if Timeframe.sells tf4h && Timeframe.sells tf1h then 2
                else if Timeframe.sells tf4h || Timeframe.sells tf1h then 1
                else 0
            end%Z in
          let rsi :=
            match Snapshot.rsi ind with
            | Some r =>
                match d with
                | long => if Qltb r 25 then 2 else if Qltb r 35 then 1 else 0
                | short => if Qgtb r 75 then 2 else if Qgtb r 65 then 1 else 0
                end
            | None => 0
            end%Z in
          let macd :=
            match Snapshot.macd ind, Snapshot.macdPrev ind with
            | Some m, Some prev =>
                let crossUp :=
                  Qleb (Macd.MACD prev) (Macd.signal prev)
                  && Qgtb (Macd.MACD m) (Macd.signal m) in
                let crossDown :=
                  Qgeb (Macd.MACD prev) (Macd.signal prev)
                  && Qltb (Macd.MACD m) (Macd.signal m) in
                match d with
                | long =>
                    if crossUp then 2
                    else if Qgtb (Macd.histogram m) 0 then 1 else 0
                | short =>
                    if crossDown then 2
                    else if Qltb (Macd.histogram m) 0 then 1 else 0
                end
            | _, _ => 0
            end%Z in
          let bollinger :=
            match Snapshot.bollinger ind with
            | Some bb =>
                match d with
                | long =>
                    if Qltb (Bollinger.position bb) 0.1 then 1
                    else if Bollinger.squeeze bb then 1 else 0
                | short =>
                    if Qgtb (Bollinger.position bb) 0.9 then 1
                    else if Bollinger.squeeze bb then 1 else 0
                end
            | None => 0
            end%Z in
          let ema :=
            match Ema.ema9 (Snapshot.ema ind), Ema.ema21 (Snapshot.ema ind),
                  Ema.ema50 (Snapshot.ema ind) with
            | Some e9, Some e21, Some e50 =>
                if truthyQ e9 && truthyQ e21 && truthyQ e50 then
                  match d with
                  | long => if Qgtb e9 e21 && Qgtb e21 e50 then 1 else 0
                  | short => if Qltb e9 e21 && Qltb e21 e50 then 1 else 0
                  end
                else 0
            | _, _, _ => 0
            end%Z in
          let volume :=
            match Snapshot.volumeRatio ind with
            | Some ratio => if Qgeb ratio 1.3 then 1 else 0
            | None => 0
            end%Z in
          let entry_timing :=
            match tf15m with
            | Timeframe.Analysed _ _ =>
                let match15m :=
                  match d with
                  | long => Timeframe.buys tf15m
                  | short => Timeframe.sells tf15m
                  end in
                if match15m then 1 else 0
            | Timeframe.Failed => 0
            end%Z in
          let layers :=
            Layers.mk trend rsi macd bollinger ema volume entry_timing in
          SignalScore.mk (Layers.total layers) (Some d) layers
      end
  | _, _ => SignalScore.mk 0 None Layers.empty
  end.

Definition withRunning (e : FuturesEngine) (r : bool) : FuturesEngine :=
  mkEngine (riskManager e) r (positions e) (dailyPnL e) (dailyPnLReset e).

Definition withDay (e : FuturesEngine) (d : Q) (day : Z) : FuturesEngine :=
  mkEngine (riskManager e) (running e) (positions e) d day.

(** [this.positions.has(symbol)]. *)
Definition mapHas (m : list (string * Position.t)) (k : string) : bool :=
  match mapGet m k with
  | Some _ => true
  | None => false
  end.

(** [this.positions.size >= maxOpenPositions]. *)
Definition atCapacity (e : FuturesEngine) (maxOpenPositions : Q) : bool :=
  Qgeb (inject_Z (Z.of_nat (List.length (positions e)))) maxOpenPositions.

(** The daily reset at the head of [scanSignals]. *)
Definition scanDayReset (now : Z) (st : State) : State :=
  let '(s, e) := st in
  let today := dayOf now in
  if Z.eqb today (dailyPnLReset e) then (s, e)
  else
    let e' := withDay e 0 today in
    if bot_locked s then
      match bot_lock_until s with
      | Some lockUntil =>
          if Z.leb lockUntil now then (setLock s false None, e')
          else (s, e')
      | None => (s, e')
      end
    else (s, e').

(** The body of the scan loop once the two guards let [symbol] through. *)
Definition considerSymbol (now : Z) (feed : Feed.t) (symbol : string)
    (st : State) : State :=
  match Feed.analysis feed with
  | None => st
  | Some timeframes =>
      let r := calculateSignalScore timeframes in
      let minScore := futures_min_signal_score (fst st) in
      match SignalScore.direction r with
      | Some direction =>
          if Qgeb (inject_Z (SignalScore.score r)) minScore then
            openPosition now (Feed.gateway feed) symbol direction
              (SignalScore.score r)
              (Timeframe.indicators (Timeframes.tf1h timeframes)) st
          else st
      | None => st
      end
  end.

(** The [for (const symbol of coins)] loop of [scanSignals]; every coin
    comes with what it meets when the loop reaches it. *)
Fixpoint scanLoop (now : Z) (maxOpenPositions : Q)
    (coins : list (string * Feed.t)) (st : State) : State :=
  match coins with
  | [] => st
  | (symbol, feed) :: rest =>
      if atCapacity (snd st) maxOpenPositions then st
      else if mapHas (positions (snd st)) symbol then
        scanLoop now maxOpenPositions rest st
      else
        scanLoop now maxOpenPositions rest
          (considerSymbol now feed symbol st)
  end.

(** [scanSignals()], [coins] being what [getCoins()] returns. *)
Definition scanSignals (now : Z) (coins : list (string * Feed.t))
    (st : State) : State :=
  if negb (running (snd st)) then st
  else
    let '(s, e) := scanDayReset now st in
    if bot_locked s then (s, e)
    else
      let maxOpenPositions := risk_max_open_positions s in
      if atCapacity e maxOpenPositions then (s, e)
      else scanLoop now maxOpenPositions coins (s, e).

(** [stop()]: the two timers are cleared and [running] is reset. *)
Definition stop (st : State) : State :=
  (fst st, withRunning (snd st) false).

(** [start()]: the first scan; the timers then call [scanSignals] and
    [monitorPositions]. *)
Definition start (now : Z) (coins : list (string * Feed.t)) (st : State)
  : State :=
  if running (snd st) then st
  else scanSignals now coins (fst st, withRunning (snd st) true).

(** One timer firing of a started engine. *)
Inductive Firing : Type :=
| Scan (coins : list (string * Feed.t))
| Monitor (gw : string -> Gateway.t).

Definition fire (now : Z) (f : Firing) (st : State) : State :=
  match f with
  | Scan coins => scanSignals now coins st
  | Monitor gw => monitorPositions now gw st
  end.

(** The firings of a run, in order. *)
Definition fireAll (firings : list (Z * Firing)) (st : State) : State :=
  fold_left (fun acc f => fire (fst f) (snd f) acc) firings st.

(** ** Closing on a store that may reject writes *)

(** [closePosition(symbol, reason, closePrice)] with the store as an
    input.  A [setSetting] that throws, inside [recordPnL] or in the
    engine's own limit check, lands in the [catch] of [closePosition]:
    both daily P&L counters have been raised by then, and
    [positions.delete] is not reached. *)
Definition closePositionOn (store : Store) (now : Z) (g : Gateway.t)
    (symbol : string) (reason : CloseReason) (closePrice : Q) (st : State)
  : State :=
  let '(s, e) := st in
  match mapGet (positions e) symbol with
  | None => (s, e)
  | Some pos =>
      if negb (Gateway.orderPlaced g) then (s, e)
      else
        let finalPnL :=
          match Position.direction pos with
          | long => (closePrice - Position.entryPrice pos) * Position.amount pos
          | short => (Position.entryPrice pos - closePrice) * Position.amount pos
          end in
        let e1 := withDailyPnL e (dailyPnL e + finalPnL) in
        match Gateway.fault g with
        | Some Gateway.InsertTradeThrows => (s, e1)
        | _ =>
            let '((s2, rm2), threw) :=
              Risk.recordPnLOn store now finalPnL (s, riskManager e1) in
            let e2 := withRisk e1 rm2 in
            if threw then (s2, e2)
            else
              let balance := getBalance s2 g in
              let maxDailyLossPct := risk_max_daily_loss_pct s2 / 100 in
              let maxDailyLoss := balance * maxDailyLossPct in
              let written :=
                if Qltb (dailyPnL e2) (- maxDailyLoss)
                then writeLock store s2 true (Some (nextMidnight now))
                else Some s2 in
              match written with
              | None => (s2, e2)
              | Some s3 =>
                  match Gateway.fault g with
                  | Some Gateway.NotifyThrows => (s3, e2)
                  | _ =>
                      (s3, withPositions e2 (mapDelete (positions e2) symbol))
                  end
              end
        end
  end.

(** The body of the monitor loop and a whole pass, on such a store. *)
Definition monitorSymbolOn (store : Store) (now : Z) (g : Gateway.t)
    (symbol : string) (st : State) : State :=
  let '(s, e) := st in
  match mapGet (positions e) symbol with
  | None => (s, e)
  | Some pos =>
      let '(pos', request) := monitorPosition s g pos in
      let st' := (s, withPositions e (mapSet (positions e) symbol pos')) in
      match request with
      | Some reason =>
          closePositionOn store now g symbol reason
            (Position.currentPrice pos') st'
      | None => st'
      end
  end.

Definition monitorPositionsOn (store : Store) (now : Z)
    (gw : string -> Gateway.t) (st : State) : State :=
  let '(s, e) := st in
  if negb (running e) || Nat.eqb (List.length (positions e)) 0 then st
  else
    fold_left
      (fun acc symbol => monitorSymbolOn store now (gw symbol) symbol acc)
      (map fst (positions e)) st.

(** ** Two passes that overlap

    [start] arms the monitor with [setInterval]; a firing does not wait
    for the pass before it.  Inside an iteration the entry is a shared
    object, and the only place where a later pass can see it between a
    test and the write the test guards is the partial-profit block:
    [pos.partialClosed] is tested before the awaited order and set after
    it. *)

(** One iteration up to the partial-profit block, at the price the ticker
    gave: the entry as it stands there, and the close the iteration asks
    for instead of reaching the block. *)
Definition monitorPrefix (s : Settings) (pos : Position.t) (currentPrice : Q)
  : Position.t * option CloseReason :=
  let p1 := markToMarket pos currentPrice in
  if hitSL p1 currentPrice then (p1, Some STOP_LOSS)
  else if hitTP p1 currentPrice then (p1, Some TAKE_PROFIT)
  else
    let p2 := activateTrailing s p1 currentPrice in
    if Position.trailingStopActive p2 then
      let p3 := ratchetTrailing s p2 currentPrice in
      if hitTrailing p3 currentPrice then (p3, Some TRAILING_STOP)
      else (p3, None)
    else (p2, None).

(** The partial-profit block up to its awaited order: the quantity it
    orders closed, when it takes the branch. *)
Definition partialCloseOrder (s : Settings) (pos : Position.t) : option Q :=
  let partialClosePct := futures_partial_close_pct s in
  let partialCloseAmount := futures_partial_close_amount s in
  if Qgeb (Position.pnlPct pos) partialClosePct
     && negb (Position.partialClosed pos)
  then Some (Position.amount pos * (partialCloseAmount / 100))
  else None.

(** The statements after the awaited order. *)
Definition partialCloseSettle (pos : Position.t) (closeAmount : Q)
  : Position.t :=
  Position.setPartial pos closeAmount.

(** Two iterations on one entry, the second fired while the first awaits
    its partial-close order: both run up to their order on the shared
    entry, then the first order resolves and its iteration settles, then
    the second.  [None] when one of the two does not reach a partial-close
    order. *)
Definition overlappedTicks (s : Settings) (price1 price2 : Q)
    (pos : Position.t) : option Position.t :=
  match monitorPrefix s pos price1 with
  | (pA, None) =>
      match partialCloseOrder s pA with
      | Some closeAmount1 =>
          match monitorPrefix s pA price2 with
          | (pB, None) =>
              match partialCloseOrder s pB with
              | Some closeAmount2 =>
                  Some (partialCloseSettle
                          (partialCloseSettle pB closeAmount1) closeAmount2)
              | None => None
              end
          | (_, Some _) => None
          end
      | None => None
      end
  | (_, Some _) => None
  end.

(** ** Vocabulary for the lifecycle properties *)

(** Quantity, stop and one-shot flag are the same in [p] and [p']. *)
Definition sameStake (p p' : Position.t) : Prop :=
  Position.amount p' = Position.amount p /\
  Position.stopLoss p' = Position.stopLoss p /\
  Position.partialClosed p' = Position.partialClosed p.

(** [p'] is [p] after the one partial close: the flag goes from clear to
    set, the stop becomes the entry price, the quantity loses the
    configured share. *)
Definition partiallyClosed (s : Settings) (p p' : Position.t) : Prop :=
  Position.partialClosed p = false /\
  Position.partialClosed p' = true /\
  Position.stopLoss p' = Position.entryPrice p /\
  Position.amount p' =
    Position.amount p
    - Position.amount p * (futures_partial_close_amount s / 100).

(** [b] is at least as favourable a stop as [a] for the direction. *)
Definition noLooser (d : Direction) (a b : Q) : Prop :=
  match d with
  | long => a <= b
  | short => b <= a
  end.

(** The new entry of a scan: it was opened at [now] for a coin of the list
    whose analysis gave its direction and its score, and the score reached
    the configured minimum. *)
Definition openedByScan (now : Z) (s : Settings)
    (coins : list (string * Feed.t)) (k : string) (p : Position.t) : Prop :=
  exists feed timeframes,
    In (k, feed) coins /\
    Feed.analysis feed = Some timeframes /\
    SignalScore.direction (calculateSignalScore timeframes)
      = Some (Position.direction p) /\
    Position.score p = SignalScore.score (calculateSignalScore timeframes) /\
    futures_min_signal_score s <= inject_Z (Position.score p) /\
    Position.openedAt p = now.

(** The fields of an entry that identify the trade: they are written by
    [openPosition] only. *)
Definition sameTrade (p p' : Position.t) : Prop :=
  Position.symbol p' = Position.symbol p /\
  Position.direction p' = Position.direction p /\
  Position.entryPrice p' = Position.entryPrice p /\
  Position.leverage p' = Position.leverage p /\
  Position.leverageMode p' = Position.leverageMode p /\
  Position.takeProfit p' = Position.takeProfit p /\
  Position.score p' = Position.score p /\
  Position.margin p' = Position.margin p /\
  Position.positionValue p' = Position.positionValue p /\
  Position.openedAt p' = Position.openedAt p.

(** The price and P&L marks are the same in [p] and [p']. *)
Definition sameMark (p p' : Position.t) : Prop :=
  Position.currentPrice p' = Position.currentPrice p /\
  Position.pnl p' = Position.pnl p /\
  Position.pnlPct p' = Position.pnlPct p.

(** The signed price move of an entry up to [price], per unit. *)
Definition move (p : Position.t) (price : Q) : Q :=
  match Position.direction p with
  | long => price - Position.entryPrice p
  | short => Position.entryPrice p - price
  end.

End Engine.

(* ================================================================== *)
(** ** risk-manager.js: the advisory helpers of RiskManager *)

Module RiskTools.

(** [calculateTrailingStop(currentPrice, direction, activatePct = 2,
    distancePct = 1.5)]; [activatePct] is not read. *)
Definition calculateTrailingStop (currentPrice : Q) (direction : Direction)
    (distancePct : Q) : Q :=
  let distance := currentPrice * (distancePct / 100) in
  match direction with
  | long => currentPrice - distance
  | short => currentPrice + distance
  end.

(** The fields of [getTradeStats()] that [kellyOptimalSize] reads:
    [winRate] and [profitFactor] are what [parseFloat] makes of them
    ([None] for NaN, as for the string ['N/A']). *)
Record TradeStats : Type := mkTradeStats {
  winRate : option Q;
  profitFactor : option Q;
  totalTrades : Z
}.

(** [kellyOptimalSize(balance)] on the statistics [getTradeStats()]
    returned. *)
Definition kellyOptimalSize (stats : TradeStats) (balance : Q) : Q :=
  let winRate :=
    orDefault (option_map (fun w => w / 100) (winRate stats)) 0.5 in
  let profitFactor := orDefault (profitFactor stats) 1 in
  if Qleb profitFactor 0 || (totalTrades stats <? 10)%Z then balance * 0.03
  else
    let lossRate := 1 - winRate in
    let kelly := winRate - lossRate / profitFactor in
    let halfKelly := Qmax 0 (Qmin (kelly / 2) 0.1) in
    balance * halfKelly.

(** The P&L amounts a sequence of calls records, summed, and how many
    there are. *)
Fixpoint recordedPnL (calls : list (Z * Risk.Call)) : Q :=
  match calls with
  | [] => 0
  | (_, Risk.RecordPnL pnl) :: rest => pnl + recordedPnL rest
  | (_, Risk.CanTrade _) :: rest => recordedPnL rest
  end.

Fixpoint recordedTrades (calls : list (Z * Risk.Call)) : nat :=
  match calls with
  | [] => 0%nat
  | (_, Risk.RecordPnL _) :: rest => S (recordedTrades rest)
  | (_, Risk.CanTrade _) :: rest => recordedTrades rest
  end.

End RiskTools.

(* ================================================================== *)
(** * Properties *)

(** ** Comparisons and truthiness *)

Lemma Qltb_true_iff (a b : Q) : Qltb a b = true <-> a < b.
Proof.
  unfold Qltb. rewrite negb_true_iff.
  split; intro H.
  - apply Qnot_le_lt. intro Hle. apply Qle_bool_iff in Hle. congruence.
  - destruct (Qle_bool b a) eqn:E; [|reflexivity].
    apply Qle_bool_iff in E. exfalso. apply (Qlt_not_le _ _ H E).
Qed.

Lemma Qltb_false_iff (a b : Q) : Qltb a b = false <-> b <= a.
Proof.
  unfold Qltb. rewrite negb_false_iff. apply Qle_bool_iff.
Qed.

Lemma Qgtb_true_iff (a b : Q) : Qgtb a b = true <-> b < a.
Proof. apply Qltb_true_iff. Qed.

Lemma Qgtb_false_iff (a b : Q) : Qgtb a b = false <-> a <= b.
Proof. apply Qltb_false_iff. Qed.

Lemma Qleb_true_iff (a b : Q) : Qleb a b = true <-> a <= b.
Proof. apply Qle_bool_iff. Qed.

Lemma Qleb_false_iff (a b : Q) : Qleb a b = false <-> b < a.
Proof.
  unfold Qleb. split; intro H.
  - apply Qnot_le_lt. intro Hle. apply Qle_bool_iff in Hle. congruence.
  - destruct (Qle_bool a b) eqn:E; [|reflexivity].
    apply Qle_bool_iff in E. exfalso. apply (Qlt_not_le _ _ H E).
Qed.

Lemma Qgeb_true_iff (a b : Q) : Qgeb a b = true <-> b <= a.
Proof. apply Qle_bool_iff. Qed.

Lemma Qgeb_false_iff (a b : Q) : Qgeb a b = false <-> a < b.
Proof. apply Qleb_false_iff. Qed.

Lemma truthyQ_true_iff (a : Q) : truthyQ a = true <-> ~ a == 0.
Proof.
  unfold truthyQ. rewrite negb_true_iff. split; intro H.
  - intro E. apply Qeq_bool_iff in E. congruence.
  - destruct (Qeq_bool a 0) eqn:E; [|reflexivity].
    apply Qeq_bool_iff in E. contradiction.
Qed.

Lemma truthyQ_false_iff (a : Q) : truthyQ a = false <-> a == 0.
Proof.
  unfold truthyQ. rewrite negb_false_iff. apply Qeq_bool_iff.
Qed.

Lemma orNull_zero (a : Q) : a == 0 -> orNull (Some a) = None.
Proof.
  intro H. unfold orNull. apply truthyQ_false_iff in H. now rewrite H.
Qed.

Lemma Qmin_le_r_eq (a b : Q) : a <= b -> Qmin a b = a.
Proof.
  intro H. unfold Qmin, GenericMinMax.gmin.
  destruct (a ?= b) eqn:E; try reflexivity.
  apply Qgt_alt in E. exfalso. apply (Qlt_not_le _ _ E H).
Qed.

Lemma Qmin_gt_l_eq (a b : Q) : b < a -> Qmin a b = b.
Proof.
  intro H. unfold Qmin, GenericMinMax.gmin.
  apply Qgt_alt in H. now rewrite H.
Qed.

(** ** The settings rows other than the lock *)

Lemma sameConfig_refl (s : Settings) : sameConfig s s.
Proof. reflexivity. Qed.

Lemma sameConfig_trans (a b c : Settings) :
  sameConfig a b -> sameConfig b c -> sameConfig a c.
Proof. unfold sameConfig. congruence. Qed.

Lemma sameConfig_setLock (s : Settings) (l : bool) (u : option Z) :
  sameConfig (setLock s l u) s.
Proof. reflexivity. Qed.

Lemma sameConfig_sym (a b : Settings) : sameConfig a b -> sameConfig b a.
Proof. unfold sameConfig. congruence. Qed.

(** A function of the numeric rows takes the same value on two stores that
    agree on them. *)
Lemma sameConfig_proj {A : Type} (f : Settings -> A) (a b : Settings) :
  (forall s, f s = f (setLock s false None)) ->
  sameConfig a b -> f a = f b.
Proof.
  intros Hf H. rewrite (Hf a), (Hf b). unfold sameConfig in H. now rewrite H.
Qed.

(** ** The position map *)

Lemma mapGet_mapSet_same m k v : Engine.mapGet (Engine.mapSet m k v) k = Some v.
Proof.
  induction m as [|[k' v'] m IH]; simpl.
  - now rewrite String.eqb_refl.
  - destruct (String.eqb k' k) eqn:E; simpl; rewrite E; auto.
Qed.

Lemma mapGet_mapSet_other m k k' v :
  k <> k' -> Engine.mapGet (Engine.mapSet m k v) k' = Engine.mapGet m k'.
Proof.
  intro Hne. induction m as [|[k0 v0] m IH]; simpl.
  - destruct (String.eqb k k') eqn:E; [apply String.eqb_eq in E; contradiction|reflexivity].
  - destruct (String.eqb k0 k) eqn:E; simpl.
    + apply String.eqb_eq in E. subst k0.
      destruct (String.eqb k k') eqn:E'; [apply String.eqb_eq in E'; contradiction|reflexivity].
    + now rewrite IH.
Qed.

Lemma mapGet_mapDelete_same m k : Engine.mapGet (Engine.mapDelete m k) k = None.
Proof.
  unfold Engine.mapDelete.
  induction m as [|[k' v'] m IH]; simpl; [reflexivity|].
  destruct (String.eqb k' k) eqn:E; simpl; [assumption|].
  now rewrite E.
Qed.

Lemma mapGet_mapDelete_other m k k' :
  k <> k' -> Engine.mapGet (Engine.mapDelete m k) k' = Engine.mapGet m k'.
Proof.
  intro Hne. unfold Engine.mapDelete.
  induction m as [|[k0 v0] m IH]; simpl; [reflexivity|].
  destruct (String.eqb k0 k) eqn:E; simpl.
  - apply String.eqb_eq in E. subst k0.
    destruct (String.eqb k k') eqn:E'; [apply String.eqb_eq in E'; contradiction|assumption].
  - now rewrite IH.
Qed.

(** ** Leverage tiers *)

(** C3.  For every score and every numeric ATR%: [determineLeverage] answers
    with the boosted tier (mode GÜVEN, leverage [min(4, max_leverage)], which
    is 4x whenever the configured maximum is at least 4) exactly when
    [score >= 9] and [atrPct < 2]; with the 2x high-volatility tier whenever
    [atrPct > 3], whatever the score; and with the configured default
    leverage in every other case. *)
Theorem determineLeverage_decision_table
    (s : Settings) (score : Z) (atrPct : Q) :
  let boosted :=
    Leverage.mk (Qmin 4 (futures_max_leverage s)) Leverage.GUVEN_4x in
  let floorTier := Leverage.mk 2 Leverage.Normal_2x_YuksekVolatilite in
  let dflt :=
    Leverage.mk (futures_default_leverage s)
      (Leverage.Normal (futures_default_leverage s)) in
  let d := Engine.determineLeverage s score (Some atrPct) in
  (d = boosted <-> (9 <= score)%Z /\ atrPct < 2) /\
  (3 < atrPct -> d = floorTier) /\
  (~ ((9 <= score)%Z /\ atrPct < 2) -> ~ 3 < atrPct -> d = dflt) /\
  (4 <= futures_max_leverage s -> boosted = Leverage.mk 4 Leverage.GUVEN_4x).
Proof.
  cbv zeta. unfold Engine.determineLeverage, Engine.notNullAnd.
  destruct (9 <=? score)%Z eqn:Hs; simpl.
  - apply Z.leb_le in Hs.
    destruct (Qltb atrPct 2) eqn:Ha.
    + apply Qltb_true_iff in Ha.
      repeat split; auto.
      * intro H3. exfalso. lra.
      * intros Hn. exfalso. apply Hn. split; assumption.
      * intro H4. now rewrite Qmin_le_r_eq.
    + apply Qltb_false_iff in Ha.
      destruct (Qgtb atrPct 3) eqn:Hb.
      * repeat split; try discriminate.
        -- intros [_ H]. exfalso. lra.
        -- intros _ Hn. exfalso. apply Hn. now apply Qgtb_true_iff.
        -- intro H4. now rewrite Qmin_le_r_eq.
      * apply Qgtb_false_iff in Hb.
        repeat split; try discriminate.
        -- intros [_ H]. exfalso. lra.
        -- intro H. exfalso. lra.
        -- intro H4. now rewrite Qmin_le_r_eq.
  - apply Z.leb_gt in Hs.
    destruct (Qgtb atrPct 3) eqn:Hb.
    + repeat split; try discriminate.
      * intros [H _]. exfalso. lia.
      * intros _ Hn. exfalso. apply Hn. now apply Qgtb_true_iff.
      * intro H4. now rewrite Qmin_le_r_eq.
    + apply Qgtb_false_iff in Hb.
      repeat split; try discriminate.
      * intros [H _]. exfalso. lia.
      * intro H. exfalso. lra.
      * intro H4. now rewrite Qmin_le_r_eq.
Qed.

(** The table at the shipped settings: 4x for (9, 1%), 2x for (10, 3.5%),
    the default for (8, 1%) and for (9, 2.5%). *)
Lemma determineLeverage_decision_table_witness :
  Engine.determineLeverage Db.defaults 9 (Some 1)
    = Leverage.mk 4 Leverage.GUVEN_4x /\
  Engine.determineLeverage Db.defaults 10 (Some 3.5)
    = Leverage.mk 2 Leverage.Normal_2x_YuksekVolatilite /\
  Engine.determineLeverage Db.defaults 9 (Some 2.5)
    = Leverage.mk 2 (Leverage.Normal 2).
Proof.
  split; [|split].
  - destruct (determineLeverage_decision_table Db.defaults 9 1)
      as [[_ Hb] [_ [_ H4]]].
    rewrite Hb.
    + apply H4. vm_compute. discriminate.
    + split; [lia | reflexivity].
  - destruct (determineLeverage_decision_table Db.defaults 10 3.5)
      as [_ [Hf _]].
    apply Hf. reflexivity.
  - destruct (determineLeverage_decision_table Db.defaults 9 2.5)
      as [_ [_ [Hd _]]].
    apply Hd.
    + intros [_ H]. vm_compute in H. discriminate.
    + intro H. vm_compute in H. discriminate.
Defined.

(** ** The risk manager never writes a numeric row *)

Lemma checkDayReset_config now st :
  sameConfig (fst (Risk.checkDayReset now st)) (fst st).
Proof.
  destruct st as [s rm]. unfold Risk.checkDayReset.
  destruct (Z.eqb _ _); [reflexivity|].
  destruct (bot_locked s); [|reflexivity].
  destruct (bot_lock_until s) as [l|]; [|reflexivity].
  destruct (Z.leb l now); reflexivity.
Qed.

Lemma canTrade_config now ctx st :
  sameConfig (fst (snd (Risk.canTrade now ctx st))) (fst st).
Proof.
  unfold Risk.canTrade.
  pose proof (checkDayReset_config now st) as H.
  destruct (Risk.checkDayReset now st) as [s rm]. simpl in H.
  destruct (bot_locked s); [exact H|].
  destruct (Qltb _ _); [exact H|].
  destruct (Risk.marginTooHigh s ctx); [exact H|].
  destruct (Risk.rrTooLow s ctx); exact H.
Qed.

Lemma recordPnL_config now pnl st :
  sameConfig (fst (Risk.recordPnL now pnl st)) (fst st).
Proof.
  destruct st as [s rm]. unfold Risk.recordPnL.
  destruct (Qltb _ _); reflexivity.
Qed.

Lemma determineLeverage_config a b score atrPct :
  sameConfig a b ->
  Engine.determineLeverage a score atrPct = Engine.determineLeverage b score atrPct.
Proof.
  apply (sameConfig_proj (fun s => Engine.determineLeverage s score atrPct)).
  reflexivity.
Qed.

(** ** What [openPosition] can do to the position map *)

(** Either the map is left as it was, or the gate [canTrade()] answered
    [true], the sizing succeeded, the order was placed, and one entry built
    from the leverage, stop/target and sizing results is stored. *)
Lemma openPosition_cases now g symbol direction score ind st :
  let st' := Engine.openPosition now g symbol direction score ind st in
  let s1 := fst st' in
  sameConfig s1 (fst st) /\
  (Engine.positions (snd st') = Engine.positions (snd st) \/
   exists entryPrice sizing,
     fst (Risk.canTrade now Risk.noContext
            (fst st, Engine.riskManager (snd st))) = true /\
     Indicators.price ind = Some entryPrice /\
     ~ entryPrice == 0 /\
     let lev :=
       Engine.determineLeverage s1 score (orNull (Indicators.atrPct ind)) in
     let sltp :=
       Engine.calculateSLTP s1 direction entryPrice
         (orDefault (Indicators.atr ind) 0) (Indicators.bollinger ind) in
     Engine.calculatePositionSize s1 (Engine.getBalance s1 g) entryPrice
       (SLTP.stopLoss sltp) (Leverage.leverage lev) = Some sizing /\
     Sizing.margin sizing <= Engine.getBalance s1 g * 0.5 /\
     Gateway.orderPlaced g = true /\
     Engine.positions (snd st') =
       Engine.mapSet (Engine.positions (snd st)) symbol
         (Position.mk symbol direction entryPrice entryPrice
            (Sizing.amount sizing) (Leverage.leverage lev)
            (Leverage.mode lev) (SLTP.stopLoss sltp) (SLTP.takeProfit sltp)
            false None false score (Sizing.margin sizing)
            (Sizing.positionValue sizing) now 0 0)).
Proof.
  destruct st as [s e]. cbv zeta. unfold Engine.openPosition.
  pose proof (canTrade_config now Risk.noContext (s, Engine.riskManager e)) as Hc.
  destruct (Risk.canTrade now Risk.noContext (s, Engine.riskManager e))
    as [allowed [s1 rm1]] eqn:Hgate.
  simpl in Hc. simpl fst.
  destruct allowed; simpl negb; cbv iota; [|split; [exact Hc|left; reflexivity]].
  destruct (Indicators.price ind) as [entryPrice|] eqn:Hp;
    [|split; [exact Hc|left; reflexivity]].
  destruct (truthyQ entryPrice) eqn:Ht; simpl negb; cbv iota;
    [|split; [exact Hc|left; reflexivity]].
  destruct (Engine.calculatePositionSize _ _ _ _ _) as [sizing|] eqn:Hsz;
    [|split; [exact Hc|left; reflexivity]].
  destruct (Qgtb (Sizing.margin sizing) _) eqn:Hm;
    [split; [exact Hc|left; reflexivity]|].
  destruct (Gateway.orderPlaced g) eqn:Ho; simpl negb; cbv iota;
    [|split; [exact Hc|left; reflexivity]].
  split; [exact Hc|]. right. exists entryPrice, sizing. simpl.
  split; [now rewrite Hgate|].
  split; [reflexivity|].
  split; [now apply truthyQ_true_iff|].
  split; [exact Hsz|].
  split; [now apply Qgtb_false_iff in Hm|].
  split; reflexivity.
Qed.

(** C10.  With a missing ATR% [determineLeverage] answers with the
    configured default tier for every score.  Both callers turn an ATR% of
    exactly zero into [null] first, so a zero-ATR snapshot gets the default
    tier as well, whatever the score: in the report of [analyzeOnly] and in
    every entry [openPosition] stores. *)
Theorem missing_atrPct_gives_default_leverage
    (s : Settings) (score : Z) (ind : Indicators.t) :
  Indicators.atrPct ind = None \/
    (exists a, Indicators.atrPct ind = Some a /\ a == 0) ->
  let dflt := futures_default_leverage s in
  Engine.determineLeverage s score None
    = Leverage.mk dflt (Leverage.Normal dflt) /\
  (forall g direction,
     let r := Engine.analyzeOnly s g score direction ind in
     Engine.an_leverage r = dflt /\
     Engine.an_leverageMode r = Leverage.Normal dflt /\
     Engine.an_atrPct r = None) /\
  (forall now g symbol direction e p,
     Engine.mapGet (Engine.positions e) symbol = None ->
     Engine.mapGet
       (Engine.positions
          (snd (Engine.openPosition now g symbol direction score ind (s, e))))
       symbol = Some p ->
     Position.leverage p = dflt /\
     Position.leverageMode p = Leverage.Normal dflt).
Proof.
  intros Hatr dflt.
  assert (Hnull : orNull (Indicators.atrPct ind) = None).
  { destruct Hatr as [H | [a [H Ha]]]; rewrite H; [reflexivity|].
    now apply orNull_zero. }
  assert (Hd : forall s', Engine.determineLeverage s' score None
             = Leverage.mk (futures_default_leverage s')
                 (Leverage.Normal (futures_default_leverage s'))).
  { intro s'. unfold Engine.determineLeverage, Engine.notNullAnd.
    now rewrite andb_false_r. }
  split; [apply Hd|]. split.
  - intros g direction r. subst r. unfold Engine.analyzeOnly.
    rewrite Hnull, Hd.
    destruct direction as [d|]; destruct (Indicators.price ind) as [entry|];
      try destruct (truthyQ entry); simpl; auto.
  - intros now g symbol direction e p Hfree Hget.
    pose proof (openPosition_cases now g symbol direction score ind (s, e))
      as H. cbv zeta in H.
    remember (Engine.openPosition now g symbol direction score ind (s, e))
      as st' eqn:Est. clear Est.
    destruct H as [Hcfg [Hsame | (entry & sizing & _ & _ & _ & _ & _ & _ & Hpos)]].
    + rewrite Hsame in Hget. simpl in Hget. congruence.
    + rewrite Hpos in Hget.
      rewrite mapGet_mapSet_same in Hget. injection Hget as <-.
      cbn [Position.leverage Position.leverageMode].
      rewrite Hnull, Hd. cbn [Leverage.leverage Leverage.mode fst] in *.
      assert (Hf : futures_default_leverage (fst st')
                   = futures_default_leverage s).
      { apply (sameConfig_proj futures_default_leverage); auto. }
      rewrite Hf. split; reflexivity.
Qed.

(** A snapshot with [atr = 0] and [atrPct = 0] at score 10, shipped
    settings: the default 2x, not the boosted tier. *)
Lemma missing_atrPct_gives_default_leverage_witness :
  Engine.determineLeverage Db.defaults 10 None
    = Leverage.mk 2 (Leverage.Normal 2) /\
  Engine.an_leverage
    (Engine.analyzeOnly Db.defaults (Gateway.mk None None None) 10 (Some long)
       (Indicators.mk (Some 100) (Some 0) (Some 0) None)) = 2.
Proof.
  destruct (missing_atrPct_gives_default_leverage Db.defaults 10
              (Indicators.mk (Some 100) (Some 0) (Some 0) None))
    as [H1 [H2 _]].
  - right. exists 0. split; reflexivity.
  - split; [exact H1|].
    exact (proj1 (H2 (Gateway.mk None None None) (Some long))).
Defined.

(** ** Position sizing *)

(** The sizing arithmetic of the worked example, by margin cap. *)
Lemma worked_example_margin (r : Q) :
  r == 3 ->
  100 * (r / 100) == 3 /\
  100 * (r / 100) / (Qabs (50000 - 49000) / 50000) / 2 == 75.
Proof.
  intro Hr. split; rewrite Hr; reflexivity.
Qed.

(** C4, as the code computes it.  With balance 100, entry 50000, stop 49000,
    risk 3% and leverage 2 the risk budget is 3 and the uncapped margin is
    75.  When [risk.max_margin_usage_pct] is at least 75 the result is
    notional 150, margin 75, quantity 0.003.  When it is lower the margin is
    capped at [balance * max_margin_usage_pct / 100] and notional and
    quantity are recomputed from the capped margin. *)
Theorem calculatePositionSize_worked_example (s : Settings) :
  risk_max_position_risk_pct s == 3 ->
  let cap := risk_max_margin_usage_pct s in
  exists z,
    Engine.calculatePositionSize s 100 50000 49000 2 = Some z /\
    Sizing.riskUSD z == 3 /\
    (75 <= cap ->
       Sizing.positionValue z == 150 /\ Sizing.margin z == 75 /\
       Sizing.amount z == 0.003) /\
    (cap <= 75 ->
       Sizing.margin z == cap /\ Sizing.positionValue z == 2 * cap /\
       Sizing.amount z == 2 * cap / 50000).
Proof.
  intros Hr cap.
  destruct (worked_example_margin _ Hr) as [Hrisk Hmargin].
  unfold Engine.calculatePositionSize.
  replace (Qeq_bool (Qabs (50000 - 49000) / 50000) 0) with false
    by reflexivity.
  eexists. split; [reflexivity|].
  cbn [Sizing.riskUSD Sizing.positionValue Sizing.margin Sizing.amount].
  fold cap.
  assert (Hcap : 100 * (cap / 100) == cap) by field.
  split; [exact Hrisk|]. split.
  - intro H75.
    assert (Hmin : Qmin (100 * (risk_max_position_risk_pct s / 100)
                         / (Qabs (50000 - 49000) / 50000) / 2)
                        (100 * (cap / 100)) == 75).
    { rewrite Q.min_l; [exact Hmargin|]. rewrite Hmargin, Hcap. exact H75. }
    rewrite Hmin. repeat split; reflexivity.
  - intro H75.
    assert (Hmin : Qmin (100 * (risk_max_position_risk_pct s / 100)
                         / (Qabs (50000 - 49000) / 50000) / 2)
                        (100 * (cap / 100)) == cap).
    { rewrite Q.min_r; [exact Hcap|]. rewrite Hmargin, Hcap. exact H75. }
    rewrite Hmin. repeat split; try reflexivity; field.
Qed.

(** The example with the cap raised to 75%, and with the shipped 50% cap. *)
Lemma calculatePositionSize_worked_example_witness :
  (exists z,
     Engine.calculatePositionSize
       (mkSettings 10 3 2 75 2.5 2 4 7 2 1.5 4 50 false None 100)
       100 50000 49000 2 = Some z /\
     Sizing.riskUSD z == 3 /\ Sizing.positionValue z == 150 /\
     Sizing.margin z == 75 /\ Sizing.amount z == 0.003).
Proof.
  destruct (calculatePositionSize_worked_example
              (mkSettings 10 3 2 75 2.5 2 4 7 2 1.5 4 50 false None 100))
    as [z [Hz [Hrisk [Hhi _]]]].
  - reflexivity.
  - exists z. split; [exact Hz|]. split; [exact Hrisk|].
    apply Hhi. vm_compute. discriminate.
Defined.

(** C4 as stated fails at the shipped settings
    ([risk.max_margin_usage_pct = 50]): the margin is capped at 50, so the
    returned notional is 100 and the quantity 0.002, not 150 and 0.003. *)
Lemma calculatePositionSize_default_cap_counterexample :
  exists z,
    Engine.calculatePositionSize Db.defaults 100 50000 49000 2 = Some z /\
    Sizing.riskUSD z == 3 /\
    Sizing.margin z == 50 /\
    Sizing.positionValue z == 100 /\
    Sizing.amount z == 0.002 /\
    ~ Sizing.positionValue z == 150 /\
    ~ Sizing.amount z == 0.003.
Proof.
  eexists. split; [vm_compute; reflexivity|].
  repeat split; try reflexivity; intro H; vm_compute in H; discriminate.
Qed.

(** ** Stop and target *)

Lemma Qabs_pos_of_neq (x : Q) : ~ x == 0 -> 0 < Qabs x.
Proof.
  intro H. apply Qabs_case; intro Hx.
  - destruct (Qle_lt_or_eq _ _ Hx) as [Hlt | Heq]; [exact Hlt|].
    exfalso. apply H. now symmetry.
  - destruct (Qle_lt_or_eq _ _ Hx) as [Hlt | Heq]; [lra|].
    exfalso. apply H. exact Heq.
Qed.

Lemma jsdiv_nonzero (a b : Q) : ~ b == 0 -> jsdiv a b = Some (a / b).
Proof.
  intro H. unfold jsdiv.
  destruct (Qeq_bool b 0) eqn:E; [|reflexivity].
  apply Qeq_bool_iff in E. contradiction.
Qed.

(** The reward:risk check never touches the stop. *)
Lemma enforceMinRR_stopLoss s direction entryPrice candidate :
  SLTP.stopLoss (Engine.enforceMinRR s direction entryPrice candidate)
  = fst candidate.
Proof. destruct candidate. reflexivity. Qed.

(** C5, as the code computes it.  The stop returned by [calculateSLTP] is
    always the stop that stood before the reward:risk check.  Whenever that
    stop differs from the entry price, the returned pair has a reward:risk
    ratio of at least [risk.min_rr_ratio], and the check only ever moves the
    target away from the entry, never towards it. *)
Theorem calculateSLTP_reward_risk_floor
    (s : Settings) (direction : Direction) (entryPrice atr : Q)
    (bollinger : option Bollinger.t) :
  let candidate := Engine.candidateSLTP direction entryPrice atr bollinger in
  let r := Engine.calculateSLTP s direction entryPrice atr bollinger in
  ~ fst candidate == entryPrice ->
  SLTP.stopLoss r = fst candidate /\
  Qabs (entryPrice - snd candidate) <= Qabs (entryPrice - SLTP.takeProfit r) /\
  exists rr,
    SLTP.rrRatio r = Some rr /\
    rr == Qabs (entryPrice - SLTP.takeProfit r)
          / Qabs (entryPrice - SLTP.stopLoss r) /\
    risk_min_rr_ratio s <= rr.
Proof.
  intros candidate r Hne. subst r. unfold Engine.calculateSLTP.
  fold candidate. destruct candidate as [sl tp]. simpl fst in *. simpl snd.
  split; [reflexivity|].
  assert (Hsl : 0 < Qabs (entryPrice - sl)).
  { apply Qabs_pos_of_neq. intro H. apply Hne. lra. }
  assert (Hsl0 : ~ Qabs (entryPrice - sl) == 0) by lra.
  unfold Engine.enforceMinRR.
  cbn [SLTP.stopLoss SLTP.takeProfit SLTP.rrRatio].
  rewrite (jsdiv_nonzero _ _ Hsl0).
  assert (Hg : Qgtb (Qabs (entryPrice - sl)) 0 = true)
    by now apply Qgtb_true_iff.
  rewrite Hg.
  set (slDist := Qabs (entryPrice - sl)) in *.
  set (tpDist := Qabs (entryPrice - tp)) in *.
  set (minRR := risk_min_rr_ratio s) in *.
  assert (Htp : 0 <= tpDist) by apply Qabs_nonneg.
  assert (Hq : tpDist == (tpDist / slDist) * slDist) by (field; exact Hsl0).
  assert (Hq0 : 0 <= tpDist / slDist).
  { apply Qle_shift_div_l; [exact Hsl|]. lra. }
  destruct (Qltb (tpDist / slDist) minRR) eqn:Hlt.
  - apply Qltb_true_iff in Hlt.
    assert (Hadj : Qabs (entryPrice - match direction with
                                      | long => entryPrice + slDist * minRR
                                      | short => entryPrice - slDist * minRR
                                      end) == slDist * minRR).
    { assert (Hnn : 0 <= slDist * minRR) by nra.
      destruct direction.
      - setoid_replace (entryPrice - (entryPrice + slDist * minRR))
          with (- (slDist * minRR)) by ring.
        rewrite Qabs_opp. now apply Qabs_pos.
      - setoid_replace (entryPrice - (entryPrice - slDist * minRR))
          with (slDist * minRR) by ring.
        now apply Qabs_pos. }
    split.
    + rewrite Hadj. nra.
    + eexists. split; [reflexivity|]. split; [reflexivity|].
      rewrite Hadj.
      setoid_replace (slDist * minRR / slDist) with minRR
        by (field; exact Hsl0).
      apply Qle_refl.
  - apply Qltb_false_iff in Hlt.
    split; [apply Qle_refl|].
    eexists. split; [reflexivity|]. split; [reflexivity|]. exact Hlt.
Qed.

(** A long at 100 with ATR 1: stop 98.5, target widened from 107 only if
    needed; here the ratio is already 7 / 1.5. *)
Lemma calculateSLTP_reward_risk_floor_witness :
  exists rr,
    SLTP.rrRatio (Engine.calculateSLTP Db.defaults long 100 1 None) = Some rr /\
    risk_min_rr_ratio Db.defaults <= rr.
Proof.
  destruct (calculateSLTP_reward_risk_floor Db.defaults long 100 1 None)
    as [_ [_ [rr [Hrr [_ Hfloor]]]]].
  - vm_compute. discriminate.
  - exists rr. split; assumption.
Defined.

(** C5 as stated fails when the stop distance is zero.  With a missing ATR
    (passed as 0 by both callers) the stop is the entry price itself; the
    adjusted target is the entry price too and the returned ratio is 0/0. *)
Lemma calculateSLTP_zero_atr_counterexample :
  let r := Engine.calculateSLTP Db.defaults long 100 0 None in
  SLTP.stopLoss r == 100 /\
  SLTP.takeProfit r == 100 /\
  SLTP.rrRatio r = None /\
  ~ (exists rr, SLTP.rrRatio r = Some rr /\ risk_min_rr_ratio Db.defaults <= rr).
Proof.
  cbv zeta. repeat split.
  intros [rr [H _]]. vm_compute in H. discriminate.
Qed.

(** A pair whose stop is the entry price is never sized: no position is
    opened on it. *)
Lemma calculatePositionSize_rejects_zero_stop s balance entryPrice stopLoss lev :
  stopLoss == entryPrice ->
  Engine.calculatePositionSize s balance entryPrice stopLoss lev = None.
Proof.
  intro H. unfold Engine.calculatePositionSize.
  assert (E : Qeq_bool (Qabs (entryPrice - stopLoss) / entryPrice) 0 = true).
  { apply Qeq_bool_iff.
    assert (E0 : entryPrice - stopLoss == 0) by (rewrite H; ring).
    rewrite E0. reflexivity. }
  now rewrite E.
Qed.

(** ** The admission gate *)

Lemma marginTooHigh_config a b c :
  sameConfig a b -> Risk.marginTooHigh a c = Risk.marginTooHigh b c.
Proof.
  apply (sameConfig_proj (fun s => Risk.marginTooHigh s c)). reflexivity.
Qed.

Lemma rrTooLow_config a b c :
  sameConfig a b -> Risk.rrTooLow a c = Risk.rrTooLow b c.
Proof.
  apply (sameConfig_proj (fun s => Risk.rrTooLow s c)). reflexivity.
Qed.

(** A lock that has not expired survives the day check. *)
Lemma checkDayReset_keeps_lock now s rm :
  bot_locked s = true ->
  (forall L, bot_lock_until s = Some L -> (now < L)%Z) ->
  fst (Risk.checkDayReset now (s, rm)) = s.
Proof.
  intros Hl Hu. unfold Risk.checkDayReset.
  destruct (Z.eqb _ _); [reflexivity|].
  rewrite Hl. destruct (bot_lock_until s) as [L|] eqn:E; [|reflexivity].
  specialize (Hu L eq_refl).
  destruct (Z.leb L now) eqn:E'; [|reflexivity].
  apply Z.leb_le in E'. lia.
Qed.





(** ** The daily circuit breaker *)

Lemma dayOf_mono (a b : Z) : (a <= b)%Z -> (dayOf a <= dayOf b)%Z.
Proof.
  intro H. unfold dayOf, msPerDay. apply Z.div_le_mono; lia.
Qed.

Lemma dayOf_before_nextMidnight (t0 t : Z) :
  (t < nextMidnight t0)%Z -> (dayOf t <= dayOf t0)%Z.
Proof.
  unfold nextMidnight. intro H.
  assert (dayOf t < dayOf t0 + 1)%Z; [|lia].
  unfold dayOf at 1. apply Z.div_lt_upper_bound; [unfold msPerDay; lia|].
  lia.
Qed.

Lemma dayOf_from_nextMidnight (t0 t : Z) :
  (nextMidnight t0 <= t)%Z -> (dayOf t0 < dayOf t)%Z.
Proof.
  unfold nextMidnight. intro H.
  assert (dayOf t0 + 1 <= dayOf t)%Z; [|lia].
  unfold dayOf at 2. apply Z.div_le_lower_bound; [unfold msPerDay; lia|].
  lia.
Qed.

Lemma dayOf_same_day (t0 t : Z) :
  (t0 <= t < nextMidnight t0)%Z -> dayOf t = dayOf t0.
Proof.
  intros [H1 H2]. apply dayOf_mono in H1.
  apply dayOf_before_nextMidnight in H2. lia.
Qed.

Section Breaker.

Variable s0 : Settings.
Variable t0 : Z.


Lemma recordPnL_trips now pnl s rm :
  Risk.dailyPnL rm + pnl
    < - (bot_initial_balance s * (risk_max_daily_loss_pct s / 100)) ->
  fst (Risk.recordPnL now pnl (s, rm))
    = setLock s true (Some (nextMidnight now)) /\
  Risk.currentDay (snd (Risk.recordPnL now pnl (s, rm)))
    = Risk.currentDay rm.
Proof.
  intro H. unfold Risk.recordPnL.
  apply Qltb_true_iff in H. rewrite H. split; reflexivity.
Qed.

Lemma canTrade_while_tripped now ctx st :
  Risk.trippedAt s0 t0 st -> (t0 <= now < (nextMidnight t0))%Z ->
  fst (Risk.canTrade now ctx st) = false /\
  Risk.trippedAt s0 t0 (snd (Risk.canTrade now ctx st)).
Proof.
  intros (Hl & Hu & Hd & Hc) Hnow. destruct st as [s rm]. simpl in *.
  assert (Hkeep : fst (Risk.checkDayReset now (s, rm)) = s).
  { apply checkDayReset_keeps_lock; [exact Hl|].
    intros L' HL'. rewrite Hu in HL'. injection HL' as <-. lia. }
  assert (Hday : (Risk.currentDay (snd (Risk.checkDayReset now (s, rm)))
                  <= dayOf t0)%Z).
  { unfold Risk.checkDayReset.
    destruct (Z.eqb _ _); [exact Hd|].
    rewrite Hl, Hu.
    destruct (Z.leb (nextMidnight t0) now); simpl; rewrite (dayOf_same_day t0 now Hnow); lia. }
  unfold Risk.canTrade.
  destruct (Risk.checkDayReset now (s, rm)) as [s1 rm1].
  simpl in Hkeep, Hday. subst s1. rewrite Hl. simpl.
  repeat split; assumption.
Qed.

Lemma recordPnL_while_tripped now pnl st :
  Risk.trippedAt s0 t0 st -> (t0 <= now < (nextMidnight t0))%Z ->
  Risk.trippedAt s0 t0 (Risk.recordPnL now pnl st).
Proof.
  intros (Hl & Hu & Hd & Hc) Hnow. destruct st as [s rm]. simpl in *.
  unfold Risk.recordPnL.
  destruct (Qltb _ _); unfold Risk.trippedAt; simpl.
  - unfold nextMidnight. rewrite (dayOf_same_day t0 now Hnow).
    repeat split; auto.
  - repeat split; auto.
Qed.

Lemma run_while_tripped calls :
  forall st,
    Risk.trippedAt s0 t0 st ->
    Forall (fun c => (t0 <= fst c < (nextMidnight t0))%Z) calls ->
    Forall (fun answer => answer = false) (fst (Risk.run calls st)) /\
    Risk.trippedAt s0 t0 (snd (Risk.run calls st)).
Proof.
  induction calls as [|[now c] calls IH]; intros st Hst Hall.
  - simpl. split; [constructor|exact Hst].
  - inversion Hall as [|? ? Hnow Hrest]; subst. simpl in Hnow.
    destruct c as [ctx | pnl]; simpl.
    + destruct (canTrade_while_tripped now ctx st Hst Hnow) as [Ha Hst1].
      destruct (Risk.canTrade now ctx st) as [answer st1]. simpl in Ha, Hst1.
      destruct (IH st1 Hst1 Hrest) as [Has Hst2].
      destruct (Risk.run calls st1) as [answers st2]. simpl in *.
      split; [constructor; assumption|exact Hst2].
    + apply IH; [|exact Hrest].
      now apply recordPnL_while_tripped.
Qed.

Lemma canTrade_after_expiry now ctx st :
  Risk.trippedAt s0 t0 st -> ((nextMidnight t0) <= now)%Z -> Risk.qualifies s0 ctx ->
  fst (Risk.canTrade now ctx st) = true /\
  bot_locked (fst (snd (Risk.canTrade now ctx st))) = false.
Proof.
  intros (Hl & Hu & Hd & Hc) Hnow (Hq1 & Hq2 & Hq3).
  destruct st as [s rm]. simpl in *.
  pose proof (dayOf_from_nextMidnight t0 now Hnow) as Hlt.
  assert (Hreset : Risk.checkDayReset now (s, rm)
                   = (setLock s false None,
                      Risk.withDaily rm 0 0%nat (dayOf now))).
  { unfold Risk.checkDayReset.
    destruct (Z.eqb (dayOf now) (Risk.currentDay rm)) eqn:E.
    - apply Z.eqb_eq in E. lia.
    - rewrite Hl, Hu.
      destruct (Z.leb (nextMidnight t0) now) eqn:E'; [reflexivity|].
      apply Z.leb_gt in E'. lia. }
  unfold Risk.canTrade. rewrite Hreset.
  cbn [bot_locked setLock].
  assert (Hc' : sameConfig (setLock s false None) s0)
    by (eapply sameConfig_trans; [apply sameConfig_setLock|exact Hc]).
  rewrite (marginTooHigh_config _ _ ctx Hc'), Hq2.
  rewrite (rrTooLow_config _ _ ctx Hc'), Hq3.
  assert (Hloss :
    Qltb (Risk.dailyPnL (Risk.withDaily rm 0 0%nat (dayOf now)))
      (- (orDefault (Risk.balance ctx)
            (bot_initial_balance (setLock s false None))
          * (risk_max_daily_loss_pct (setLock s false None) / 100)))
    = false).
  { apply Qltb_false_iff. cbn [Risk.dailyPnL Risk.withDaily].
    assert (E1 : bot_initial_balance (setLock s false None)
                 = bot_initial_balance s0)
      by (apply (sameConfig_proj bot_initial_balance); auto).
    assert (E2 : risk_max_daily_loss_pct (setLock s false None)
                 = risk_max_daily_loss_pct s0)
      by (apply (sameConfig_proj risk_max_daily_loss_pct); auto).
    rewrite E1, E2. lra. }
  rewrite Hloss. split; reflexivity.
Qed.

End Breaker.

(** The gate trips the breaker itself when it finds the limit breached. *)
Lemma canTrade_trips now ctx s rm :
  bot_locked s = false ->
  dayOf now = Risk.currentDay rm ->
  Risk.dailyPnL rm
    < - (orDefault (Risk.balance ctx) (bot_initial_balance s)
         * (risk_max_daily_loss_pct s / 100)) ->
  fst (Risk.canTrade now ctx (s, rm)) = false /\
  Risk.trippedAt s now (snd (Risk.canTrade now ctx (s, rm))).
Proof.
  intros Hl Hday Hbreach. unfold Risk.canTrade, Risk.checkDayReset.
  rewrite Hday, Z.eqb_refl, Hl.
  apply Qltb_true_iff in Hbreach. rewrite Hbreach.
  split; [reflexivity|]. unfold Risk.trippedAt. simpl.
  repeat split; auto. lia.
Qed.

(** The breaker while nothing is booked after midnight.  When [recordPnL]
    takes the daily P&L below [-(balance * max_daily_loss_pct / 100)] on
    a store that takes the write, [bot.locked] is set and
    [bot.lock_until] is the next local midnight.  From then on every
    [canTrade] call made before that instant answers [false], whatever
    its context and whatever [recordPnL] calls come in between; if every
    call up to then was made before that instant, the first [canTrade]
    call at or after it, made with a context that passes the other
    checks, answers [true] and leaves the bot unlocked. *)
Theorem circuit_breaker_until_expiry
    (s : Settings) (rm : Risk.RiskManager) (t0 : Z) (pnl : Q)
    (calls : list (Z * Risk.Call)) (tN : Z) (ctx : Risk.TradeConfig) :
  (Risk.currentDay rm <= dayOf t0)%Z ->
  Risk.dailyPnL rm + pnl
    < - (bot_initial_balance s * (risk_max_daily_loss_pct s / 100)) ->
  Forall (fun c => (t0 <= fst c < nextMidnight t0)%Z) calls ->
  (nextMidnight t0 <= tN)%Z ->
  Risk.qualifies s ctx ->
  let tripped := Risk.recordPnL t0 pnl (s, rm) in
  let during := Risk.run calls tripped in
  let resumed := Risk.canTrade tN ctx (snd during) in
  bot_locked (fst tripped) = true /\
  bot_lock_until (fst tripped) = Some (nextMidnight t0) /\
  Forall (fun answer => answer = false) (fst during) /\
  fst resumed = true /\
  bot_locked (fst (snd resumed)) = false.
Proof.
  intros Hday Hcross Hcalls Hexp Hq. cbv zeta.
  destruct (recordPnL_trips t0 pnl s rm Hcross) as [Hs Hd].
  assert (Htrip : Risk.trippedAt s t0 (Risk.recordPnL t0 pnl (s, rm))).
  { unfold Risk.trippedAt. rewrite Hs, Hd. simpl.
    repeat split; auto. }
  destruct (run_while_tripped s t0 calls _ Htrip Hcalls) as [Hans Hst].
  destruct (canTrade_after_expiry s t0 tN ctx _ Hst Hexp Hq) as [Hr Hu].
  rewrite Hs. simpl. repeat split; assumption.
Qed.

(** A loss of 11 on a balance of 100 at 00:00:01 of day 0; a full-context
    call, a winning trade and a context-free call later that day; then the
    first call of day 1. *)
Lemma circuit_breaker_until_expiry_witness :
  let calls :=
    [ (2000%Z, Risk.CanTrade (Risk.mkTradeConfig (Some 100) (Some 10) (Some 3)));
      (3000%Z, Risk.RecordPnL 5);
      (86399999%Z, Risk.CanTrade Risk.noContext) ] in
  let tripped := Risk.recordPnL 1000 (-11) (Db.defaults, Risk.create 0) in
  bot_lock_until (fst tripped) = Some 86400000%Z /\
  fst (Risk.run calls tripped) = [false; false] /\
  fst (Risk.canTrade 86400000 Risk.noContext (snd (Risk.run calls tripped)))
    = true.
Proof.
  cbv zeta.
  destruct (circuit_breaker_until_expiry Db.defaults (Risk.create 0) 1000 (-11)
              [ (2000%Z, Risk.CanTrade
                           (Risk.mkTradeConfig (Some 100) (Some 10) (Some 3)));
                (3000%Z, Risk.RecordPnL 5);
                (86399999%Z, Risk.CanTrade Risk.noContext) ]
              86400000 Risk.noContext)
    as (_ & Hu & _ & Hr & _).
  - vm_compute. discriminate.
  - reflexivity.
  - repeat constructor; vm_compute; congruence.
  - vm_compute. discriminate.
  - repeat split. vm_compute. discriminate.
  - split; [exact Hu|]. split; [reflexivity|exact Hr].
Defined.

(** C2.  The breaker does not always let go at expiry.  [recordPnL] adds
    to [dailyPnL] without the day check that [canTrade] starts with.  A
    fresh manager on the default settings loses 11 at 00:00:01 of day 0:
    the breaker trips until midnight, and a qualifying [canTrade] at
    00:01:00 of day 1 would be admitted.  But when a trade of +0.5 is
    booked at 00:00:05 of day 1, before any [canTrade] of that day, it is
    added to the -11 of the day before; -10.5 is still below the limit of
    10, the lock is written again, now until the midnight that ends day 1,
    and the same [canTrade] at 00:01:00, past the expiry of the first
    lock, answers [false], as does every call for the rest of day 1. *)
Theorem stale_daily_pnl_relocks_after_midnight :
  let ctx := Risk.mkTradeConfig (Some 100) (Some 10) (Some 3) in
  let tripped := Risk.recordPnL 1000 (-11) (Db.defaults, Risk.create 0) in
  let booked := Risk.recordPnL 86405000 0.5 tripped in
  Risk.qualifies Db.defaults ctx /\
  bot_locked (fst tripped) = true /\
  bot_lock_until (fst tripped) = Some 86400000%Z /\
  fst (Risk.canTrade 86460000 ctx tripped) = true /\
  Risk.dailyPnL (snd booked) == -10.5 /\
  bot_locked (fst booked) = true /\
  bot_lock_until (fst booked) = Some 172800000%Z /\
  fst (Risk.canTrade 86460000 ctx booked) = false /\
  fst (Risk.canTrade 172799999 ctx booked) = false.
Proof.
  cbv zeta. split.
  { repeat split. vm_compute. discriminate. }
  repeat split; vm_compute; reflexivity.
Qed.

(** ** One monitor iteration on one entry *)

(** The fields each block of the loop body leaves alone. *)
Lemma markToMarket_frame p cur :
  let p' := Engine.markToMarket p cur in
  Position.direction p' = Position.direction p /\
  Position.entryPrice p' = Position.entryPrice p /\
  Position.amount p' = Position.amount p /\
  Position.stopLoss p' = Position.stopLoss p /\
  Position.partialClosed p' = Position.partialClosed p /\
  Position.trailingStopActive p' = Position.trailingStopActive p /\
  Position.trailingStopPrice p' = Position.trailingStopPrice p.
Proof.
  unfold Engine.markToMarket. destruct (Position.direction p) eqn:E;
    cbn; rewrite ?E; repeat split.
Qed.

Lemma activateTrailing_frame s p cur :
  let p' := Engine.activateTrailing s p cur in
  Position.direction p' = Position.direction p /\
  Position.entryPrice p' = Position.entryPrice p /\
  Position.amount p' = Position.amount p /\
  Position.stopLoss p' = Position.stopLoss p /\
  Position.partialClosed p' = Position.partialClosed p /\
  Position.pnlPct p' = Position.pnlPct p.
Proof.
  unfold Engine.activateTrailing.
  destruct (_ && _); cbn; repeat split.
Qed.

Lemma ratchetTrailing_frame s p cur :
  let p' := Engine.ratchetTrailing s p cur in
  Position.direction p' = Position.direction p /\
  Position.entryPrice p' = Position.entryPrice p /\
  Position.amount p' = Position.amount p /\
  Position.stopLoss p' = Position.stopLoss p /\
  Position.partialClosed p' = Position.partialClosed p /\
  Position.pnlPct p' = Position.pnlPct p /\
  Position.trailingStopActive p' = Position.trailingStopActive p.
Proof.
  unfold Engine.ratchetTrailing.
  destruct (Position.direction p) eqn:E;
    match goal with |- context [if ?c then _ else _] => destruct c end;
    cbn; rewrite ?E; repeat split.
Qed.

Lemma partialClose_frame s g p :
  let p' := Engine.partialClose s g p in
  Position.direction p' = Position.direction p /\
  Position.entryPrice p' = Position.entryPrice p /\
  Position.pnlPct p' = Position.pnlPct p /\
  Position.trailingStopActive p' = Position.trailingStopActive p /\
  Position.trailingStopPrice p' = Position.trailingStopPrice p.
Proof.
  unfold Engine.partialClose.
  destruct (_ && _); [destruct (Gateway.orderPlaced g)|]; cbn; repeat split.
Qed.

(** The partial-profit block either leaves quantity, stop and flag as they
    are, or it performs the one partial close, the order having gone
    through at a P&L at or above the threshold. *)
Lemma partialClose_cases s g p :
  let p' := Engine.partialClose s g p in
  Engine.sameStake p p' \/
  (Engine.partiallyClosed s p p' /\
   Gateway.orderPlaced g = true /\
   futures_partial_close_pct s <= Position.pnlPct p).
Proof.
  unfold Engine.partialClose, Engine.sameStake, Engine.partiallyClosed.
  destruct (Qgeb _ _ && negb _) eqn:E; [|left; repeat split].
  destruct (Gateway.orderPlaced g) eqn:Ho; [|left; repeat split].
  apply andb_true_iff in E. destruct E as [E1 E2].
  apply negb_true_iff in E2. apply Qgeb_true_iff in E1.
  right. cbn. repeat split; assumption.
Qed.

Lemma sameStake_via p q :
  Position.amount q = Position.amount p ->
  Position.stopLoss q = Position.stopLoss p ->
  Position.partialClosed q = Position.partialClosed p ->
  Engine.sameStake p q.
Proof. intros. repeat split; assumption. Qed.

(** The same alternative for a whole iteration, which never changes the
    direction or the entry price. *)
Lemma monitorPosition_cases s g p :
  let p' := fst (Engine.monitorPosition s g p) in
  Position.direction p' = Position.direction p /\
  Position.entryPrice p' = Position.entryPrice p /\
  (Engine.sameStake p p' \/
   (Engine.partiallyClosed s p p' /\
    Gateway.orderPlaced g = true /\
    futures_partial_close_pct s <= Position.pnlPct p' /\
    snd (Engine.monitorPosition s g p) = None)).
Proof.
  cbv zeta. unfold Engine.monitorPosition.
  destruct (Gateway.tickerLast g) as [cur|];
    [|simpl; split; [|split; [|left; apply sameStake_via]]; reflexivity].
  destruct (negb (truthyQ cur));
    [simpl; split; [|split; [|left; apply sameStake_via]]; reflexivity|].
  destruct (markToMarket_frame p cur) as (Hd1 & He1 & Ha1 & Hs1 & Hp1 & _).
  set (p1 := Engine.markToMarket p cur) in *.
  destruct (Engine.hitSL p1 cur);
    [simpl; split; [|split; [|left; apply sameStake_via]]; assumption|].
  destruct (Engine.hitTP p1 cur);
    [simpl; split; [|split; [|left; apply sameStake_via]]; assumption|].
  destruct (activateTrailing_frame s p1 cur) as (Hd2 & He2 & Ha2 & Hs2 & Hp2 & _).
  set (p2 := Engine.activateTrailing s p1 cur) in *.
  assert (Hpart : forall q,
            Position.direction q = Position.direction p ->
            Position.entryPrice q = Position.entryPrice p ->
            Engine.sameStake p q ->
            let r := Engine.partialClose s g q in
            Position.direction r = Position.direction p /\
            Position.entryPrice r = Position.entryPrice p /\
            (Engine.sameStake p r \/
             (Engine.partiallyClosed s p r /\
              Gateway.orderPlaced g = true /\
              futures_partial_close_pct s <= Position.pnlPct r /\
              @None CloseReason = None))).
  { intros q Hd He (Ha & Hs & Hp) r. subst r.
    destruct (partialClose_frame s g q) as (Hd4 & He4 & Hpp4 & _).
    split; [congruence|]. split; [congruence|].
    destruct (partialClose_cases s g q)
      as [(Ha' & Hs' & Hp') | ((Hq & Hq' & Hsq & Haq) & Ho & Hpct)].
    - left. repeat split; congruence.
    - right. split; [|split; [exact Ho|split; [now rewrite Hpp4|reflexivity]]].
      repeat split; congruence. }
  destruct (Position.trailingStopActive p2).
  - destruct (ratchetTrailing_frame s p2 cur)
      as (Hd3 & He3 & Ha3 & Hs3 & Hp3 & _).
    set (p3 := Engine.ratchetTrailing s p2 cur) in *.
    destruct (Engine.hitTrailing p3 cur).
    + simpl. split; [congruence|]. split; [congruence|].
      left. apply sameStake_via; congruence.
    + simpl. apply Hpart; [congruence|congruence|].
      apply sameStake_via; congruence.
  - simpl. apply Hpart; [congruence|congruence|].
    apply sameStake_via; congruence.
Qed.

(** ** Runs of monitor iterations *)

Lemma afterTicks_cons tick ticks p :
  Engine.afterTicks (tick :: ticks) p
  = Engine.afterTicks ticks
      (fst (Engine.monitorPosition (fst tick) (snd tick) p)).
Proof. reflexivity. Qed.

Lemma sameStake_trans p q r :
  Engine.sameStake p q -> Engine.sameStake q r -> Engine.sameStake p r.
Proof.
  intros (A1 & S1 & F1) (A2 & S2 & F2). repeat split; congruence.
Qed.

Lemma afterTicks_frame ticks :
  forall p,
    Position.direction (Engine.afterTicks ticks p) = Position.direction p /\
    Position.entryPrice (Engine.afterTicks ticks p) = Position.entryPrice p.
Proof.
  induction ticks as [|[s g] ticks IH]; intro p; [split; reflexivity|].
  rewrite afterTicks_cons. simpl fst. simpl snd.
  destruct (monitorPosition_cases s g p) as (Hd & He & _).
  destruct (IH (fst (Engine.monitorPosition s g p))) as [Hd' He'].
  split; congruence.
Qed.

(** Once the flag is set, no iteration changes quantity, stop or flag. *)
Lemma flag_set_freezes_stake ticks :
  forall p,
    Position.partialClosed p = true ->
    Engine.sameStake p (Engine.afterTicks ticks p).
Proof.
  induction ticks as [|[s g] ticks IH]; intros p Hp.
  - repeat split.
  - rewrite afterTicks_cons. simpl fst. simpl snd.
    destruct (monitorPosition_cases s g p)
      as (_ & _ & [Hsame | ((Hclear & _) & _)]); [|congruence].
    eapply sameStake_trans; [exact Hsame|].
    apply IH. destruct Hsame as (_ & _ & Hf). congruence.
Qed.

(** From an entry whose flag is clear, a run of iterations leaves quantity
    and stop either as they were or changed by exactly one partial close,
    made with the settings of one of the iterations. *)
Lemma afterTicks_one_shot
    (ticks : list (Settings * Gateway.t)) (p : Position.t) :
  let p' := Engine.afterTicks ticks p in
  (Position.partialClosed p = true -> Engine.sameStake p p') /\
  (Position.partialClosed p = false ->
   Engine.sameStake p p' \/
   exists s, In s (map fst ticks) /\ Engine.partiallyClosed s p p').
Proof.
  cbv zeta. split; [apply flag_set_freezes_stake|].
  revert p. induction ticks as [|[s g] ticks IH]; intros p Hp.
  - left. repeat split.
  - rewrite afterTicks_cons. simpl fst. simpl snd.
    destruct (monitorPosition_cases s g p)
      as (Hd & He & [Hsame | ((Hclear & Hset & Hstop & Hamt) & _)]).
    + destruct Hsame as (Ha & Hs & Hf).
      destruct (IH (fst (Engine.monitorPosition s g p)))
        as [(Ha' & Hs' & Hf') | (s' & Hin & Hc' & Hset' & Hstop' & Hamt')];
        [congruence| |].
      * left. repeat split; congruence.
      * right. exists s'. split; [right; exact Hin|].
        repeat split; congruence.
    + right. exists s. split; [left; reflexivity|].
      destruct (flag_set_freezes_stake ticks _ Hset) as (Ha' & Hs' & Hf').
      repeat split; congruence.
Qed.


(** ** Trailing stop *)

Lemma noLooser_refl d a : Engine.noLooser d a a.
Proof. destruct d; apply Qle_refl. Qed.

Lemma noLooser_trans d a b c :
  Engine.noLooser d a b -> Engine.noLooser d b c -> Engine.noLooser d a c.
Proof.
  destruct d; simpl; intros H1 H2; eapply Qle_trans; eassumption.
Qed.

(** The ratchet keeps the trailing stop or replaces it by the candidate at
    the configured distance from the current price, and it does the latter
    only when the candidate is strictly beyond the trailing stop. *)
Lemma ratchetTrailing_cases s p cur t :
  Position.trailingStopPrice p = Some t ->
  let p' := Engine.ratchetTrailing s p cur in
  let distance := cur * (futures_trailing_stop_distance_pct s / 100) in
  Position.trailingStopPrice p' = Some t \/
  match Position.direction p with
  | long =>
      Position.trailingStopPrice p' = Some (cur - distance) /\
      t < cur - distance
  | short =>
      Position.trailingStopPrice p' = Some (cur + distance) /\
      cur + distance < t
  end.
Proof.
  intro Ht. cbv zeta. unfold Engine.ratchetTrailing, Position.tslValue.
  rewrite Ht.
  destruct (Position.direction p).
  - destruct (Qgtb _ t) eqn:E; [|left; exact Ht].
    right. split; [reflexivity|now apply Qgtb_true_iff].
  - destruct (Qltb _ t) eqn:E; [|left; exact Ht].
    right. split; [reflexivity|now apply Qltb_true_iff].
Qed.

Lemma activateTrailing_when_active s p cur :
  Position.trailingStopActive p = true ->
  Engine.activateTrailing s p cur = p.
Proof.
  intro H. unfold Engine.activateTrailing. rewrite H.
  now rewrite andb_false_r.
Qed.

(** One iteration on an entry whose trailing stop is active at [t]. *)
Lemma monitorPosition_trailing s g p t :
  Position.trailingStopActive p = true ->
  Position.trailingStopPrice p = Some t ->
  let p' := fst (Engine.monitorPosition s g p) in
  Position.trailingStopActive p' = true /\
  (Position.trailingStopPrice p' = Some t \/
   exists cur,
     Gateway.tickerLast g = Some cur /\
     let distance := cur * (futures_trailing_stop_distance_pct s / 100) in
     match Position.direction p with
     | long =>
         Position.trailingStopPrice p' = Some (cur - distance) /\
         t < cur - distance
     | short =>
         Position.trailingStopPrice p' = Some (cur + distance) /\
         cur + distance < t
     end).
Proof.
  intros Hact Ht. cbv zeta. unfold Engine.monitorPosition.
  destruct (Gateway.tickerLast g) as [cur|]; [|simpl; auto].
  destruct (negb (truthyQ cur)); [simpl; auto|].
  destruct (markToMarket_frame p cur) as (Hd1 & _ & _ & _ & _ & Ha1 & Hp1).
  set (p1 := Engine.markToMarket p cur) in *.
  rewrite Hact in Ha1. rewrite Ht in Hp1.
  destruct (Engine.hitSL p1 cur); [simpl; auto|].
  destruct (Engine.hitTP p1 cur); [simpl; auto|].
  rewrite (activateTrailing_when_active s p1 cur Ha1), Ha1.
  destruct (ratchetTrailing_frame s p1 cur) as (_ & _ & _ & _ & _ & _ & Ha3).
  pose proof (ratchetTrailing_cases s p1 cur t Hp1) as Hr. cbv zeta in Hr.
  rewrite Hd1 in Hr.
  set (p3 := Engine.ratchetTrailing s p1 cur) in *.
  assert (Hgoal :
    Position.trailingStopActive p3 = true /\
    (Position.trailingStopPrice p3 = Some t \/
     exists cur0,
       Some cur = Some cur0 /\
       match Position.direction p with
       | long =>
           Position.trailingStopPrice p3
             = Some (cur0 - cur0 * (futures_trailing_stop_distance_pct s / 100)) /\
           t < cur0 - cur0 * (futures_trailing_stop_distance_pct s / 100)
       | short =>
           Position.trailingStopPrice p3
             = Some (cur0 + cur0 * (futures_trailing_stop_distance_pct s / 100)) /\
           cur0 + cur0 * (futures_trailing_stop_distance_pct s / 100) < t
       end)).
  { split; [congruence|].
    destruct Hr as [Hr | Hr]; [left; exact Hr|].
    right. exists cur. split; [reflexivity|exact Hr]. }
  destruct (Engine.hitTrailing p3 cur); [exact Hgoal|].
  simpl fst.
  destruct (partialClose_frame s g p3) as (_ & _ & _ & Ha4 & Hp4).
  rewrite Ha4, Hp4. exact Hgoal.
Qed.

(** Over a run of iterations an active trailing stop stays active and
    moves only in the favourable direction. *)
Lemma afterTicks_trailing ticks :
  forall p t,
    Position.trailingStopActive p = true ->
    Position.trailingStopPrice p = Some t ->
    Position.trailingStopActive (Engine.afterTicks ticks p) = true /\
    exists t',
      Position.trailingStopPrice (Engine.afterTicks ticks p) = Some t' /\
      Engine.noLooser (Position.direction p) t t'.
Proof.
  induction ticks as [|[s g] ticks IH]; intros p t Hact Ht.
  - simpl. split; [exact Hact|]. exists t. split; [exact Ht|].
    apply noLooser_refl.
  - rewrite afterTicks_cons. simpl fst. simpl snd.
    destruct (monitorPosition_trailing s g p t Hact Ht) as [Hact1 Hstep].
    destruct (monitorPosition_cases s g p) as (Hd & _).
    set (p1 := fst (Engine.monitorPosition s g p)) in *.
    assert (H1 : exists t1, Position.trailingStopPrice p1 = Some t1 /\
                            Engine.noLooser (Position.direction p) t t1).
    { destruct Hstep as [Hk | (cur & _ & Hr)].
      - exists t. split; [exact Hk|apply noLooser_refl].
      - cbv zeta in Hr. destruct (Position.direction p);
          destruct Hr as [Hr Hlt]; eexists; (split; [exact Hr|]);
          simpl; apply Qlt_le_weak; exact Hlt. }
    destruct H1 as (t1 & Ht1 & Hle1).
    destruct (IH p1 t1 Hact1 Ht1) as [Hact' (t' & Ht' & Hle')].
    split; [exact Hact'|]. exists t'. split; [exact Ht'|].
    rewrite Hd in Hle'. eapply noLooser_trans; eassumption.
Qed.


(** ** Stop-loss over the life of a position *)

(** From a stop on the loss side of the entry price (at or below it for a
    long, at or above it for a short) no run of iterations loosens the
    stop, and the stop stays on that side. *)
Lemma stop_on_loss_side_never_loosens ticks :
  forall p,
    Engine.noLooser (Position.direction p)
      (Position.stopLoss p) (Position.entryPrice p) ->
    let p' := Engine.afterTicks ticks p in
    Engine.noLooser (Position.direction p)
      (Position.stopLoss p) (Position.stopLoss p') /\
    Engine.noLooser (Position.direction p)
      (Position.stopLoss p') (Position.entryPrice p).
Proof.
  induction ticks as [|[s g] ticks IH]; intros p Hside; cbv zeta.
  - simpl. split; [apply noLooser_refl|exact Hside].
  - rewrite afterTicks_cons. simpl fst. simpl snd.
    destruct (monitorPosition_cases s g p)
      as (Hd & He & [(_ & Hs & _) | ((_ & _ & Hs & _) & _)]);
      set (p1 := fst (Engine.monitorPosition s g p)) in *;
      specialize (IH p1); cbv zeta in IH; rewrite Hd, He, Hs in IH.
    + exact (IH Hside).
    + destruct (IH (noLooser_refl _ _)) as [H1 H2].
      split; [|exact H2].
      eapply noLooser_trans; [exact Hside|exact H1].
Qed.

(** Without Bollinger bands, for a positive entry price and a non-negative
    ATR, the initial stop is on the loss side of the entry price. *)
Lemma calculateSLTP_stop_on_loss_side s direction entryPrice atr :
  0 <= entryPrice -> 0 <= atr ->
  Engine.noLooser direction
    (SLTP.stopLoss (Engine.calculateSLTP s direction entryPrice atr None))
    entryPrice.
Proof.
  intros He Ha. unfold Engine.calculateSLTP.
  rewrite enforceMinRR_stopLoss. unfold Engine.candidateSLTP.
  assert (Hmin : 0 <= Qmin (atr * 1.5) (entryPrice * 0.02)).
  { apply Q.min_glb; lra. }
  destruct direction; simpl; lra.
Qed.

(** C6 at a failing input.  Shipped settings, balance 100.  A long signal
    on a snapshot whose price (100) is below the lower Bollinger band
    (102): [openPosition] stores a long with entry 100 and stop
    102 * 0.998 = 101.796, above the entry.  The next monitor pass sees 105:
    no exit fires, the partial close runs and sets the stop to the entry
    price 100, below the stop the position had. *)
Theorem partial_close_lowers_stop_of_long :
  let ind :=
    Indicators.mk (Some 100) (Some 1) (Some 1)
      (Some (Bollinger.mk 110 106 102 (-1 # 4) false)) in
  let e0 := Engine.mkEngine (Risk.create 0) true [] 0 0 in
  let opened :=
    Engine.openPosition 0 (Gateway.mk None (Some (Some 100)) None)
      "BTC/USDT" long 8 ind (Db.defaults, e0) in
  let monitored :=
    Engine.monitorPositions 5000
      (fun _ => Gateway.mk (Some 105) (Some (Some 100)) None) opened in
  exists p p',
    Engine.mapGet (Engine.positions (snd opened)) "BTC/USDT" = Some p /\
    Engine.mapGet (Engine.positions (snd monitored)) "BTC/USDT" = Some p' /\
    Position.direction p = long /\
    Position.entryPrice p == 100 /\
    Position.stopLoss p == 101.796 /\
    Position.partialClosed p' = true /\
    Position.stopLoss p' == 100 /\
    Position.stopLoss p' < Position.stopLoss p.
Proof.
  cbv zeta. eexists. eexists.
  split; [vm_compute; reflexivity|].
  split; [vm_compute; reflexivity|].
  repeat split.
Qed.

(** ** Closing a position *)

Lemma closePosition_order_fails now g symbol reason closePrice st :
  Gateway.orderPlaced g = false ->
  Engine.closePosition now g symbol reason closePrice st = st.
Proof.
  intro Ho. destruct st as [s e]. unfold Engine.closePosition.
  destruct (Engine.mapGet _ _); [|reflexivity].
  now rewrite Ho.
Qed.

(** [closePosition] either leaves the whole map as it is or deletes the
    entry of [symbol], and it deletes only when no call threw. *)
Lemma closePosition_positions now g symbol reason closePrice s e :
  let st' := Engine.closePosition now g symbol reason closePrice (s, e) in
  Engine.positions (snd st') = Engine.positions e \/
  (Engine.positions (snd st') = Engine.mapDelete (Engine.positions e) symbol /\
   Gateway.fault g = None).
Proof.
  cbv zeta. unfold Engine.closePosition.
  destruct (Engine.mapGet _ _) as [pos|]; [|left; reflexivity].
  unfold Gateway.orderPlaced.
  destruct (Gateway.fault g) as [[ | | ]|]; simpl negb; cbv iota.
  - left. reflexivity.
  - left. reflexivity.
  - destruct (Risk.recordPnL _ _ _) as [s2 rm2]. left. reflexivity.
  - destruct (Risk.recordPnL _ _ _) as [s2 rm2]. right. split; reflexivity.
Qed.

Lemma closePosition_succeeds now g symbol reason closePrice s e pos :
  Engine.mapGet (Engine.positions e) symbol = Some pos ->
  Gateway.fault g = None ->
  Engine.mapGet
    (Engine.positions
       (snd (Engine.closePosition now g symbol reason closePrice (s, e))))
    symbol = None.
Proof.
  intros Hget Hf. unfold Engine.closePosition, Gateway.orderPlaced.
  rewrite Hget, Hf. simpl negb. cbv iota.
  destruct (Risk.recordPnL _ _ _) as [s2 rm2]. simpl.
  apply mapGet_mapDelete_same.
Qed.



Lemma Qltb_irrefl a : Qltb a a = false.
Proof. apply Qltb_false_iff. apply Qle_refl. Qed.



Lemma hitSL_frame p q cur :
  Position.direction q = Position.direction p ->
  Position.stopLoss q = Position.stopLoss p ->
  Engine.hitSL q cur = Engine.hitSL p cur.
Proof. intros Hd Hs. unfold Engine.hitSL. now rewrite Hd, Hs. Qed.

Lemma hitTP_frame p q cur :
  Position.direction q = Position.direction p ->
  Position.takeProfit q = Position.takeProfit p ->
  Engine.hitTP q cur = Engine.hitTP p cur.
Proof. intros Hd Hs. unfold Engine.hitTP. now rewrite Hd, Hs. Qed.



Lemma monitorSymbol_unfold now g symbol s e pos :
  Engine.mapGet (Engine.positions e) symbol = Some pos ->
  Engine.monitorSymbol now g symbol (s, e) =
    let p1 := fst (Engine.monitorPosition s g pos) in
    let st' :=
      (s, Engine.withPositions e (Engine.mapSet (Engine.positions e) symbol p1)) in
    match snd (Engine.monitorPosition s g pos) with
    | Some reason =>
        Engine.closePosition now g symbol reason (Position.currentPrice p1) st'
    | None => st'
    end.
Proof.
  intro H. unfold Engine.monitorSymbol. rewrite H.
  destruct (Engine.monitorPosition s g pos) as [p1 req]. reflexivity.
Qed.


(** ** The monitor pass and its iterations *)

Lemma monitorPosition_config a b g p :
  sameConfig a b ->
  Engine.monitorPosition a g p = Engine.monitorPosition b g p.
Proof.
  apply (sameConfig_proj (fun s => Engine.monitorPosition s g p)).
  reflexivity.
Qed.

Lemma closePosition_config now g symbol reason closePrice st :
  sameConfig (fst (Engine.closePosition now g symbol reason closePrice st))
    (fst st).
Proof.
  destruct st as [s e]. unfold Engine.closePosition.
  destruct (Engine.mapGet _ _); [|reflexivity].
  destruct (negb _); [reflexivity|].
  pose proof (recordPnL_config now
    (match Position.direction t with
     | long => (closePrice - Position.entryPrice t) * Position.amount t
     | short => (Position.entryPrice t - closePrice) * Position.amount t
     end)
    (s, Engine.riskManager
          (Engine.withDailyPnL e
             (Engine.dailyPnL e +
              match Position.direction t with
              | long => (closePrice - Position.entryPrice t) * Position.amount t
              | short => (Position.entryPrice t - closePrice) * Position.amount t
              end)))) as Hc.
  destruct (Gateway.fault g) as [[ | | ]|]; try reflexivity;
    destruct (Risk.recordPnL _ _ _) as [s2 rm2]; simpl in Hc;
    destruct (Qltb _ _); simpl; exact Hc.
Qed.

Lemma monitorSymbol_config now g symbol st :
  sameConfig (fst (Engine.monitorSymbol now g symbol st)) (fst st).
Proof.
  destruct st as [s e]. unfold Engine.monitorSymbol.
  destruct (Engine.mapGet _ _) as [pos|]; [|reflexivity].
  destruct (Engine.monitorPosition s g pos) as [p1 [reason|]]; [|reflexivity].
  apply (closePosition_config now g symbol reason (Position.currentPrice p1)
           (s, Engine.withPositions e
                 (Engine.mapSet (Engine.positions e) symbol p1))).
Qed.

(** Handling one symbol leaves every other entry alone. *)
Lemma monitorSymbol_other now g symbol other st :
  other <> symbol ->
  Engine.mapGet (Engine.positions (snd (Engine.monitorSymbol now g symbol st)))
    other
  = Engine.mapGet (Engine.positions (snd st)) other.
Proof.
  intro Hne. destruct st as [s e]. unfold Engine.monitorSymbol.
  destruct (Engine.mapGet (Engine.positions e) symbol) as [pos|] eqn:Hget;
    [|reflexivity].
  destruct (Engine.monitorPosition s g pos) as [p1 [reason|]].
  - destruct (closePosition_positions now g symbol reason
                (Position.currentPrice p1) s
                (Engine.withPositions e
                   (Engine.mapSet (Engine.positions e) symbol p1)))
      as [Hsame | [Hdel _]].
    + rewrite Hsame. simpl. apply mapGet_mapSet_other. congruence.
    + rewrite Hdel. simpl. rewrite mapGet_mapDelete_other by congruence.
      apply mapGet_mapSet_other. congruence.
  - simpl. apply mapGet_mapSet_other. congruence.
Qed.

(** Handling a symbol leaves its entry as the iteration made it, or
    removes it. *)
Lemma monitorSymbol_self now g symbol s e pos :
  Engine.mapGet (Engine.positions e) symbol = Some pos ->
  let after :=
    Engine.mapGet
      (Engine.positions (snd (Engine.monitorSymbol now g symbol (s, e))))
      symbol in
  after = Some (fst (Engine.monitorPosition s g pos)) \/
  (after = None /\ snd (Engine.monitorPosition s g pos) <> None /\
   Gateway.fault g = None).
Proof.
  intro Hget. cbv zeta.
  rewrite (monitorSymbol_unfold now g symbol s e pos Hget). cbv zeta.
  destruct (Engine.monitorPosition s g pos) as [p1 [reason|]]; cbn [fst snd].
  - destruct (closePosition_positions now g symbol reason
                (Position.currentPrice p1) s
                (Engine.withPositions e
                   (Engine.mapSet (Engine.positions e) symbol p1)))
      as [Hsame | [Hdel Hf]].
    + left. rewrite Hsame. simpl. apply mapGet_mapSet_same.
    + right. rewrite Hdel. split; [apply mapGet_mapDelete_same|].
      split; [discriminate|exact Hf].
  - left. simpl. apply mapGet_mapSet_same.
Qed.

Lemma mapGet_In_keys m k v :
  Engine.mapGet m k = Some v -> In k (map fst m).
Proof.
  induction m as [|[k' v'] m IH]; simpl; [discriminate|].
  destruct (String.eqb k' k) eqn:E.
  - intros _. left. now apply String.eqb_eq.
  - intro H. right. now apply IH.
Qed.

Lemma monitor_fold_config now gw keys :
  forall st,
    sameConfig
      (fst (fold_left
              (fun acc k => Engine.monitorSymbol now (gw k) k acc) keys st))
      (fst st).
Proof.
  induction keys as [|k keys IH]; intro st; simpl; [apply sameConfig_refl|].
  eapply sameConfig_trans; [apply IH|apply monitorSymbol_config].
Qed.

Lemma monitor_fold_other now gw symbol keys :
  forall st,
    ~ In symbol keys ->
    Engine.mapGet
      (Engine.positions
         (snd (fold_left
                 (fun acc k => Engine.monitorSymbol now (gw k) k acc) keys st)))
      symbol
    = Engine.mapGet (Engine.positions (snd st)) symbol.
Proof.
  induction keys as [|k keys IH]; intros st Hnotin; simpl; [reflexivity|].
  rewrite IH by (intro H; apply Hnotin; right; exact H).
  apply monitorSymbol_other. intro E. apply Hnotin. left. now symmetry.
Qed.

(** A pass over [keys], each key once, on the entry of one of them. *)
Lemma monitor_fold_entry now gw symbol keys :
  forall st pos,
    NoDup keys ->
    In symbol keys ->
    Engine.mapGet (Engine.positions (snd st)) symbol = Some pos ->
    let after :=
      Engine.mapGet
        (Engine.positions
           (snd (fold_left
                   (fun acc k => Engine.monitorSymbol now (gw k) k acc)
                   keys st)))
        symbol in
    after = Some (fst (Engine.monitorPosition (fst st) (gw symbol) pos)) \/
    after = None.
Proof.
  induction keys as [|k keys IH]; intros st pos Hnd Hin Hget; cbv zeta;
    [contradiction|].
  inversion Hnd as [|? ? Hnotin Hnd']; subst. simpl fold_left.
  destruct (string_dec k symbol) as [-> | Hne].
  - rewrite (monitor_fold_other now gw symbol keys _ Hnotin).
    destruct st as [s e]. simpl in Hget.
    destruct (monitorSymbol_self now (gw symbol) symbol s e pos Hget)
      as [Hkept | (Hgone & _)]; [left|right]; assumption.
  - destruct Hin as [E | Hin]; [contradiction|].
    assert (Hget1 : Engine.mapGet
              (Engine.positions
                 (snd (Engine.monitorSymbol now (gw k) k st))) symbol
            = Some pos).
    { rewrite monitorSymbol_other by congruence. exact Hget. }
    specialize (IH _ pos Hnd' Hin Hget1). cbv zeta in IH.
    rewrite (monitorPosition_config _ _ (gw symbol) pos
               (monitorSymbol_config now (gw k) k st)) in IH.
    exact IH.
Qed.

(** In one monitor pass of a running engine, the entry of a symbol is
    either removed or left exactly as one iteration of the loop body makes
    it; the per-entry properties above therefore hold pass after pass. *)
Lemma monitorPositions_entry now gw s e symbol pos :
  Engine.running e = true ->
  NoDup (map fst (Engine.positions e)) ->
  Engine.mapGet (Engine.positions e) symbol = Some pos ->
  let after :=
    Engine.mapGet
      (Engine.positions (snd (Engine.monitorPositions now gw (s, e)))) symbol in
  after = Some (fst (Engine.monitorPosition s (gw symbol) pos)) \/
  after = None.
Proof.
  intros Hrun Hnd Hget. cbv zeta. unfold Engine.monitorPositions.
  rewrite Hrun. simpl negb. simpl orb.
  destruct (Nat.eqb (List.length (Engine.positions e)) 0) eqn:E.
  - apply Nat.eqb_eq in E. destruct (Engine.positions e); [discriminate|].
    discriminate.
  - apply (monitor_fold_entry now gw symbol
             (map fst (Engine.positions e)) (s, e) pos Hnd);
      [|exact Hget].
    eapply mapGet_In_keys. exact Hget.
Qed.

(** ** One entry per symbol *)

Lemma mapSet_keys_In m k v x :
  In x (map fst (Engine.mapSet m k v)) <-> In x (map fst m) \/ x = k.
Proof.
  induction m as [|[k' v'] m IH]; simpl.
  - split; [intros [H|[]]; right; now symmetry|intros [[]|H]; left; now symmetry].
  - destruct (String.eqb k' k) eqn:E; simpl.
    + apply String.eqb_eq in E. subst k'. split; [tauto|].
      intros [H|H]; [exact H|left; now symmetry].
    + rewrite IH. tauto.
Qed.

Lemma mapSet_NoDup m k v :
  NoDup (map fst m) -> NoDup (map fst (Engine.mapSet m k v)).
Proof.
  induction m as [|[k' v'] m IH]; simpl; intro H.
  - constructor; [intros []|constructor].
  - inversion H as [|? ? Hnotin Hnd]; subst.
    destruct (String.eqb k' k) eqn:E; simpl.
    + constructor; assumption.
    + constructor; [|now apply IH].
      rewrite mapSet_keys_In. intros [Hin | ->]; [contradiction|].
      rewrite String.eqb_refl in E. discriminate.
Qed.

Lemma mapDelete_NoDup m k :
  NoDup (map fst m) -> NoDup (map fst (Engine.mapDelete m k)).
Proof.
  unfold Engine.mapDelete.
  induction m as [|[k' v'] m IH]; simpl; intro H; [constructor|].
  inversion H as [|? ? Hnotin Hnd]; subst.
  destruct (String.eqb k' k); simpl; [now apply IH|].
  constructor; [|now apply IH].
  intro Hin. apply Hnotin.
  apply in_map_iff in Hin. destruct Hin as [[k0 v0] [Hk Hin]].
  apply filter_In in Hin. destruct Hin as [Hin _].
  apply in_map_iff. exists (k0, v0). split; assumption.
Qed.

(** Opening, closing and monitoring keep one entry per symbol. *)
Lemma openPosition_NoDup now g symbol direction score ind st :
  NoDup (map fst (Engine.positions (snd st))) ->
  NoDup (map fst
           (Engine.positions
              (snd (Engine.openPosition now g symbol direction score ind st)))).
Proof.
  intro H.
  destruct (openPosition_cases now g symbol direction score ind st)
    as [_ [Hsame | (entry & sizing & _ & _ & _ & _ & _ & _ & Hpos)]].
  - now rewrite Hsame.
  - rewrite Hpos. now apply mapSet_NoDup.
Qed.

Lemma closePosition_NoDup now g symbol reason closePrice st :
  NoDup (map fst (Engine.positions (snd st))) ->
  NoDup (map fst
           (Engine.positions
              (snd (Engine.closePosition now g symbol reason closePrice st)))).
Proof.
  intro H. destruct st as [s e].
  destruct (closePosition_positions now g symbol reason closePrice s e)
    as [Hsame | [Hdel _]].
  - now rewrite Hsame.
  - rewrite Hdel. now apply mapDelete_NoDup.
Qed.

Lemma monitorSymbol_NoDup now g symbol st :
  NoDup (map fst (Engine.positions (snd st))) ->
  NoDup (map fst
           (Engine.positions (snd (Engine.monitorSymbol now g symbol st)))).
Proof.
  intro H. destruct st as [s e]. unfold Engine.monitorSymbol.
  destruct (Engine.mapGet _ _) as [pos|]; [|exact H].
  destruct (Engine.monitorPosition s g pos) as [p1 [reason|]].
  - apply closePosition_NoDup. simpl. now apply mapSet_NoDup.
  - simpl. now apply mapSet_NoDup.
Qed.

(** ** Reachable entries

    An entry with trailing active always carries a trailing stop: it is so
    for the entries [openPosition] stores (trailing is off) and every
    iteration keeps it so. *)

Lemma ratchetTrailing_price_set s p cur :
  (exists t, Position.trailingStopPrice p = Some t) ->
  exists t, Position.trailingStopPrice (Engine.ratchetTrailing s p cur) = Some t.
Proof.
  intros [t Ht].
  pose proof (ratchetTrailing_cases s p cur t Ht) as H. cbv zeta in H.
  destruct H as [H | H]; [eauto|].
  destruct (Position.direction p); destruct H as [H _]; eauto.
Qed.

Lemma monitorPosition_keeps_trailing_price s g p :
  (Position.trailingStopActive p = true ->
   exists t, Position.trailingStopPrice p = Some t) ->
  let p' := fst (Engine.monitorPosition s g p) in
  Position.trailingStopActive p' = true ->
  exists t, Position.trailingStopPrice p' = Some t.
Proof.
  intro Hinv. cbv zeta.
  destruct (Position.trailingStopActive p) eqn:Hact.
  - destruct (Hinv eq_refl) as [t Ht]. intros _.
    destruct (monitorPosition_trailing s g p t Hact Ht) as [_ [H | H]];
      [eauto|].
    destruct H as (cur & _ & H). cbv zeta in H.
    destruct (Position.direction p); destruct H as [H _]; eauto.
  - clear Hinv. unfold Engine.monitorPosition.
    destruct (Gateway.tickerLast g) as [cur|]; [|simpl; congruence].
    destruct (negb (truthyQ cur)); [simpl; congruence|].
    destruct (markToMarket_frame p cur) as (_ & _ & _ & _ & _ & Ha1 & _).
    rewrite Hact in Ha1.
    set (p1 := Engine.markToMarket p cur) in *.
    destruct (Engine.hitSL p1 cur); [simpl; congruence|].
    destruct (Engine.hitTP p1 cur); [simpl; congruence|].
    assert (H2 : Position.trailingStopActive
                   (Engine.activateTrailing s p1 cur) = true ->
                 exists t, Position.trailingStopPrice
                             (Engine.activateTrailing s p1 cur) = Some t).
    { unfold Engine.activateTrailing.
      destruct (_ && _); [cbn; eauto|congruence]. }
    set (p2 := Engine.activateTrailing s p1 cur) in *.
    destruct (Position.trailingStopActive p2) eqn:Hact2.
    + pose proof (ratchetTrailing_price_set s p2 cur (H2 eq_refl)) as H3.
      set (p3 := Engine.ratchetTrailing s p2 cur) in *.
      destruct (Engine.hitTrailing p3 cur); [intros _; exact H3|].
      simpl fst.
      destruct (partialClose_frame s g p3) as (_ & _ & _ & _ & Hp4).
      rewrite Hp4. intros _. exact H3.
    + simpl fst.
      destruct (partialClose_frame s g p2) as (_ & _ & _ & Ha4 & _).
      rewrite Ha4. congruence.
Qed.

Lemma afterTicks_keeps_trailing_price ticks :
  forall p,
    (Position.trailingStopActive p = true ->
     exists t, Position.trailingStopPrice p = Some t) ->
    let p' := Engine.afterTicks ticks p in
    Position.trailingStopActive p' = true ->
    exists t, Position.trailingStopPrice p' = Some t.
Proof.
  induction ticks as [|[s g] ticks IH]; intros p Hinv; cbv zeta;
    [exact Hinv|].
  rewrite afterTicks_cons. simpl fst. simpl snd.
  apply IH. exact (monitorPosition_keeps_trailing_price s g p Hinv).
Qed.

(** The entries [openPosition] stores start with trailing off and the
    one-shot flag clear. *)
Lemma openPosition_fresh_entry now g symbol direction score ind st p :
  Engine.mapGet (Engine.positions (snd st)) symbol = None ->
  Engine.mapGet
    (Engine.positions
       (snd (Engine.openPosition now g symbol direction score ind st)))
    symbol = Some p ->
  Position.trailingStopActive p = false /\
  Position.trailingStopPrice p = None /\
  Position.partialClosed p = false /\
  Position.direction p = direction.
Proof.
  intros Hfree Hget.
  destruct (openPosition_cases now g symbol direction score ind st)
    as [_ [Hsame | (entry & sizing & _ & _ & _ & _ & _ & _ & Hpos)]].
  - rewrite Hsame in Hget. congruence.
  - rewrite Hpos, mapGet_mapSet_same in Hget. injection Hget as <-.
    repeat split.
Qed.

(** ** Runs of monitor passes *)

Lemma closePosition_running now g symbol reason closePrice st :
  Engine.running (snd (Engine.closePosition now g symbol reason closePrice st))
  = Engine.running (snd st).
Proof.
  destruct st as [s e]. unfold Engine.closePosition.
  destruct (Engine.mapGet _ _); [|reflexivity].
  destruct (negb _); [reflexivity|].
  destruct (Gateway.fault g) as [[ | | ]|]; try reflexivity;
    destruct (Risk.recordPnL _ _ _) as [s2 rm2]; reflexivity.
Qed.

Lemma monitorSymbol_running now g symbol st :
  Engine.running (snd (Engine.monitorSymbol now g symbol st))
  = Engine.running (snd st).
Proof.
  destruct st as [s e]. unfold Engine.monitorSymbol.
  destruct (Engine.mapGet _ _) as [pos|]; [|reflexivity].
  destruct (Engine.monitorPosition s g pos) as [p1 [reason|]]; [|reflexivity].
  now rewrite closePosition_running.
Qed.

Lemma monitorSymbol_absent now g symbol k st :
  Engine.mapGet (Engine.positions (snd st)) symbol = None ->
  Engine.mapGet (Engine.positions (snd (Engine.monitorSymbol now g k st)))
    symbol = None.
Proof.
  intro Hnone. destruct (string_dec k symbol) as [-> | Hne].
  - destruct st as [s e]. unfold Engine.monitorSymbol.
    simpl in Hnone. now rewrite Hnone.
  - rewrite monitorSymbol_other by congruence. exact Hnone.
Qed.

(** What one pass keeps: the numeric rows, the running flag, one entry per
    symbol, and the absence of an entry. *)
Lemma monitorPositions_keeps now gw st symbol :
  let st' := Engine.monitorPositions now gw st in
  sameConfig (fst st') (fst st) /\
  Engine.running (snd st') = Engine.running (snd st) /\
  (NoDup (map fst (Engine.positions (snd st))) ->
   NoDup (map fst (Engine.positions (snd st')))) /\
  (Engine.mapGet (Engine.positions (snd st)) symbol = None ->
   Engine.mapGet (Engine.positions (snd st')) symbol = None).
Proof.
  cbv zeta. destruct st as [s e]. unfold Engine.monitorPositions.
  destruct (negb (Engine.running e) || _);
    [split; [apply sameConfig_refl|]; auto|].
  generalize (map fst (Engine.positions e)). intro keys.
  generalize (s, e). clear s e.
  induction keys as [|k keys IH]; intro st; simpl;
    [split; [apply sameConfig_refl|]; auto|].
  destruct (IH (Engine.monitorSymbol now (gw k) k st)) as (Hc & Hr & Hn & Ha).
  split; [eapply sameConfig_trans; [exact Hc|apply monitorSymbol_config]|].
  split; [now rewrite Hr, monitorSymbol_running|].
  split.
  - intro H. apply Hn. now apply monitorSymbol_NoDup.
  - intro H. apply Ha. now apply monitorSymbol_absent.
Qed.

Lemma monitorPasses_cons pass passes st :
  Engine.monitorPasses (pass :: passes) st
  = Engine.monitorPasses passes
      (Engine.monitorPositions (fst pass) (snd pass) st).
Proof. reflexivity. Qed.

Lemma monitorPasses_absent symbol passes :
  forall st,
    Engine.mapGet (Engine.positions (snd st)) symbol = None ->
    Engine.mapGet (Engine.positions (snd (Engine.monitorPasses passes st)))
      symbol = None.
Proof.
  induction passes as [|[now gw] passes IH]; intros st Hgone; [exact Hgone|].
  rewrite monitorPasses_cons. apply IH.
  exact (proj2 (proj2 (proj2 (monitorPositions_keeps now gw st symbol))) Hgone).
Qed.

(** Over any run of passes of a running engine, the entry of a symbol is
    either gone or exactly what the loop body makes of it, pass after pass:
    the run of iterations [afterTicks] speaks about. *)
Lemma monitorPasses_entry passes :
  forall s e symbol pos,
    Engine.running e = true ->
    NoDup (map fst (Engine.positions e)) ->
    Engine.mapGet (Engine.positions e) symbol = Some pos ->
    let after :=
      Engine.mapGet
        (Engine.positions (snd (Engine.monitorPasses passes (s, e)))) symbol in
    after = None \/
    after = Some (Engine.afterTicks
                    (map (fun pass => (s, snd pass symbol)) passes) pos).
Proof.
  induction passes as [|[now gw] passes IH];
    intros s e symbol pos Hrun Hnd Hget; cbv zeta.
  - right. exact Hget.
  - rewrite monitorPasses_cons. cbn [fst snd].
    pose proof (monitorPositions_keeps now gw (s, e) symbol) as Hk.
    pose proof (monitorPositions_entry now gw s e symbol pos Hrun Hnd Hget)
      as He.
    cbv zeta in Hk, He.
    destruct (Engine.monitorPositions now gw (s, e)) as [s1 e1].
    cbn [fst snd] in Hk, He. destruct Hk as (Hc & Hr & Hn & Ha).
    destruct He as [Hkept | Hgone].
    + specialize (IH s1 e1 symbol _ (eq_trans Hr Hrun) (Hn Hnd) Hkept).
      cbv zeta in IH. destruct IH as [IH | IH]; [left; exact IH|].
      right. rewrite IH. f_equal. simpl map.
      rewrite afterTicks_cons. simpl fst. simpl snd.
      clear IH. generalize (fst (Engine.monitorPosition s (gw symbol) pos)).
      induction passes as [|[now' gw'] passes IHp]; intro q; [reflexivity|].
      simpl map. rewrite !afterTicks_cons. simpl fst. simpl snd.
      rewrite (monitorPosition_config s1 s (gw' symbol) q Hc).
      apply IHp.
    + left. apply monitorPasses_absent. exact Hgone.
Qed.

(** ** Partial close and trailing stop, pass after pass *)

Lemma passes_ticks_settings (s : Settings) (symbol : string)
    (passes : list (Z * (string -> Gateway.t))) (s' : Settings) :
  In s' (map fst (map (fun pass => (s, snd pass symbol)) passes)) -> s' = s.
Proof.
  rewrite map_map. simpl. intro H.
  apply in_map_iff in H. destruct H as [_ [H _]]. now symmetry.
Qed.

(** Passes that follow one another apply at most one partial close.  Take
    an open position and any run of monitor passes, each finished before
    the next begins (any prices, any order outcomes), after which it is
    still open.  If its flag was clear, its quantity and stop are either
    as they were or changed by one partial close: the quantity reduced
    once by the configured share and the stop set to the entry price
    once, however many passes met the partial-close condition.  If its
    flag was set, the flag is still set and quantity and stop are as they
    were. *)
Theorem partial_close_is_one_shot
    (passes : list (Z * (string -> Gateway.t))) (s : Settings)
    (e : Engine.FuturesEngine) (symbol : string) (pos p' : Position.t) :
  Engine.running e = true ->
  NoDup (map fst (Engine.positions e)) ->
  Engine.mapGet (Engine.positions e) symbol = Some pos ->
  Engine.mapGet (Engine.positions (snd (Engine.monitorPasses passes (s, e))))
    symbol = Some p' ->
  (Position.partialClosed pos = true -> Engine.sameStake pos p') /\
  (Position.partialClosed pos = false ->
   Engine.sameStake pos p' \/ Engine.partiallyClosed s pos p').
Proof.
  intros Hrun Hnd Hget Hafter.
  destruct (monitorPasses_entry passes s e symbol pos Hrun Hnd Hget)
    as [Hgone | Hkept]; [congruence|].
  rewrite Hkept in Hafter. injection Hafter as <-.
  destruct (afterTicks_one_shot
              (map (fun pass => (s, snd pass symbol)) passes) pos)
    as [Hset Hclear].
  split; [exact Hset|].
  intro Hc. destruct (Hclear Hc) as [Hsame | (s' & Hin & Hdone)];
    [left; exact Hsame|].
  right. pose proof (passes_ticks_settings s symbol passes s' Hin) as E.
  subst s'. exact Hdone.
Qed.

(** A long of 1 unit at 100 (2x, stop 98, target 107) seen at 103 in two
    consecutive passes, the reduce-only order going through both times:
    half a unit is left, not a quarter. *)
Lemma partial_close_is_one_shot_witness :
  let pos :=
    Position.mk "BTC/USDT" long 100 100 1 2 (Leverage.Normal 2) 98 107
      false None false 8 50 100 0 0 0 in
  let e := Engine.mkEngine (Risk.create 0) true [("BTC/USDT"%string, pos)] 0 0 in
  let gw := fun _ : string => Gateway.mk (Some 103) (Some (Some 100)) None in
  exists p',
    Engine.mapGet
      (Engine.positions
         (snd (Engine.monitorPasses [(5000%Z, gw); (10000%Z, gw)]
                 (Db.defaults, e))))
      "BTC/USDT" = Some p' /\
    Position.amount p' == 0.5 /\
    (Engine.sameStake pos p' \/ Engine.partiallyClosed Db.defaults pos p').
Proof.
  cbv zeta. eexists. split; [vm_compute; reflexivity|].
  split; [reflexivity|].
  refine (proj2 (partial_close_is_one_shot
                   [(5000%Z, fun _ => Gateway.mk (Some 103) (Some (Some 100)) None);
                    (10000%Z, fun _ => Gateway.mk (Some 103) (Some (Some 100)) None)]
                   Db.defaults
                   (Engine.mkEngine (Risk.create 0) true
                      [("BTC/USDT"%string,
                        Position.mk "BTC/USDT" long 100 100 1 2
                          (Leverage.Normal 2) 98 107 false None false 8 50 100
                          0 0 0)] 0 0)
                   "BTC/USDT" _ _ eq_refl _ eq_refl _) eq_refl).
  - repeat constructor. intros [].
  - vm_compute. reflexivity.
Defined.

(** The atomic iteration in terms of its two halves. *)
Lemma partialClose_split s g pos :
  Engine.partialClose s g pos
  = match Engine.partialCloseOrder s pos with
    | Some closeAmount =>
        if Gateway.orderPlaced g
        then Engine.partialCloseSettle pos closeAmount else pos
    | None => pos
    end.
Proof.
  unfold Engine.partialClose, Engine.partialCloseOrder.
  destruct (_ && _); reflexivity.
Qed.

Lemma monitorPosition_split s g pos cur :
  Gateway.tickerLast g = Some cur -> ~ cur == 0 ->
  Engine.monitorPosition s g pos
  = match Engine.monitorPrefix s pos cur with
    | (p, Some reason) => (p, Some reason)
    | (p, None) => (Engine.partialClose s g p, None)
    end.
Proof.
  intros Ht Hnz. unfold Engine.monitorPosition, Engine.monitorPrefix.
  rewrite Ht.
  assert (E : truthyQ cur = true) by now apply truthyQ_true_iff.
  rewrite E. simpl negb. cbv iota zeta.
  destruct (Engine.hitSL _ cur); [reflexivity|].
  destruct (Engine.hitTP _ cur); [reflexivity|].
  destruct (Position.trailingStopActive _); [|reflexivity].
  destruct (Engine.hitTrailing _ cur); reflexivity.
Qed.

Lemma monitorPrefix_frame s pos cur :
  let p := fst (Engine.monitorPrefix s pos cur) in
  Position.entryPrice p = Position.entryPrice pos /\
  Position.amount p = Position.amount pos /\
  Position.partialClosed p = Position.partialClosed pos.
Proof.
  cbv zeta. unfold Engine.monitorPrefix.
  destruct (markToMarket_frame pos cur) as (_ & Me & Ma & _ & Mf & _).
  set (p1 := Engine.markToMarket pos cur) in *.
  destruct (activateTrailing_frame s p1 cur) as (_ & Ae & Aa & _ & Af & _).
  set (p2 := Engine.activateTrailing s p1 cur) in *.
  destruct (ratchetTrailing_frame s p2 cur) as (_ & Re & Ra & _ & Rf & _).
  destruct (Engine.hitSL p1 cur); [cbn [fst]; repeat split; assumption|].
  destruct (Engine.hitTP p1 cur); [cbn [fst]; repeat split; assumption|].
  destruct (Position.trailingStopActive p2);
    [destruct (Engine.hitTrailing _ cur)|];
    cbn [fst]; repeat split; congruence.
Qed.

Lemma partialCloseOrder_cases s pos closeAmount :
  Engine.partialCloseOrder s pos = Some closeAmount ->
  Position.partialClosed pos = false /\
  futures_partial_close_pct s <= Position.pnlPct pos /\
  closeAmount = Position.amount pos * (futures_partial_close_amount s / 100).
Proof.
  unfold Engine.partialCloseOrder. cbv zeta.
  destruct (Qgeb _ _) eqn:Hp; [|discriminate].
  destruct (Position.partialClosed pos); [discriminate|].
  cbn [negb andb]. intro H. injection H as <-.
  apply Qgeb_true_iff in Hp. repeat split. exact Hp.
Qed.

(** In passes that follow one another the partial close does happen, once:
    the first iteration that reaches the block with the condition met and
    gets its order through takes the configured share off the quantity,
    sets the stop to the entry price and sets the flag; no later
    iteration changes quantity, stop or flag again. *)
Lemma partial_close_fires_then_freezes
    (s : Settings) (g : Gateway.t) (pos : Position.t) (cur closeAmount : Q)
    (ticks : list (Settings * Gateway.t)) :
  Gateway.tickerLast g = Some cur -> ~ cur == 0 ->
  Gateway.orderPlaced g = true ->
  snd (Engine.monitorPrefix s pos cur) = None ->
  Engine.partialCloseOrder s (fst (Engine.monitorPrefix s pos cur))
    = Some closeAmount ->
  let p1 := fst (Engine.monitorPosition s g pos) in
  closeAmount = Position.amount pos * (futures_partial_close_amount s / 100) /\
  Position.partialClosed pos = false /\
  Position.amount p1 = Position.amount pos - closeAmount /\
  Position.stopLoss p1 = Position.entryPrice pos /\
  Position.partialClosed p1 = true /\
  Engine.sameStake p1 (Engine.afterTicks ticks p1).
Proof.
  intros Ht Hnz Ho Hreq Hord. cbv zeta.
  rewrite (monitorPosition_split s g pos cur Ht Hnz).
  destruct (monitorPrefix_frame s pos cur) as (Fe & Fa & Ff).
  destruct (Engine.monitorPrefix s pos cur) as [p r].
  cbn [fst snd] in *. subst r.
  rewrite partialClose_split, Hord, Ho. cbn [fst].
  destruct (partialCloseOrder_cases s p closeAmount Hord) as (Hc & _ & Ha).
  unfold Engine.partialCloseSettle.
  split; [now rewrite Ha, Fa|]. split; [congruence|].
  split; [cbn; now rewrite Fa|]. split; [cbn; exact Fe|].
  split; [reflexivity|].
  apply flag_set_freezes_stake. reflexivity.
Qed.

(** When both of two overlapping iterations reach their order, the
    configured share of the original quantity is taken off twice. *)
Lemma overlappedTicks_amount s price1 price2 pos p' :
  Engine.overlappedTicks s price1 price2 pos = Some p' ->
  Position.partialClosed pos = false /\
  Position.partialClosed p' = true /\
  Position.amount p'
  = Position.amount pos
    - Position.amount pos * (futures_partial_close_amount s / 100)
    - Position.amount pos * (futures_partial_close_amount s / 100).
Proof.
  unfold Engine.overlappedTicks.
  destruct (monitorPrefix_frame s pos price1) as (_ & Fa & Ff).
  destruct (Engine.monitorPrefix s pos price1) as [pA [rA|]];
    [discriminate|].
  cbn [fst] in Fa, Ff.
  destruct (Engine.partialCloseOrder s pA) as [a|] eqn:Ha; [|discriminate].
  destruct (partialCloseOrder_cases s pA a Ha) as (Hc & _ & ->).
  destruct (monitorPrefix_frame s pA price2) as (_ & Ga & Gf).
  destruct (Engine.monitorPrefix s pA price2) as [pB [rB|]];
    [discriminate|].
  cbn [fst] in Ga, Gf.
  destruct (Engine.partialCloseOrder s pB) as [b|] eqn:Hb; [|discriminate].
  destruct (partialCloseOrder_cases s pB b Hb) as (_ & _ & ->).
  intro H. injection H as <-.
  split; [congruence|]. split; [reflexivity|].
  unfold Engine.partialCloseSettle. cbn. now rewrite Ga, Fa.
Qed.

(** C7.  The partial close is not one-shot when two passes overlap.
    [pos.partialClosed] is tested before the awaited reduce-only order and
    set after it, and the monitor timer fires again without waiting for
    the pass before.  A long of 1 unit at 100 (2x, stop 98, target 107)
    seen at 103 in two consecutive passes: when the second pass begins
    after the first has ended, half a unit is left; when it begins while
    the first still awaits its order, both passes find the flag clear,
    both order half a unit closed and both take it off: nothing is left,
    the quantity was reduced twice. *)
Theorem overlapping_ticks_close_partially_twice :
  let pos :=
    Position.mk "BTC/USDT" long 100 100 1 2 (Leverage.Normal 2) 98 107
      false None false 8 50 100 0 0 0 in
  let g := Gateway.mk (Some 103) (Some (Some 100)) None in
  (exists closeAmount,
     Engine.partialCloseOrder Db.defaults
       (fst (Engine.monitorPrefix Db.defaults pos 103)) = Some closeAmount /\
     closeAmount == 0.5) /\
  Position.amount
    (Engine.afterTicks [(Db.defaults, g); (Db.defaults, g)] pos) == 0.5 /\
  exists p',
    Engine.overlappedTicks Db.defaults 103 103 pos = Some p' /\
    Position.amount p' == 0 /\
    Position.stopLoss p' == 100 /\
    Position.partialClosed p' = true.
Proof.
  cbv zeta. split.
  { eexists. split; [vm_compute; reflexivity|]. vm_compute. reflexivity. }
  split; [vm_compute; reflexivity|].
  eexists. split; [vm_compute; reflexivity|].
  repeat split; vm_compute; reflexivity.
Qed.

(** C8.  While trailing is active the trailing stop never retreats.  One
    iteration of the monitor loop either keeps it or replaces it by the
    candidate (current price minus the configured distance for a long,
    plus it for a short), and only when the candidate is strictly more
    favourable.  Over any run of monitor passes after which the position
    is still open, trailing is still active and the trailing stop is not
    lower than before for a long and not higher for a short. *)
Theorem trailing_stop_is_monotone
    (passes : list (Z * (string -> Gateway.t))) (s : Settings)
    (e : Engine.FuturesEngine) (symbol : string) (pos p' : Position.t)
    (t : Q) :
  Engine.running e = true ->
  NoDup (map fst (Engine.positions e)) ->
  Engine.mapGet (Engine.positions e) symbol = Some pos ->
  Position.trailingStopActive pos = true ->
  Position.trailingStopPrice pos = Some t ->
  Engine.mapGet (Engine.positions (snd (Engine.monitorPasses passes (s, e))))
    symbol = Some p' ->
  (Position.trailingStopActive p' = true /\
   exists t',
     Position.trailingStopPrice p' = Some t' /\
     Engine.noLooser (Position.direction pos) t t') /\
  (forall g,
     let p1 := fst (Engine.monitorPosition s g pos) in
     Position.trailingStopPrice p1 = Some t \/
     exists cur,
       Gateway.tickerLast g = Some cur /\
       let distance := cur * (futures_trailing_stop_distance_pct s / 100) in
       match Position.direction pos with
       | long =>
           Position.trailingStopPrice p1 = Some (cur - distance) /\
           t < cur - distance
       | short =>
           Position.trailingStopPrice p1 = Some (cur + distance) /\
           cur + distance < t
       end).
Proof.
  intros Hrun Hnd Hget Hact Ht Hafter. split.
  - destruct (monitorPasses_entry passes s e symbol pos Hrun Hnd Hget)
      as [Hgone | Hkept]; [congruence|].
    rewrite Hkept in Hafter. injection Hafter as <-.
    exact (afterTicks_trailing _ pos t Hact Ht).
  - intro g. exact (proj2 (monitorPosition_trailing s g pos t Hact Ht)).
Qed.

(** A long at 100 trailing at 101, seen at 104 and then at 103: trailing is
    still active and the trailing stop is not below 101. *)
Lemma trailing_stop_is_monotone_witness :
  let pos :=
    Position.mk "BTC/USDT" long 100 102 1 2 (Leverage.Normal 2) 98 107
      true (Some 101) true 8 50 100 0 2 4 in
  let e := Engine.mkEngine (Risk.create 0) true [("BTC/USDT"%string, pos)] 0 0 in
  let passes :=
    [ (5000%Z, fun _ : string => Gateway.mk (Some 104) (Some (Some 100)) None);
      (10000%Z, fun _ : string => Gateway.mk (Some 103) (Some (Some 100)) None) ] in
  exists p' t',
    Engine.mapGet
      (Engine.positions (snd (Engine.monitorPasses passes (Db.defaults, e))))
      "BTC/USDT" = Some p' /\
    Position.trailingStopPrice p' = Some t' /\
    101 <= t'.
Proof.
  cbv zeta. eexists.
  assert (H := fun p' Hafter =>
    proj1 (trailing_stop_is_monotone
      [ (5000%Z, fun _ : string => Gateway.mk (Some 104) (Some (Some 100)) None);
        (10000%Z, fun _ : string => Gateway.mk (Some 103) (Some (Some 100)) None) ]
      Db.defaults
      (Engine.mkEngine (Risk.create 0) true
         [("BTC/USDT"%string,
           Position.mk "BTC/USDT" long 100 102 1 2 (Leverage.Normal 2) 98 107
             true (Some 101) true 8 50 100 0 2 4)] 0 0)
      "BTC/USDT" _ p' 101 eq_refl
      (NoDup_cons _ (fun H : In _ [] => H) (NoDup_nil _))
      eq_refl eq_refl eq_refl Hafter)).
  specialize (H _ ltac:(vm_compute; reflexivity)).
  destruct H as [_ (t' & Ht' & Hle)].
  exists t'. split; [vm_compute; reflexivity|]. split; assumption.
Defined.

(* ================================================================== *)
(** * Further properties of the risk manager *)

(** ** The outcome window *)

Lemma pushOutcome_cases h o :
  (List.length h <= 50)%nat ->
  (List.length h < 50)%nat /\ Risk.pushOutcome h o = (h ++ [o])%list \/
  List.length h = 50%nat /\ Risk.pushOutcome h o = (tl h ++ [o])%list.
Proof.
  intro Hle. unfold Risk.pushOutcome.
  rewrite length_app. simpl List.length.
  destruct (Nat.ltb 50 (List.length h + 1)) eqn:E.
  - apply Nat.ltb_lt in E. right. split; [lia|].
    destruct h as [|x h]; [simpl in E; lia|reflexivity].
  - apply Nat.ltb_ge in E. left. split; [lia|reflexivity].
Qed.

Lemma pushOutcome_length h o :
  (List.length h <= 50)%nat ->
  (List.length (Risk.pushOutcome h o) <= 50)%nat.
Proof.
  intro Hle.
  destruct (pushOutcome_cases h o Hle) as [[Hlt ->] | [Heq ->]];
    rewrite length_app; simpl.
  - lia.
  - destruct h; simpl in *; lia.
Qed.

Lemma checkDayReset_history now st :
  Risk.tradeHistory (snd (Risk.checkDayReset now st))
  = Risk.tradeHistory (snd st).
Proof.
  destruct st as [s rm]. unfold Risk.checkDayReset.
  destruct (Z.eqb _ _); [reflexivity|].
  destruct (bot_locked s); [|reflexivity].
  destruct (bot_lock_until s) as [l|]; [|reflexivity].
  destruct (Z.leb l now); reflexivity.
Qed.

Lemma canTrade_history now ctx st :
  Risk.tradeHistory (snd (snd (Risk.canTrade now ctx st)))
  = Risk.tradeHistory (snd st).
Proof.
  unfold Risk.canTrade.
  pose proof (checkDayReset_history now st) as H.
  destruct (Risk.checkDayReset now st) as [s rm]. simpl in H.
  destruct (bot_locked s); [exact H|].
  destruct (Qltb _ _); [exact H|].
  destruct (Risk.marginTooHigh s ctx); [exact H|].
  destruct (Risk.rrTooLow s ctx); exact H.
Qed.

Lemma recordPnL_history now pnl st :
  Risk.tradeHistory (snd (Risk.recordPnL now pnl st))
  = Risk.pushOutcome (Risk.tradeHistory (snd st))
      (if Qgeb pnl 0 then Risk.win else Risk.loss).
Proof.
  destruct st as [s rm]. unfold Risk.recordPnL.
  destruct (Qltb _ _); reflexivity.
Qed.

(** X1.  The outcome window of the risk manager is a FIFO of at most 50
    entries.  [recordPnL] appends [win] for a P&L of zero or more and
    [loss] otherwise; once 50 outcomes are held the oldest is dropped for
    each new one.  No sequence of [canTrade] and [recordPnL] calls makes
    the window longer than 50. *)
Theorem tradeHistory_is_a_window_of_50
    (calls : list (Z * Risk.Call)) (now : Z) (pnl : Q) (st : Risk.Sys) :
  (List.length (Risk.tradeHistory (snd st)) <= 50)%nat ->
  let h := Risk.tradeHistory (snd st) in
  let o := if Qgeb pnl 0 then Risk.win else Risk.loss in
  let h' := Risk.tradeHistory (snd (Risk.recordPnL now pnl st)) in
  (h' = if Nat.ltb (List.length h) 50 then (h ++ [o])%list
        else (tl h ++ [o])%list) /\
  (List.length
     (Risk.tradeHistory (snd (snd (Risk.run calls st)))) <= 50)%nat.
Proof.
  intro Hle. cbv zeta. split.
  - rewrite recordPnL_history.
    destruct (pushOutcome_cases (Risk.tradeHistory (snd st))
                (if Qgeb pnl 0 then Risk.win else Risk.loss) Hle)
      as [[Hlt ->] | [Heq ->]].
    + apply Nat.ltb_lt in Hlt. now rewrite Hlt.
    + rewrite Heq. reflexivity.
  - revert st Hle.
    induction calls as [|[t c] calls IH]; intros st Hle; [exact Hle|].
    destruct c as [ctx | p]; simpl.
    + pose proof (canTrade_history t ctx st) as Hh.
      destruct (Risk.canTrade t ctx st) as [answer st1]. simpl in Hh.
      specialize (IH st1). rewrite Hh in IH. specialize (IH Hle).
      destruct (Risk.run calls st1) as [answers st2]. exact IH.
    + apply IH. rewrite recordPnL_history. now apply pushOutcome_length.
Qed.

(** A fresh manager after three trades: win, loss, win in that order. *)
Lemma tradeHistory_is_a_window_of_50_witness :
  Risk.tradeHistory
    (snd (snd (Risk.run [(1%Z, Risk.RecordPnL 2);
                         (2%Z, Risk.RecordPnL (-1));
                         (3%Z, Risk.RecordPnL 0)]
                 (Db.defaults, Risk.create 0))))
  = [Risk.win; Risk.loss; Risk.win] /\
  (List.length
     (Risk.tradeHistory
        (snd (snd (Risk.run [(1%Z, Risk.RecordPnL 2)]
                     (Db.defaults, Risk.create 0))))) <= 50)%nat.
Proof.
  split; [reflexivity|].
  exact (proj2 (tradeHistory_is_a_window_of_50
                  [(1%Z, Risk.RecordPnL 2)] 0 0 (Db.defaults, Risk.create 0)
                  (Nat.le_0_l 50))).
Defined.

(** ** Peak balance and drawdown *)

Lemma canTrade_peak now ctx st :
  Risk.peakBalance (snd (snd (Risk.canTrade now ctx st)))
    = Risk.peakBalance (snd st) /\
  Risk.maxDrawdown (snd (snd (Risk.canTrade now ctx st)))
    = Risk.maxDrawdown (snd st).
Proof.
  unfold Risk.canTrade.
  assert (H : Risk.peakBalance (snd (Risk.checkDayReset now st))
              = Risk.peakBalance (snd st) /\
              Risk.maxDrawdown (snd (Risk.checkDayReset now st))
              = Risk.maxDrawdown (snd st)).
  { destruct st as [s rm]. unfold Risk.checkDayReset.
    destruct (Z.eqb _ _); [split; reflexivity|].
    destruct (bot_locked s); [|split; reflexivity].
    destruct (bot_lock_until s) as [l|]; [|split; reflexivity].
    destruct (Z.leb l now); split; reflexivity. }
  destruct (Risk.checkDayReset now st) as [s rm]. simpl in H.
  destruct (bot_locked s); [exact H|].
  destruct (Qltb _ _); [exact H|].
  destruct (Risk.marginTooHigh s ctx); [exact H|].
  destruct (Risk.rrTooLow s ctx); exact H.
Qed.

Lemma recordPnL_peak now pnl s rm :
  let rm' := snd (Risk.recordPnL now pnl (s, rm)) in
  Risk.peakBalance rm <= Risk.peakBalance rm' /\
  bot_initial_balance s + Risk.dailyPnL rm' <= Risk.peakBalance rm' /\
  Risk.maxDrawdown rm <= Risk.maxDrawdown rm'.
Proof.
  cbv zeta. unfold Risk.recordPnL.
  set (bal := bot_initial_balance s + (Risk.dailyPnL rm + pnl)).
  assert (Hp : Risk.peakBalance rm
               <= (if Qgtb bal (Risk.peakBalance rm) then bal
                   else Risk.peakBalance rm) /\
               bal <= (if Qgtb bal (Risk.peakBalance rm) then bal
                       else Risk.peakBalance rm)).
  { destruct (Qgtb bal (Risk.peakBalance rm)) eqn:E.
    - apply Qgtb_true_iff in E. split; lra.
    - apply Qgtb_false_iff in E. split; lra. }
  set (peak := if Qgtb bal (Risk.peakBalance rm) then bal
               else Risk.peakBalance rm) in *.
  assert (Hd : Risk.maxDrawdown rm
               <= (if Qgtb ((peak - bal) / peak * 100) (Risk.maxDrawdown rm)
                   then (peak - bal) / peak * 100 else Risk.maxDrawdown rm)).
  { destruct (Qgtb _ (Risk.maxDrawdown rm)) eqn:E.
    - apply Qgtb_true_iff in E. lra.
    - lra. }
  destruct (Qltb _ _); simpl; repeat split; tauto.
Qed.

(** X2.  The peak balance and the maximum drawdown only ever grow: over
    any sequence of [canTrade] and [recordPnL] calls neither is lower at
    the end than at the start, and right after a [recordPnL] the peak is
    at least the balance that call computed (initial balance plus daily
    P&L).  The peak starts at 100 in the constructor, so it is positive
    throughout. *)
Theorem peak_and_drawdown_only_grow
    (calls : list (Z * Risk.Call)) (now : Z) (pnl : Q) (st : Risk.Sys) :
  0 < Risk.peakBalance (snd st) ->
  let final := snd (snd (Risk.run calls st)) in
  let rm' := snd (Risk.recordPnL now pnl st) in
  Risk.peakBalance (snd st) <= Risk.peakBalance final /\
  Risk.maxDrawdown (snd st) <= Risk.maxDrawdown final /\
  bot_initial_balance (fst st) + Risk.dailyPnL rm' <= Risk.peakBalance rm'.
Proof.
  intros _. cbv zeta. split; [|split].
  - revert st. induction calls as [|[t c] calls IH]; intro st;
      [apply Qle_refl|].
    destruct c as [ctx | p]; simpl.
    + destruct (canTrade_peak t ctx st) as [Hp _].
      destruct (Risk.canTrade t ctx st) as [answer st1]. simpl in Hp.
      specialize (IH st1). rewrite Hp in IH.
      destruct (Risk.run calls st1) as [answers st2]. exact IH.
    + eapply Qle_trans; [|apply IH].
      destruct st as [s rm]. exact (proj1 (recordPnL_peak t p s rm)).
  - revert st. induction calls as [|[t c] calls IH]; intro st;
      [apply Qle_refl|].
    destruct c as [ctx | p]; simpl.
    + destruct (canTrade_peak t ctx st) as [_ Hd].
      destruct (Risk.canTrade t ctx st) as [answer st1]. simpl in Hd.
      specialize (IH st1). rewrite Hd in IH.
      destruct (Risk.run calls st1) as [answers st2]. exact IH.
    + eapply Qle_trans; [|apply IH].
      destruct st as [s rm]. exact (proj2 (proj2 (recordPnL_peak t p s rm))).
  - destruct st as [s rm]. exact (proj1 (proj2 (recordPnL_peak now pnl s rm))).
Qed.

(** A fresh manager that gains 20 and then loses 30: the peak stays at the
    120 reached after the first trade. *)
Lemma peak_and_drawdown_only_grow_witness :
  let st := (Db.defaults, Risk.create 0) in
  let calls := [(1%Z, Risk.RecordPnL 20); (2%Z, Risk.RecordPnL (-30))] in
  Risk.peakBalance (snd (snd (Risk.run calls st))) == 120 /\
  Risk.peakBalance (snd st) <= Risk.peakBalance (snd (snd (Risk.run calls st))).
Proof.
  cbv zeta. split; [reflexivity|].
  exact (proj1 (peak_and_drawdown_only_grow
                  [(1%Z, Risk.RecordPnL 20); (2%Z, Risk.RecordPnL (-30))]
                  0 0 (Db.defaults, Risk.create 0) ltac:(reflexivity))).
Defined.

(** ** Manual unlock *)

(** X3.  [unlockBot] restores admission at once, if the store takes the
    write.  On a store that accepts [setSetting] it clears the lock and
    the daily P&L whatever they were, and the next [canTrade] call with a
    context that passes the margin and reward:risk checks answers [true],
    at any instant, without writing to the store itself.  On a store that
    rejects [setSetting] the call throws at its first statement: nothing
    is changed, the lock and the daily P&L stay as they were. *)
Theorem unlockBot_restores_admission
    (store : Store) (now : Z) (ctx : Risk.TradeConfig) (st : Risk.Sys) :
  Risk.qualifies (fst st) ctx ->
  match store with
  | Accepts =>
      exists st',
        Risk.unlockBot store st = Some st' /\
        bot_locked (fst st') = false /\
        bot_lock_until (fst st') = None /\
        Risk.dailyPnL (snd st') == 0 /\
        fst (Risk.canTrade now ctx st') = true /\
        fst (snd (Risk.canTrade now ctx st')) = fst st'
  | Rejects => Risk.unlockBot store st = None
  end.
Proof.
  intros (Hq1 & Hq2 & Hq3). destruct st as [s rm].
  cbn [fst] in Hq1, Hq2, Hq3.
  destruct store; [|reflexivity].
  eexists. split; [reflexivity|].
  split; [reflexivity|]. split; [reflexivity|]. split; [reflexivity|].
  set (st' := (setLock s false None,
               Risk.withDaily rm 0 (Risk.dailyTradeCount rm)
                 (Risk.currentDay rm))).
  assert (Hs : fst (Risk.checkDayReset now st') = setLock s false None).
  { unfold st', Risk.checkDayReset.
    destruct (Z.eqb _ _); reflexivity. }
  assert (Hd : Risk.dailyPnL (snd (Risk.checkDayReset now st')) == 0).
  { unfold st', Risk.checkDayReset.
    destruct (Z.eqb _ _); reflexivity. }
  assert (Hm : Risk.marginTooHigh (setLock s false None) ctx = false).
  { now rewrite (marginTooHigh_config _ s ctx (sameConfig_setLock s false None)). }
  assert (Hr : Risk.rrTooLow (setLock s false None) ctx = false).
  { now rewrite (rrTooLow_config _ s ctx (sameConfig_setLock s false None)). }
  assert (Hl : Qltb (Risk.dailyPnL (snd (Risk.checkDayReset now st')))
                 (- (orDefault (Risk.balance ctx)
                       (bot_initial_balance (setLock s false None))
                     * (risk_max_daily_loss_pct (setLock s false None) / 100)))
               = false).
  { apply Qltb_false_iff. rewrite Hd.
    cbn [bot_initial_balance risk_max_daily_loss_pct setLock]. lra. }
  unfold Risk.canTrade.
  destruct (Risk.checkDayReset now st') as [s1 rm1].
  cbn [fst snd] in Hs, Hl. subst s1.
  change (bot_locked (setLock s false None)) with false. cbv iota.
  rewrite Hl, Hm, Hr. split; reflexivity.
Qed.

(** A bot locked after a loss of 30, unlocked by hand on a store that
    takes the write: a full context is admitted again. *)
Lemma unlockBot_restores_admission_witness :
  let locked := Risk.recordPnL 1000 (-30) (Db.defaults, Risk.create 0) in
  bot_locked (fst locked) = true /\
  exists st',
    Risk.unlockBot Accepts locked = Some st' /\
    fst (Risk.canTrade 2000 (Risk.mkTradeConfig (Some 100) (Some 10) (Some 3))
           st') = true.
Proof.
  cbv zeta. split; [reflexivity|].
  destruct (unlockBot_restores_admission Accepts 2000
              (Risk.mkTradeConfig (Some 100) (Some 10) (Some 3))
              (Risk.recordPnL 1000 (-30) (Db.defaults, Risk.create 0)))
    as (st' & Hu & _ & _ & _ & Hc & _).
  - repeat split. vm_compute. discriminate.
  - exists st'. split; [exact Hu | exact Hc].
Defined.

(** ** Kelly sizing *)

Lemma Qmax_Qmin_bounds (x : Q) : 0 <= Qmax 0 (Qmin x 0.1) <= 0.1.
Proof.
  split.
  - apply Q.le_max_l.
  - apply Q.max_lub; [lra|apply Q.le_min_r].
Qed.

(** X4.  The Kelly advice is never negative and never more than 10% of a
    non-negative balance.  With fewer than 10 recorded trades it is the
    flat 3% of the balance, whatever the statistics say. *)
Theorem kellyOptimalSize_bounds (stats : RiskTools.TradeStats) (balance : Q) :
  0 <= balance ->
  0 <= RiskTools.kellyOptimalSize stats balance <= balance * 0.1 /\
  ((RiskTools.totalTrades stats < 10)%Z ->
   RiskTools.kellyOptimalSize stats balance = balance * 0.03).
Proof.
  intro Hb. unfold RiskTools.kellyOptimalSize. split.
  - destruct (_ || _); [split; lra|].
    match goal with |- context [Qmax 0 (Qmin ?x 0.1)] =>
      pose proof (Qmax_Qmin_bounds x) as [H0 H1];
      set (k := Qmax 0 (Qmin x 0.1)) in *
    end.
    split; nra.
  - intro Hlt. apply Z.ltb_lt in Hlt. rewrite Hlt.
    now rewrite orb_true_r.
Qed.

(** With 40 trades, 60% wins and a profit factor of 2 the raw Kelly
    fraction is 0.4, half of it 0.2, capped at 0.1: 10 on a balance of
    100. *)
Lemma kellyOptimalSize_bounds_witness :
  RiskTools.kellyOptimalSize
    (RiskTools.mkTradeStats (Some 60) (Some 2) 40) 100 == 10 /\
  RiskTools.kellyOptimalSize
    (RiskTools.mkTradeStats (Some 60) (Some 2) 4) 100 = 100 * 0.03.
Proof.
  split; [reflexivity|].
  apply (proj2 (kellyOptimalSize_bounds
                  (RiskTools.mkTradeStats (Some 60) (Some 2) 4) 100
                  ltac:(vm_compute; discriminate))).
  reflexivity.
Defined.

(* ================================================================== *)
(** * Further properties of sizing, stops and targets *)

Lemma calculatePositionSize_cases s balance entryPrice stopLoss lev sizing :
  Engine.calculatePositionSize s balance entryPrice stopLoss lev = Some sizing ->
  let riskUSD := balance * (risk_max_position_risk_pct s / 100) in
  let stopDistance := Qabs (entryPrice - stopLoss) / entryPrice in
  let margin :=
    Qmin (riskUSD / stopDistance / lev)
         (balance * (risk_max_margin_usage_pct s / 100)) in
  ~ stopDistance == 0 /\
  sizing = Sizing.mk riskUSD (stopDistance * 100) (margin * lev) margin
             (margin * lev / entryPrice) lev.
Proof.
  unfold Engine.calculatePositionSize. cbv zeta.
  destruct (Qeq_bool _ 0) eqn:E; [discriminate|].
  intro H. injection H as <-. split; [|reflexivity].
  intro H0. apply Qeq_bool_iff in H0. congruence.
Qed.

Lemma stopDistance_nonzero (entryPrice stopLoss : Q) :
  ~ Qabs (entryPrice - stopLoss) / entryPrice == 0 ->
  ~ stopLoss == entryPrice /\ ~ entryPrice == 0.
Proof.
  intro H. split; intro E; apply H.
  - assert (E0 : entryPrice - stopLoss == 0) by (rewrite E; ring).
    rewrite E0. reflexivity.
  - rewrite E. unfold Qdiv. change (/ 0) with 0. ring.
Qed.

(** X5.  What [calculatePositionSize] returns stays inside both budgets.
    For a positive entry price and leverage, the margin is at most the
    margin cap of the balance, the notional is the margin times the
    leverage, the quantity is the notional at the entry price, and the
    loss realised when the price reaches the stop (quantity times stop
    distance) is at most the risk budget [balance * max_position_risk_pct
    / 100]. *)
Theorem calculatePositionSize_stays_in_budget
    (s : Settings) (balance entryPrice stopLoss lev : Q) (sizing : Sizing.t) :
  0 < entryPrice -> 0 < lev ->
  Engine.calculatePositionSize s balance entryPrice stopLoss lev = Some sizing ->
  Sizing.margin sizing <= balance * (risk_max_margin_usage_pct s / 100) /\
  Sizing.positionValue sizing == Sizing.margin sizing * lev /\
  Sizing.amount sizing * entryPrice == Sizing.positionValue sizing /\
  Sizing.amount sizing * Qabs (entryPrice - stopLoss)
    <= balance * (risk_max_position_risk_pct s / 100).
Proof.
  intros He Hl H.
  destruct (calculatePositionSize_cases _ _ _ _ _ _ H) as [Hsd ->].
  cbn [Sizing.margin Sizing.positionValue Sizing.amount].
  set (riskUSD := balance * (risk_max_position_risk_pct s / 100)).
  set (maxMargin := balance * (risk_max_margin_usage_pct s / 100)).
  set (d := Qabs (entryPrice - stopLoss)) in *.
  assert (Hd0 : 0 <= d) by apply Qabs_nonneg.
  assert (Hd : 0 < d).
  { destruct (stopDistance_nonzero _ _ Hsd) as [Hne _].
    apply Qabs_pos_of_neq. intro E. apply Hne. lra. }
  set (m := Qmin (riskUSD / (d / entryPrice) / lev) maxMargin).
  assert (Hm : m <= riskUSD / (d / entryPrice) / lev) by apply Q.le_min_l.
  split; [apply Q.le_min_r|]. split; [reflexivity|].
  split; [field; lra|].
  assert (E : m * lev / entryPrice * d
              == m * (lev * d / entryPrice)) by (field; lra).
  assert (E' : riskUSD
               == riskUSD / (d / entryPrice) / lev * (lev * d / entryPrice))
    by (field; repeat split; lra).
  rewrite E, E'.
  assert (Hk : 0 < lev * d / entryPrice).
  { apply Qlt_shift_div_l; [exact He|]. nra. }
  nra.
Qed.

(** Balance 100, long from 50000 to a stop at 49000 with 2x: the risk
    budget is 3 and the loss at the stop is at most that. *)
Lemma calculatePositionSize_stays_in_budget_witness :
  exists sizing,
    Engine.calculatePositionSize Db.defaults 100 50000 49000 2 = Some sizing /\
    Sizing.amount sizing * Qabs (50000 - 49000) <= 3.
Proof.
  eexists. split; [reflexivity|].
  assert (H := calculatePositionSize_stays_in_budget Db.defaults
                 100 50000 49000 2 _ ltac:(reflexivity) ltac:(reflexivity)
                 eq_refl).
  destruct H as (_ & _ & _ & H).
  eapply Qle_trans; [exact H|]. vm_compute. discriminate.
Defined.

(** X6.  Without Bollinger data and with a positive ATR and entry price,
    [calculateSLTP] puts the stop strictly on the loss side and at most 2%
    of the entry price away, and the target on the profit side at least 7%
    away, whatever the reward:risk floor is. *)
Theorem calculateSLTP_without_bollinger
    (s : Settings) (direction : Direction) (entryPrice atr : Q) :
  0 < entryPrice -> 0 < atr ->
  let r := Engine.calculateSLTP s direction entryPrice atr None in
  match direction with
  | long =>
      entryPrice * 0.98 <= SLTP.stopLoss r /\ SLTP.stopLoss r < entryPrice /\
      entryPrice * 1.07 <= SLTP.takeProfit r
  | short =>
      entryPrice < SLTP.stopLoss r /\ SLTP.stopLoss r <= entryPrice * 1.02 /\
      SLTP.takeProfit r <= entryPrice * 0.93
  end.
Proof.
  intros He Ha. cbv zeta.
  unfold Engine.calculateSLTP, Engine.candidateSLTP.
  set (sl := Qmin (atr * 1.5) (entryPrice * 0.02)).
  set (tp := Qmax (atr * 3.5) (entryPrice * 0.07)).
  assert (Hsl1 : sl <= entryPrice * 0.02) by apply Q.le_min_r.
  assert (Hsl0 : 0 < sl).
  { unfold sl. apply Q.min_glb_lt; lra. }
  assert (Htp : entryPrice * 0.07 <= tp) by apply Q.le_max_r.
  destruct direction; unfold Engine.enforceMinRR;
    cbn [SLTP.stopLoss SLTP.takeProfit].
  - set (A := Qabs (entryPrice - (entryPrice - sl))).
    set (B := Qabs (entryPrice - (entryPrice + tp))).
    assert (HA : A == sl).
    { unfold A. setoid_replace (entryPrice - (entryPrice - sl)) with sl by ring.
      apply Qabs_pos. lra. }
    assert (HB : B == tp).
    { unfold B.
      setoid_replace (entryPrice - (entryPrice + tp)) with (- tp) by ring.
      rewrite Qabs_opp. apply Qabs_pos. lra. }
    split; [lra|]. split; [lra|].
    destruct (Qgtb A 0) eqn:Hg;
      [|apply Qgtb_false_iff in Hg; lra].
    destruct (Qltb (B / A) (risk_min_rr_ratio s)) eqn:E; [|lra].
    apply Qltb_true_iff in E.
    assert (B == B / A * A) by (field; lra).
    nra.
  - set (A := Qabs (entryPrice - (entryPrice + sl))).
    set (B := Qabs (entryPrice - (entryPrice - tp))).
    assert (HA : A == sl).
    { unfold A.
      setoid_replace (entryPrice - (entryPrice + sl)) with (- sl) by ring.
      rewrite Qabs_opp. apply Qabs_pos. lra. }
    assert (HB : B == tp).
    { unfold B. setoid_replace (entryPrice - (entryPrice - tp)) with tp by ring.
      apply Qabs_pos. lra. }
    split; [lra|]. split; [lra|].
    destruct (Qgtb A 0) eqn:Hg;
      [|apply Qgtb_false_iff in Hg; lra].
    destruct (Qltb (B / A) (risk_min_rr_ratio s)) eqn:E; [|lra].
    apply Qltb_true_iff in E.
    assert (B == B / A * A) by (field; lra).
    nra.
Qed.

(** A long at 100 with ATR 1: stop 98.5, target 107. *)
Lemma calculateSLTP_without_bollinger_witness :
  SLTP.stopLoss (Engine.calculateSLTP Db.defaults long 100 1 None) == 98.5 /\
  100 * 1.07 <= SLTP.takeProfit (Engine.calculateSLTP Db.defaults long 100 1 None).
Proof.
  split; [reflexivity|].
  exact (proj2 (proj2 (calculateSLTP_without_bollinger Db.defaults long 100 1
                         ltac:(reflexivity) ltac:(reflexivity)))).
Defined.

(** The reward:risk check as a product: for a stop that differs from the
    entry price the returned target is at least [minRR] stop distances
    away. *)
Lemma enforceMinRR_floor s direction entryPrice sl tp :
  ~ sl == entryPrice ->
  let r := Engine.enforceMinRR s direction entryPrice (sl, tp) in
  risk_min_rr_ratio s * Qabs (entryPrice - sl)
    <= Qabs (entryPrice - SLTP.takeProfit r).
Proof.
  intros Hne. cbv zeta. unfold Engine.enforceMinRR.
  cbn [SLTP.takeProfit].
  assert (Hsl : 0 < Qabs (entryPrice - sl)).
  { apply Qabs_pos_of_neq. intro H. apply Hne. lra. }
  assert (Hg : Qgtb (Qabs (entryPrice - sl)) 0 = true)
    by now apply Qgtb_true_iff.
  rewrite Hg.
  set (slDist := Qabs (entryPrice - sl)) in *.
  set (tpDist := Qabs (entryPrice - tp)) in *.
  set (minRR := risk_min_rr_ratio s) in *.
  assert (Htp : 0 <= tpDist) by apply Qabs_nonneg.
  assert (Hq : tpDist == (tpDist / slDist) * slDist) by (field; lra).
  assert (Hq0 : 0 <= tpDist / slDist).
  { apply Qle_shift_div_l; [exact Hsl|]. lra. }
  destruct (Qltb (tpDist / slDist) minRR) eqn:Hlt.
  - apply Qltb_true_iff in Hlt.
    assert (Hnn : 0 <= slDist * minRR) by nra.
    destruct direction.
    + setoid_replace (entryPrice - (entryPrice + slDist * minRR))
        with (- (slDist * minRR)) by ring.
      rewrite Qabs_opp, Qabs_pos by exact Hnn. lra.
    + setoid_replace (entryPrice - (entryPrice - slDist * minRR))
        with (slDist * minRR) by ring.
      rewrite Qabs_pos by exact Hnn. lra.
  - apply Qltb_false_iff in Hlt. fold tpDist. nra.
Qed.

(** X7.  Whatever [openPosition] stores is a sound entry.  When a symbol
    that had no entry has one after the call, the risk manager admitted
    the trade and the order was placed; the entry sits at the 1h price with
    no P&L yet; its stop differs from the entry price; its target is at
    least [risk.min_rr_ratio] stop distances away; its margin is at most
    half the balance and at most the configured margin cap; and its
    notional is its margin times its leverage. *)
Theorem openPosition_stores_sound_entries
    (now : Z) (g : Gateway.t) (symbol : string) (direction : Direction)
    (score : Z) (ind : Indicators.t) (st : Engine.State) (p : Position.t) :
  Engine.mapGet (Engine.positions (snd st)) symbol = None ->
  Engine.mapGet
    (Engine.positions
       (snd (Engine.openPosition now g symbol direction score ind st)))
    symbol = Some p ->
  let balance := Engine.getBalance (fst st) g in
  fst (Risk.canTrade now Risk.noContext
         (fst st, Engine.riskManager (snd st))) = true /\
  Gateway.orderPlaced g = true /\
  Indicators.price ind = Some (Position.entryPrice p) /\
  Position.currentPrice p = Position.entryPrice p /\
  Position.pnl p = 0 /\
  Position.score p = score /\
  Position.openedAt p = now /\
  ~ Position.stopLoss p == Position.entryPrice p /\
  risk_min_rr_ratio (fst st)
    * Qabs (Position.entryPrice p - Position.stopLoss p)
    <= Qabs (Position.entryPrice p - Position.takeProfit p) /\
  Position.margin p <= balance * 0.5 /\
  Position.margin p <= balance * (risk_max_margin_usage_pct (fst st) / 100) /\
  Position.positionValue p == Position.margin p * Position.leverage p.
Proof.
  intros Hfree Hget. cbv zeta.
  destruct (openPosition_cases now g symbol direction score ind st)
    as [Hcfg [Hsame | (entry & sizing & Hok & Hprice & Hnz & Hsz & Hhalf
                       & Hord & Hpos)]].
  - rewrite Hsame in Hget. congruence.
  - rewrite Hpos, mapGet_mapSet_same in Hget. injection Hget as <-.
    cbn [Position.entryPrice Position.currentPrice Position.pnl
         Position.score Position.openedAt Position.stopLoss
         Position.takeProfit Position.margin Position.positionValue
         Position.leverage].
    set (s1 := fst (Engine.openPosition now g symbol direction score ind st))
      in *.
    assert (Hbal : Engine.getBalance s1 g = Engine.getBalance (fst st) g).
    { apply (sameConfig_proj (fun s => Engine.getBalance s g));
        [reflexivity | exact Hcfg]. }
    assert (Hcap : risk_max_margin_usage_pct s1
                   = risk_max_margin_usage_pct (fst st)).
    { apply (sameConfig_proj risk_max_margin_usage_pct);
        [reflexivity | exact Hcfg]. }
    assert (Hrr : risk_min_rr_ratio s1 = risk_min_rr_ratio (fst st)).
    { apply (sameConfig_proj risk_min_rr_ratio);
        [reflexivity | exact Hcfg]. }
    destruct (calculatePositionSize_cases _ _ _ _ _ _ Hsz) as [Hsd Hsizing].
    destruct (stopDistance_nonzero _ _ Hsd) as [Hne _].
    split; [exact Hok|]. split; [exact Hord|]. split; [exact Hprice|].
    split; [reflexivity|]. split; [reflexivity|]. split; [reflexivity|].
    split; [reflexivity|]. split; [exact Hne|].
    split.
    { rewrite <- Hrr. unfold Engine.calculateSLTP in *.
      rewrite enforceMinRR_stopLoss in *.
      destruct (Engine.candidateSLTP direction entry
                  (orDefault (Indicators.atr ind) 0) (Indicators.bollinger ind))
        as [sl tp].
      simpl fst in *. now apply enforceMinRR_floor. }
    split; [rewrite <- Hbal; exact Hhalf|].
    rewrite Hsizing. cbn [Sizing.margin Sizing.positionValue].
    split; [|reflexivity].
    rewrite <- Hbal, <- Hcap. apply Q.le_min_r.
Qed.

(** BTC at 50000 with ATR 500 on a fresh engine: the stored long has its
    stop at 49250 and its target at 51875, 2.5 stop distances away. *)
Lemma openPosition_stores_sound_entries_witness :
  let ind := Indicators.mk (Some 50000) (Some 500) (Some 1) None in
  let g := Gateway.mk None (Some (Some 100)) None in
  let st := (Db.defaults, Engine.mkEngine (Risk.create 0) true [] 0 0) in
  exists p,
    Engine.mapGet
      (Engine.positions (snd (Engine.openPosition 0 g "BTC/USDT" long 7 ind st)))
      "BTC/USDT" = Some p /\
    Position.margin p <= 100 * 0.5 /\
    ~ Position.stopLoss p == Position.entryPrice p.
Proof.
  cbv zeta. eexists. split; [vm_compute; reflexivity|].
  match goal with |- ?m <= _ /\ ~ ?a == ?b =>
    enough (H : m <= Engine.getBalance Db.defaults
                       (Gateway.mk None (Some (Some 100)) None) * 0.5
                /\ ~ a == b) by exact H
  end.
  pose proof (openPosition_stores_sound_entries 0
                (Gateway.mk None (Some (Some 100)) None) "BTC/USDT" long 7
                (Indicators.mk (Some 50000) (Some 500) (Some 1) None)
                (Db.defaults, Engine.mkEngine (Risk.create 0) true [] 0 0)
                _ eq_refl ltac:(vm_compute; reflexivity)) as H.
  cbv zeta in H.
  destruct H as (_ & _ & _ & _ & _ & _ & _ & Hne & _ & Hhalf & _).
  split; [exact Hhalf | exact Hne].
Defined.

(* ================================================================== *)
(** * Further properties of the signal score *)

Ltac score_branches :=
  repeat match goal with
  | |- context [if ?b then _ else _] => destruct b
  | |- context [match ?x with Some _ => _ | None => _ end] => destruct x
  end.

Ltac signal_cases :=
  cbv beta iota zeta
    delta [Timeframe.buys Timeframe.sells includesBuy includesSell andb orb].

Lemma calculateSignalScore_layers (timeframes : Timeframes.t) :
  let l := SignalScore.layers (Engine.calculateSignalScore timeframes) in
  (0 <= Layers.trend l <= 2)%Z /\
  (0 <= Layers.rsi l <= 2)%Z /\
  (0 <= Layers.macd l <= 2)%Z /\
  (0 <= Layers.bollinger l <= 1)%Z /\
  (0 <= Layers.ema l <= 1)%Z /\
  (0 <= Layers.volume l <= 1)%Z /\
  (0 <= Layers.entry_timing l <= 1)%Z.
Proof.
  cbv zeta. unfold Engine.calculateSignalScore.
  destruct (Timeframes.tf1h timeframes) as [|s1 ind];
    [cbn; lia|].
  destruct (Timeframes.tf4h timeframes) as [|s4 ind4];
    [cbn; lia|].
  destruct s1, s4; signal_cases;
    cbn [SignalScore.layers Layers.trend Layers.rsi Layers.macd
         Layers.bollinger Layers.ema Layers.volume Layers.entry_timing
         Layers.empty];
    repeat split; score_branches; lia.
Qed.

Lemma calculateSignalScore_total (timeframes : Timeframes.t) :
  SignalScore.score (Engine.calculateSignalScore timeframes)
  = Layers.total (SignalScore.layers (Engine.calculateSignalScore timeframes)).
Proof.
  unfold Engine.calculateSignalScore.
  destruct (Timeframes.tf1h timeframes) as [|s1 ind]; [reflexivity|].
  destruct (Timeframes.tf4h timeframes) as [|s4 ind4]; [reflexivity|].
  destruct s1, s4; signal_cases; reflexivity.
Qed.

(** X8.  The signal score is the sum of its seven layers and lies between
    0 and 10: the trend, RSI and MACD layers give 0 to 2 points each, the
    Bollinger, EMA, volume and entry-timing layers 0 or 1.  An analysis
    without a direction scores 0. *)
Theorem calculateSignalScore_range (timeframes : Timeframes.t) :
  let r := Engine.calculateSignalScore timeframes in
  let l := SignalScore.layers r in
  SignalScore.score r = Layers.total l /\
  (0 <= SignalScore.score r <= 10)%Z /\
  (0 <= Layers.trend l <= 2)%Z /\
  (0 <= Layers.rsi l <= 2)%Z /\
  (0 <= Layers.macd l <= 2)%Z /\
  (0 <= Layers.bollinger l <= 1)%Z /\
  (0 <= Layers.ema l <= 1)%Z /\
  (0 <= Layers.volume l <= 1)%Z /\
  (0 <= Layers.entry_timing l <= 1)%Z /\
  (SignalScore.direction r = None -> SignalScore.score r = 0%Z).
Proof.
  cbv zeta.
  pose proof (calculateSignalScore_layers timeframes) as H. cbv zeta in H.
  pose proof (calculateSignalScore_total timeframes) as Ht.
  split; [exact Ht|].
  split; [rewrite Ht; unfold Layers.total; lia|].
  repeat (split; [tauto|]).
  unfold Engine.calculateSignalScore.
  destruct (Timeframes.tf1h timeframes) as [|s1 ind]; [reflexivity|].
  destruct (Timeframes.tf4h timeframes) as [|s4 ind4]; [reflexivity|].
  destruct s1, s4; signal_cases; cbn [SignalScore.direction];
    first [discriminate | reflexivity].
Qed.

(** Without 1h candles there is no direction and the score is 0. *)
Lemma calculateSignalScore_range_witness :
  let x := Snapshot.mk (Some 100) None None None None
             (Ema.mk None None None) None None None None in
  let tfs := Timeframes.mk (Timeframe.Analysed buy x) Timeframe.Failed
               (Timeframe.Analysed buy x) in
  SignalScore.score (Engine.calculateSignalScore tfs) = 0%Z.
Proof.
  cbv zeta.
  refine (proj2 (proj2 (proj2 (proj2 (proj2 (proj2 (proj2 (proj2 (proj2
            (calculateSignalScore_range
               (Timeframes.mk
                  (Timeframe.Analysed buy
                     (Snapshot.mk (Some 100) None None None None
                        (Ema.mk None None None) None None None None))
                  Timeframe.Failed
                  (Timeframe.Analysed buy
                     (Snapshot.mk (Some 100) None None None None
                        (Ema.mk None None None) None None None None))))))))))))
            _).
  reflexivity.
Defined.

Lemma includes_exclusive (s : Signal) :
  includesBuy s && includesSell s = false.
Proof. destruct s; reflexivity. Qed.

(** Where the direction comes from, and what it means for the trend and
    the entry-timing layer. *)
Lemma calculateSignalScore_direction (timeframes : Timeframes.t)
    (d : Direction) :
  SignalScore.direction (Engine.calculateSignalScore timeframes) = Some d ->
  (match d with long => Timeframe.buys | short => Timeframe.sells end
     (Timeframes.tf1h timeframes) = true \/
   (Timeframe.buys (Timeframes.tf1h timeframes) = false /\
    Timeframe.sells (Timeframes.tf1h timeframes) = false /\
    match d with long => Timeframe.buys | short => Timeframe.sells end
      (Timeframes.tf4h timeframes) = true)) /\
  (1 <= Layers.trend
          (SignalScore.layers (Engine.calculateSignalScore timeframes)))%Z /\
  (Layers.trend
     (SignalScore.layers (Engine.calculateSignalScore timeframes)) = 2%Z <->
   match d with long => Timeframe.buys | short => Timeframe.sells end
     (Timeframes.tf1h timeframes) = true /\
   match d with long => Timeframe.buys | short => Timeframe.sells end
     (Timeframes.tf4h timeframes) = true) /\
  (Layers.entry_timing
     (SignalScore.layers (Engine.calculateSignalScore timeframes)) = 1%Z <->
   match d with long => Timeframe.buys | short => Timeframe.sells end
     (Timeframes.tf15m timeframes) = true) /\
  Timeframes.tf1h timeframes <> Timeframe.Failed /\
  Timeframes.tf4h timeframes <> Timeframe.Failed.
Proof.
  unfold Engine.calculateSignalScore.
  destruct (Timeframes.tf1h timeframes) as [|s1 ind1]; [discriminate|].
  destruct (Timeframes.tf4h timeframes) as [|s4 ind4]; [discriminate|].
  destruct s1, s4; signal_cases; cbn [SignalScore.direction];
    intro Hd; try discriminate Hd; injection Hd as <-;
    cbn [SignalScore.layers Layers.trend Layers.entry_timing];
    (split; [first [left; reflexivity
                   | right; repeat split; reflexivity]|]);
    (split; [lia|]);
    (split; [split; [intro H; first [discriminate H | split; reflexivity]
                    | intros [H H']; first [reflexivity | discriminate H
                                            | discriminate H']]|]);
    (split; [|split; discriminate]);
    (destruct (Timeframes.tf15m timeframes) as [|s15 ind15];
     [split; intro H; discriminate H
     | destruct s15; split; intro H;
       first [reflexivity | discriminate H]]).
Qed.

(** X9.  The direction comes from the 1h signal and, only when that is
    neutral, from the 4h signal; a timeframe that failed on 1h or 4h gives
    no direction.  So whenever a direction is returned the trend layer is
    at least 1 (its zero branch is never taken), it is 2 exactly when the
    1h and the 4h signal both point that way, and a score of 10 needs the
    15m signal to agree as well. *)
Theorem direction_and_trend_layer (timeframes : Timeframes.t) (d : Direction) :
  let r := Engine.calculateSignalScore timeframes in
  let agrees tf :=
    match d with
    | long => Timeframe.buys tf
    | short => Timeframe.sells tf
    end in
  SignalScore.direction r = Some d ->
  (agrees (Timeframes.tf1h timeframes) = true \/
   (Timeframe.buys (Timeframes.tf1h timeframes) = false /\
    Timeframe.sells (Timeframes.tf1h timeframes) = false /\
    agrees (Timeframes.tf4h timeframes) = true)) /\
  (1 <= Layers.trend (SignalScore.layers r))%Z /\
  (Layers.trend (SignalScore.layers r) = 2%Z <->
   agrees (Timeframes.tf1h timeframes) = true /\
   agrees (Timeframes.tf4h timeframes) = true) /\
  (SignalScore.score r = 10%Z ->
   agrees (Timeframes.tf15m timeframes) = true /\
   agrees (Timeframes.tf1h timeframes) = true /\
   agrees (Timeframes.tf4h timeframes) = true).
Proof.
  cbv zeta. intro Hd.
  pose proof (calculateSignalScore_layers timeframes) as Hl. cbv zeta in Hl.
  pose proof (calculateSignalScore_total timeframes) as Ht.
  destruct (calculateSignalScore_direction timeframes d Hd)
    as (H1 & H2 & H3 & H4 & _).
  assert (H10 : SignalScore.score (Engine.calculateSignalScore timeframes)
                = 10%Z ->
                Layers.trend
                  (SignalScore.layers (Engine.calculateSignalScore timeframes))
                = 2%Z /\
                Layers.entry_timing
                  (SignalScore.layers (Engine.calculateSignalScore timeframes))
                = 1%Z).
  { intro H. rewrite Ht in H. unfold Layers.total in H. lia. }
  destruct d;
    (split; [exact H1|]); (split; [exact H2|]); (split; [exact H3|]);
    intro H; destruct (H10 H) as [Hq Ht15];
    (split; [exact (proj1 H4 Ht15) | exact (proj1 H3 Hq)]).
Qed.

(** 1h says buy and 4h says sell: the direction is long all the same, with
    one trend point. *)
Lemma direction_and_trend_layer_witness :
  let x := Snapshot.mk (Some 100) None None None None
             (Ema.mk None None None) None None None None in
  let tfs := Timeframes.mk Timeframe.Failed (Timeframe.Analysed buy x)
               (Timeframe.Analysed sell x) in
  SignalScore.direction (Engine.calculateSignalScore tfs) = Some long /\
  (1 <= Layers.trend (SignalScore.layers (Engine.calculateSignalScore tfs)))%Z.
Proof.
  cbv zeta. split; [reflexivity|].
  exact (proj1 (proj2 (direction_and_trend_layer
                         (Timeframes.mk Timeframe.Failed
                            (Timeframe.Analysed buy
                               (Snapshot.mk (Some 100) None None None None
                                  (Ema.mk None None None) None None None None))
                            (Timeframe.Analysed sell
                               (Snapshot.mk (Some 100) None None None None
                                  (Ema.mk None None None) None None None None)))
                         long eq_refl))).
Defined.

(* ================================================================== *)
(** * Properties of the signal scan *)

Lemma mapSet_length_absent m k v :
  Engine.mapGet m k = None ->
  List.length (Engine.mapSet m k v) = S (List.length m).
Proof.
  induction m as [|[k' v'] m IH]; intro H; [reflexivity|].
  simpl in *. destruct (String.eqb k' k); [discriminate|].
  simpl. now rewrite IH.
Qed.

(** [openPosition] only ever writes the store, the risk manager and the
    book. *)
Lemma openPosition_engine_frame now g symbol direction score ind st :
  let st' := Engine.openPosition now g symbol direction score ind st in
  Engine.running (snd st') = Engine.running (snd st) /\
  Engine.dailyPnL (snd st') = Engine.dailyPnL (snd st) /\
  Engine.dailyPnLReset (snd st') = Engine.dailyPnLReset (snd st).
Proof.
  destruct st as [s e]. cbv zeta. unfold Engine.openPosition.
  destruct (Risk.canTrade now Risk.noContext (s, Engine.riskManager e))
    as [allowed [s1 rm1]].
  destruct allowed; simpl negb; cbv iota; [|repeat split].
  destruct (Indicators.price ind) as [entryPrice|]; [|repeat split].
  destruct (truthyQ entryPrice); simpl negb; cbv iota; [|repeat split].
  destruct (Engine.calculatePositionSize _ _ _ _ _) as [sizing|];
    [|repeat split].
  destruct (Qgtb (Sizing.margin sizing) _); [repeat split|].
  destruct (Gateway.orderPlaced g); simpl negb; cbv iota; repeat split.
Qed.

(** What the loop body does for a symbol that has no entry: nothing, or
    one new entry carrying the score and direction of the analysis, which
    reached the minimum score. *)
Lemma considerSymbol_cases now feed symbol st :
  let st' := Engine.considerSymbol now feed symbol st in
  sameConfig (fst st') (fst st) /\
  Engine.running (snd st') = Engine.running (snd st) /\
  (Engine.positions (snd st') = Engine.positions (snd st) \/
   exists timeframes p,
     Feed.analysis feed = Some timeframes /\
     SignalScore.direction (Engine.calculateSignalScore timeframes)
       = Some (Position.direction p) /\
     Position.score p
       = SignalScore.score (Engine.calculateSignalScore timeframes) /\
     futures_min_signal_score (fst st) <= inject_Z (Position.score p) /\
     Position.openedAt p = now /\
     Position.symbol p = symbol /\
     Engine.positions (snd st')
       = Engine.mapSet (Engine.positions (snd st)) symbol p).
Proof.
  cbv zeta. unfold Engine.considerSymbol.
  destruct (Feed.analysis feed) as [timeframes|];
    [|split; [apply sameConfig_refl|split; [reflexivity|left; reflexivity]]].
  destruct (SignalScore.direction (Engine.calculateSignalScore timeframes))
    as [d|] eqn:Hd;
    [|split; [apply sameConfig_refl|split; [reflexivity|left; reflexivity]]].
  destruct (Qgeb _ _) eqn:Hs;
    [|split; [apply sameConfig_refl|split; [reflexivity|left; reflexivity]]].
  apply Qgeb_true_iff in Hs.
  destruct (openPosition_cases now (Feed.gateway feed) symbol d
              (SignalScore.score (Engine.calculateSignalScore timeframes))
              (Timeframe.indicators (Timeframes.tf1h timeframes)) st)
    as [Hc Hp].
  destruct (openPosition_engine_frame now (Feed.gateway feed) symbol d
              (SignalScore.score (Engine.calculateSignalScore timeframes))
              (Timeframe.indicators (Timeframes.tf1h timeframes)) st)
    as [Hr _].
  split; [exact Hc|]. split; [exact Hr|].
  destruct Hp as [Hsame | (entry & sizing & _ & _ & _ & _ & _ & _ & Hpos)].
  - left. exact Hsame.
  - right. eexists timeframes, _. split; [reflexivity|].
    split; [|split; [|split; [|split; [|split; [|exact Hpos]]]]].
    + exact Hd.
    + reflexivity.
    + exact Hs.
    + reflexivity.
    + reflexivity.
Qed.

(** An entry found under [k] after [mapSet m symbol p] on a book without
    [k] is the one just written. *)
Lemma mapGet_mapSet_fresh m symbol p k q :
  Engine.mapGet m k = None ->
  Engine.mapGet (Engine.mapSet m symbol p) k = Some q ->
  k = symbol /\ q = p.
Proof.
  intros Hnone Hget.
  destruct (string_dec k symbol) as [->|Hne].
  - rewrite mapGet_mapSet_same in Hget. split; congruence.
  - rewrite mapGet_mapSet_other in Hget by congruence. congruence.
Qed.

Lemma mapGet_mapSet_keeps m symbol p k q :
  Engine.mapGet m symbol = None ->
  Engine.mapGet m k = Some q ->
  Engine.mapGet (Engine.mapSet m symbol p) k = Some q.
Proof.
  intros Hnone Hget.
  destruct (string_dec k symbol) as [->|Hne]; [congruence|].
  rewrite mapGet_mapSet_other by congruence. exact Hget.
Qed.

Lemma mapHas_false m k : Engine.mapHas m k = false -> Engine.mapGet m k = None.
Proof. unfold Engine.mapHas. destruct (Engine.mapGet m k); congruence. Qed.

Lemma atCapacity_false e M :
  Engine.atCapacity e M = false ->
  inject_Z (Z.of_nat (List.length (Engine.positions e))) < M.
Proof. unfold Engine.atCapacity. apply Qgeb_false_iff. Qed.

Lemma inject_Z_S (n : nat) :
  inject_Z (Z.of_nat (S n)) == inject_Z (Z.of_nat n) + 1.
Proof. rewrite Nat2Z.inj_succ, <- Z.add_1_r, inject_Z_plus. reflexivity. Qed.

Lemma openedByScan_tail now s c coins k p :
  Engine.openedByScan now s coins k p ->
  Engine.openedByScan now s (c :: coins) k p.
Proof.
  intros (feed & tfs & Hin & H). exists feed, tfs.
  split; [now right | exact H].
Qed.

(** The invariants of the scan loop. *)
Lemma scanLoop_inv now M coins :
  forall st,
    let st' := Engine.scanLoop now M coins st in
    let n := List.length (Engine.positions (snd st)) in
    let n' := List.length (Engine.positions (snd st')) in
    sameConfig (fst st') (fst st) /\
    Engine.running (snd st') = Engine.running (snd st) /\
    (forall k p, Engine.mapGet (Engine.positions (snd st)) k = Some p ->
                 Engine.mapGet (Engine.positions (snd st')) k = Some p) /\
    (NoDup (map fst (Engine.positions (snd st))) ->
     NoDup (map fst (Engine.positions (snd st')))) /\
    (n <= n')%nat /\
    ((n < n')%nat -> inject_Z (Z.of_nat n') < M + 1) /\
    (forall k p, Engine.mapGet (Engine.positions (snd st)) k = None ->
                 Engine.mapGet (Engine.positions (snd st')) k = Some p ->
                 Engine.openedByScan now (fst st) coins k p).
Proof.
  induction coins as [|[symbol feed] coins IH]; intro st; cbv zeta.
  - simpl. split; [apply sameConfig_refl|]. split; [reflexivity|].
    split; [auto|]. split; [auto|]. split; [lia|]. split; [lia|].
    intros k p H1 H2. congruence.
  - simpl Engine.scanLoop.
    destruct (Engine.atCapacity (snd st) M) eqn:Hcap.
    { split; [apply sameConfig_refl|]. split; [reflexivity|].
      split; [auto|]. split; [auto|]. split; [lia|]. split; [lia|].
      intros k p H1 H2. congruence. }
    apply atCapacity_false in Hcap.
    destruct (Engine.mapHas (Engine.positions (snd st)) symbol) eqn:Hhas.
    { specialize (IH st). cbv zeta in IH.
      destruct IH as (I1 & I2 & I3 & I4 & I5 & I6 & I7).
      repeat (split; [assumption|]).
      intros k p H1 H2. apply openedByScan_tail. now apply I7. }
    apply mapHas_false in Hhas.
    destruct (considerSymbol_cases now feed symbol st) as (C1 & C2 & C3).
    set (st1 := Engine.considerSymbol now feed symbol st) in *.
    specialize (IH st1). cbv zeta in IH.
    destruct IH as (I1 & I2 & I3 & I4 & I5 & I6 & I7).
    assert (Hmin : futures_min_signal_score (fst st1)
                   = futures_min_signal_score (fst st)).
    { apply (sameConfig_proj futures_min_signal_score);
        [reflexivity | exact C1]. }
    assert (Htail : forall k p,
              Engine.openedByScan now (fst st1) coins k p ->
              Engine.openedByScan now (fst st) ((symbol, feed) :: coins) k p).
    { intros k p (f & tfs & Hin & Ha & Hd & Hs & Hm & Ho).
      exists f, tfs. rewrite <- Hmin. repeat split; try assumption.
      now right. }
    split; [eapply sameConfig_trans; eassumption|].
    split; [congruence|].
    destruct C3 as [Hsame | (tfs & p0 & Ha & Hd & Hs & Hm & Ho & Hsym & Hpos)].
    + rewrite Hsame in *.
      repeat (split; [assumption|]).
      intros k p H1 H2. apply Htail. now apply I7.
    + rewrite Hpos in *.
      rewrite (mapSet_length_absent _ _ _ Hhas) in I5, I6.
      split.
      { intros k p H. apply I3. now apply mapGet_mapSet_keeps. }
      split.
      { intro H. apply I4. now apply mapSet_NoDup. }
      split; [lia|].
      split.
      { intros _.
        destruct (Nat.eq_dec
                    (List.length
                       (Engine.positions
                          (snd (Engine.scanLoop now M coins st1))))
                    (S (List.length (Engine.positions (snd st)))))
          as [E|E].
        - rewrite E, inject_Z_S. lra.
        - apply I6. lia. }
      intros k p H1 H2.
      destruct (Engine.mapGet
                  (Engine.mapSet (Engine.positions (snd st)) symbol p0) k)
        as [q|] eqn:Hq.
      * destruct (mapGet_mapSet_fresh _ _ _ _ _ H1 Hq) as [-> ->].
        rewrite (I3 _ _ Hq) in H2. injection H2 as <-.
        exists feed, tfs. repeat split; try assumption. now left.
      * apply Htail. now apply I7.
Qed.

Lemma scanDayReset_frame now st :
  let st' := Engine.scanDayReset now st in
  sameConfig (fst st') (fst st) /\
  Engine.running (snd st') = Engine.running (snd st) /\
  Engine.positions (snd st') = Engine.positions (snd st) /\
  Engine.riskManager (snd st') = Engine.riskManager (snd st).
Proof.
  destruct st as [s e]. cbv zeta. unfold Engine.scanDayReset.
  destruct (Z.eqb _ _);
    [split; [apply sameConfig_refl|repeat split]|].
  destruct (bot_locked s);
    [|split; [apply sameConfig_refl|repeat split]].
  destruct (bot_lock_until s) as [l|];
    [|split; [apply sameConfig_refl|repeat split]].
  destruct (Z.leb l now);
    [split; [apply sameConfig_setLock|repeat split]
    |split; [apply sameConfig_refl|repeat split]].
Qed.

(** The invariants of a whole scan. *)
Lemma scanSignals_inv now coins st :
  let st' := Engine.scanSignals now coins st in
  let n := List.length (Engine.positions (snd st)) in
  let n' := List.length (Engine.positions (snd st')) in
  sameConfig (fst st') (fst st) /\
  Engine.running (snd st') = Engine.running (snd st) /\
  (forall k p, Engine.mapGet (Engine.positions (snd st)) k = Some p ->
               Engine.mapGet (Engine.positions (snd st')) k = Some p) /\
  (NoDup (map fst (Engine.positions (snd st))) ->
   NoDup (map fst (Engine.positions (snd st')))) /\
  (n <= n')%nat /\
  ((n < n')%nat ->
   inject_Z (Z.of_nat n') < risk_max_open_positions (fst st) + 1) /\
  (forall k p, Engine.mapGet (Engine.positions (snd st)) k = None ->
               Engine.mapGet (Engine.positions (snd st')) k = Some p ->
               Engine.running (snd st) = true /\
               Engine.openedByScan now (fst st) coins k p).
Proof.
  cbv zeta. unfold Engine.scanSignals.
  destruct (Engine.running (snd st)) eqn:Hrun; simpl negb; cbv iota.
  2:{ split; [apply sameConfig_refl|]. split; [exact Hrun|].
      split; [auto|]. split; [auto|]. split; [lia|]. split; [lia|].
      intros k p H1 H2. congruence. }
  destruct (scanDayReset_frame now st) as (D1 & D2 & D3 & D4).
  destruct (Engine.scanDayReset now st) as [s e] eqn:Hreset.
  simpl fst in *. simpl snd in *.
  assert (Hidle :
    sameConfig s (fst st) /\
    Engine.running e = true /\
    (forall k p, Engine.mapGet (Engine.positions (snd st)) k = Some p ->
                 Engine.mapGet (Engine.positions e) k = Some p) /\
    (NoDup (map fst (Engine.positions (snd st))) ->
     NoDup (map fst (Engine.positions e))) /\
    (List.length (Engine.positions (snd st))
     <= List.length (Engine.positions e))%nat /\
    ((List.length (Engine.positions (snd st))
      < List.length (Engine.positions e))%nat ->
     inject_Z (Z.of_nat (List.length (Engine.positions e)))
     < risk_max_open_positions (fst st) + 1) /\
    (forall k p, Engine.mapGet (Engine.positions (snd st)) k = None ->
                 Engine.mapGet (Engine.positions e) k = Some p ->
                 true = true /\
                 Engine.openedByScan now (fst st) coins k p)).
  { rewrite D3. split; [exact D1|]. split; [congruence|].
    split; [auto|]. split; [auto|]. split; [lia|]. split; [lia|].
    intros k p H1 H2. congruence. }
  destruct (bot_locked s); [exact Hidle|].
  destruct (Engine.atCapacity e (risk_max_open_positions s)); [exact Hidle|].
  clear Hidle.
  pose proof (scanLoop_inv now (risk_max_open_positions s) coins (s, e)) as H.
  cbv zeta in H. simpl fst in H. simpl snd in H.
  destruct H as (I1 & I2 & I3 & I4 & I5 & I6 & I7).
  assert (HM : risk_max_open_positions s = risk_max_open_positions (fst st)).
  { apply (sameConfig_proj risk_max_open_positions);
      [reflexivity | exact D1]. }
  assert (Hmin : futures_min_signal_score s
                 = futures_min_signal_score (fst st)).
  { apply (sameConfig_proj futures_min_signal_score);
      [reflexivity | exact D1]. }
  rewrite D3 in *. rewrite HM in *.
  split; [eapply sameConfig_trans; eassumption|].
  split; [congruence|].
  repeat (split; [assumption|]).
  intros k p H1 H2. split; [reflexivity|].
  destruct (I7 k p H1 H2) as (f & tfs & Hin & Ha & Hd & Hs & Hm & Ho).
  exists f, tfs. rewrite <- Hmin. repeat split; assumption.
Qed.

(** X10.  A scan respects the cap on open positions and never drops an
    entry.  For a whole-number [risk.max_open_positions] of [m], the book
    after [scanSignals] is at least as long as before and at most as long
    as the larger of [m] and its length before. *)
Theorem scanSignals_respects_position_cap
    (now : Z) (coins : list (string * Feed.t)) (st : Engine.State) (m : Z) :
  risk_max_open_positions (fst st) == inject_Z m ->
  let n := List.length (Engine.positions (snd st)) in
  let n' :=
    List.length (Engine.positions (snd (Engine.scanSignals now coins st))) in
  (n <= n')%nat /\ (Z.of_nat n' <= Z.max (Z.of_nat n) m)%Z.
Proof.
  intro Hm. cbv zeta.
  destruct (scanSignals_inv now coins st) as (_ & _ & _ & _ & H5 & H6 & _).
  split; [exact H5|].
  set (n := List.length (Engine.positions (snd st))) in *.
  set (n' := List.length
               (Engine.positions (snd (Engine.scanSignals now coins st)))) in *.
  destruct (Nat.eq_dec n n') as [<-|Hne]; [lia|].
  assert (Hlt : (n < n')%nat) by lia.
  specialize (H6 Hlt). rewrite Hm in H6.
  assert (H : inject_Z (Z.of_nat n') < inject_Z (m + 1)).
  { rewrite inject_Z_plus. exact H6. }
  rewrite <- Zlt_Qlt in H. lia.
Qed.

(** ** A scan on concrete data *)

(** Three coins, each with a full-score long signal, on a fresh running
    engine with the default cap of 2: the scan opens the first two and
    stops. *)
Lemma scanSignals_respects_position_cap_witness :
  let x := Snapshot.mk (Some 100) (Some 20)
             (Some (Macd.mk 1 0 1)) (Some (Macd.mk 0 0 0))
             (Some (Bollinger.mk 200 150 50 0 true))
             (Ema.mk (Some 3) (Some 2) (Some 1)) None (Some 1) (Some 1)
             (Some 2) in
  let tfs := Timeframes.mk (Timeframe.Analysed buy x)
               (Timeframe.Analysed strong_buy x) (Timeframe.Analysed buy x) in
  let feed := Feed.mk (Some tfs) (Gateway.mk None (Some (Some 100)) None) in
  let coins := [("BTC/USDT"%string, feed); ("ETH/USDT"%string, feed); ("SOL/USDT"%string, feed)] in
  let st := (Db.defaults, Engine.mkEngine (Risk.create 0) true [] 0 0) in
  map fst (Engine.positions (snd (Engine.scanSignals 0 coins st)))
    = ["BTC/USDT"; "ETH/USDT"]%string /\
  (Z.of_nat (List.length
               (Engine.positions (snd (Engine.scanSignals 0 coins st))))
   <= Z.max 0 2)%Z.
Proof.
  cbv zeta. split; [vm_compute; reflexivity|].
  refine (proj2 (scanSignals_respects_position_cap 0 _
                   (Db.defaults, Engine.mkEngine (Risk.create 0) true [] 0 0)
                   2 _)).
  reflexivity.
Defined.

(** X11.  A scan only adds.  Every entry held before [scanSignals] is
    still there, unchanged, afterwards; the book keeps one entry per
    symbol; and an entry that is new after the scan was opened at the scan
    instant by a running engine, for a coin of the list whose analysis gave
    the entry its direction and score, the score being at least
    [futures.min_signal_score]. *)
Theorem scanSignals_only_adds_qualified_entries
    (now : Z) (coins : list (string * Feed.t)) (st : Engine.State)
    (k : string) (p : Position.t) :
  let before := Engine.positions (snd st) in
  let after := Engine.positions (snd (Engine.scanSignals now coins st)) in
  (Engine.mapGet before k = Some p -> Engine.mapGet after k = Some p) /\
  (NoDup (map fst before) -> NoDup (map fst after)) /\
  (Engine.mapGet before k = None -> Engine.mapGet after k = Some p ->
   Engine.running (snd st) = true /\
   Engine.openedByScan now (fst st) coins k p).
Proof.
  cbv zeta.
  destruct (scanSignals_inv now coins st) as (_ & _ & H3 & H4 & _ & _ & H7).
  split; [apply H3|]. split; [exact H4|]. apply H7.
Qed.

(** An engine holding BTC scans ETH with a full-score signal on offer:
    the BTC entry is untouched. *)
Lemma scanSignals_only_adds_qualified_entries_witness :
  let x := Snapshot.mk (Some 100) (Some 20)
             (Some (Macd.mk 1 0 1)) (Some (Macd.mk 0 0 0))
             (Some (Bollinger.mk 200 150 50 0 true))
             (Ema.mk (Some 3) (Some 2) (Some 1)) None (Some 1) (Some 1)
             (Some 2) in
  let tfs := Timeframes.mk (Timeframe.Analysed buy x)
               (Timeframe.Analysed strong_buy x) (Timeframe.Analysed buy x) in
  let feed := Feed.mk (Some tfs) (Gateway.mk None (Some (Some 100)) None) in
  let p := Position.mk "BTC/USDT" long 100 100 1 2 (Leverage.Normal 2)
             98 107 false None false 7 50 100 0 0 0 in
  let st := (Db.defaults,
             Engine.mkEngine (Risk.create 0) true
               [("BTC/USDT"%string, p)] 0 0) in
  map fst (Engine.positions
             (snd (Engine.scanSignals 0 [("ETH/USDT"%string, feed)] st)))
    = ["BTC/USDT"; "ETH/USDT"]%string /\
  Engine.mapGet
    (Engine.positions
       (snd (Engine.scanSignals 0 [("ETH/USDT"%string, feed)] st)))
    "BTC/USDT" = Some p.
Proof.
  cbv zeta. split; [vm_compute; reflexivity|].
  refine (proj1 (scanSignals_only_adds_qualified_entries 0 _
                   (Db.defaults,
                    Engine.mkEngine (Risk.create 0) true
                      [("BTC/USDT"%string,
                        Position.mk "BTC/USDT" long 100 100 1 2
                          (Leverage.Normal 2) 98 107 false None false
                          7 50 100 0 0 0)] 0 0)
                   "BTC/USDT" _) eq_refl).
Defined.

(** A scan under a lock that holds. *)
Lemma scanSignals_locked
    (now : Z) (coins : list (string * Feed.t)) (st : Engine.State) :
  bot_locked (fst st) = true ->
  (dayOf now = Engine.dailyPnLReset (snd st) \/
   forall L, bot_lock_until (fst st) = Some L -> (now < L)%Z) ->
  let st' := Engine.scanSignals now coins st in
  fst st' = fst st /\
  Engine.positions (snd st') = Engine.positions (snd st) /\
  Engine.riskManager (snd st') = Engine.riskManager (snd st) /\
  Engine.running (snd st') = Engine.running (snd st).
Proof.
  intros Hlock Hhold. cbv zeta. destruct st as [s e].
  cbn [fst snd] in Hlock, Hhold.
  assert (Hreset :
    fst (Engine.scanDayReset now (s, e)) = s /\
    Engine.positions (snd (Engine.scanDayReset now (s, e)))
      = Engine.positions e /\
    Engine.riskManager (snd (Engine.scanDayReset now (s, e)))
      = Engine.riskManager e /\
    Engine.running (snd (Engine.scanDayReset now (s, e)))
      = Engine.running e).
  { unfold Engine.scanDayReset.
    destruct (Z.eqb (dayOf now) (Engine.dailyPnLReset e)) eqn:Hday;
      [repeat split|].
    apply Z.eqb_neq in Hday.
    destruct Hhold as [Hsame | Hlater]; [contradiction|].
    rewrite Hlock.
    destruct (bot_lock_until s) as [L|]; [|repeat split].
    specialize (Hlater L eq_refl).
    destruct (Z.leb L now) eqn:HL; [apply Z.leb_le in HL; lia|].
    repeat split. }
  unfold Engine.scanSignals. cbn [fst snd].
  destruct (Engine.running e) eqn:Hrun; cbn [negb];
    [|repeat split; exact Hrun].
  destruct (Engine.scanDayReset now (s, e)) as [s1 e1].
  cbn [fst snd] in Hreset.
  destruct Hreset as (-> & Hp & Hrm & Hr).
  rewrite Hlock. cbn [fst snd]. repeat split; assumption.
Qed.

(** X12.  A locked bot opens nothing.  While [bot.locked] is set and
    either the engine already scanned today or the lock has not expired,
    [scanSignals] leaves the store, the book and the risk manager as they
    were.  In particular an expired lock is lifted by the scan only on the
    first scan of a new local day. *)
Theorem scanSignals_blocked_while_locked
    (now : Z) (coins : list (string * Feed.t)) (st : Engine.State) :
  bot_locked (fst st) = true ->
  (dayOf now = Engine.dailyPnLReset (snd st) \/
   forall L, bot_lock_until (fst st) = Some L -> (now < L)%Z) ->
  let st' := Engine.scanSignals now coins st in
  fst st' = fst st /\
  Engine.positions (snd st') = Engine.positions (snd st) /\
  Engine.riskManager (snd st') = Engine.riskManager (snd st) /\
  Engine.running (snd st') = Engine.running (snd st).
Proof.
  intros Hlock Hhold.
  exact (scanSignals_locked now coins st Hlock Hhold).
Qed.

(** A bot locked until the next midnight, scanned an hour into the day
    with a full-score signal on offer: nothing is opened. *)
Lemma scanSignals_blocked_while_locked_witness :
  let x := Snapshot.mk (Some 100) (Some 20)
             (Some (Macd.mk 1 0 1)) (Some (Macd.mk 0 0 0))
             (Some (Bollinger.mk 200 150 50 0 true))
             (Ema.mk (Some 3) (Some 2) (Some 1)) None (Some 1) (Some 1)
             (Some 2) in
  let tfs := Timeframes.mk (Timeframe.Analysed buy x)
               (Timeframe.Analysed strong_buy x) (Timeframe.Analysed buy x) in
  let feed := Feed.mk (Some tfs) (Gateway.mk None (Some (Some 100)) None) in
  let st := (setLock Db.defaults true (Some (nextMidnight 0)),
             Engine.mkEngine (Risk.create 0) true [] 0 0) in
  Engine.positions
    (snd (Engine.scanSignals 3600000 [("BTC/USDT"%string, feed)] st)) = [].
Proof.
  cbv zeta.
  refine (proj1 (proj2 (scanSignals_blocked_while_locked 3600000 _
                          (setLock Db.defaults true (Some (nextMidnight 0)),
                           Engine.mkEngine (Risk.create 0) true [] 0 0)
                          eq_refl _))).
  left. reflexivity.
Defined.

Lemma fire_when_stopped now f st :
  Engine.running (snd st) = false -> Engine.fire now f st = st.
Proof.
  intro H. destruct f as [coins | gw]; simpl.
  - unfold Engine.scanSignals. now rewrite H.
  - destruct st as [s e]. unfold Engine.monitorPositions.
    simpl in H. now rewrite H.
Qed.

(** X13.  A stopped engine is inert.  [stop()] keeps the book as it is,
    and no later firing of the scan or the monitor timer changes anything:
    the entries that were open stay in the book, unmonitored.  [start()]
    on an engine that is already running changes nothing either. *)
Theorem stopped_engine_is_inert
    (firings : list (Z * Engine.Firing)) (now : Z)
    (coins : list (string * Feed.t)) (st : Engine.State) :
  Engine.fireAll firings (Engine.stop st) = Engine.stop st /\
  Engine.positions (snd (Engine.fireAll firings (Engine.stop st)))
    = Engine.positions (snd st) /\
  (Engine.running (snd st) = true -> Engine.start now coins st = st).
Proof.
  assert (H : Engine.fireAll firings (Engine.stop st) = Engine.stop st).
  { assert (Hr : Engine.running (snd (Engine.stop st)) = false)
      by reflexivity.
    revert Hr. generalize (Engine.stop st) as st0.
    induction firings as [|[t f] firings IH]; intros st0 Hr; [reflexivity|].
    unfold Engine.fireAll in *. simpl fold_left.
    simpl fst. simpl snd. rewrite (fire_when_stopped t f st0 Hr).
    now apply IH. }
  split; [exact H|]. split; [now rewrite H|].
  intro Hr. unfold Engine.start. now rewrite Hr.
Qed.

(** A stopped engine holding a long whose stop has been crossed: the
    monitor firing leaves it in the book. *)
Lemma stopped_engine_is_inert_witness :
  let p := Position.mk "BTC/USDT" long 100 100 1 2 (Leverage.Normal 2)
             98 107 false None false 7 50 100 0 0 0 in
  let st := (Db.defaults,
             Engine.mkEngine (Risk.create 0) true [("BTC/USDT"%string, p)] 0 0) in
  let crash := fun _ : string => Gateway.mk (Some 90) None None in
  map fst (Engine.positions
             (snd (Engine.fireAll [(1%Z, Engine.Monitor crash)]
                     (Engine.stop st)))) = ["BTC/USDT"%string] /\
  Engine.start 0 [] st = st.
Proof.
  cbv zeta. split; [reflexivity|].
  refine (proj2 (proj2 (stopped_engine_is_inert [] 0 []
                          (Db.defaults,
                           Engine.mkEngine (Risk.create 0) true
                             [("BTC/USDT"%string,
                               Position.mk "BTC/USDT" long 100 100 1 2
                                 (Leverage.Normal 2) 98 107 false None false
                                 7 50 100 0 0 0)] 0 0))) eq_refl).
Defined.

(* ================================================================== *)
(** * Further properties of the position monitor *)

Lemma sameTrade_refl p : Engine.sameTrade p p.
Proof. repeat split. Qed.

Lemma sameTrade_trans p q r :
  Engine.sameTrade p q -> Engine.sameTrade q r -> Engine.sameTrade p r.
Proof.
  unfold Engine.sameTrade.
  intros (A1 & A2 & A3 & A4 & A5 & A6 & A7 & A8 & A9 & A10)
         (B1 & B2 & B3 & B4 & B5 & B6 & B7 & B8 & B9 & B10).
  repeat split; congruence.
Qed.

Lemma markToMarket_trade p cur :
  Engine.sameTrade p (Engine.markToMarket p cur) /\
  Position.currentPrice (Engine.markToMarket p cur) = cur /\
  Position.pnl (Engine.markToMarket p cur)
    = Engine.move p cur * Position.amount p.
Proof.
  unfold Engine.markToMarket, Engine.move, Engine.sameTrade.
  destruct (Position.direction p) eqn:E; cbn; rewrite ?E; repeat split.
Qed.

Lemma activateTrailing_trade s p cur :
  Engine.sameTrade p (Engine.activateTrailing s p cur) /\
  Engine.sameMark p (Engine.activateTrailing s p cur).
Proof.
  unfold Engine.activateTrailing.
  destruct (_ && _); cbn; repeat split.
Qed.

Lemma ratchetTrailing_trade s p cur :
  Engine.sameTrade p (Engine.ratchetTrailing s p cur) /\
  Engine.sameMark p (Engine.ratchetTrailing s p cur).
Proof.
  unfold Engine.ratchetTrailing.
  destruct (Position.direction p) eqn:E;
    match goal with |- context [if ?c then _ else _] => destruct c end;
    unfold Engine.sameTrade, Engine.sameMark; cbn; rewrite ?E; repeat split.
Qed.

Lemma partialClose_trade s g p :
  Engine.sameTrade p (Engine.partialClose s g p) /\
  Engine.sameMark p (Engine.partialClose s g p).
Proof.
  unfold Engine.partialClose.
  destruct (_ && _); [destruct (Gateway.orderPlaced g)|]; cbn; repeat split.
Qed.

(** Without a usable price the iteration is skipped. *)
Lemma monitorPosition_no_price s g p :
  (forall cur, Gateway.tickerLast g = Some cur -> cur == 0) ->
  Engine.monitorPosition s g p = (p, None).
Proof.
  intro H. unfold Engine.monitorPosition.
  destruct (Gateway.tickerLast g) as [cur|]; [|reflexivity].
  assert (E : truthyQ cur = false)
    by (apply truthyQ_false_iff; now apply H).
  now rewrite E.
Qed.

(** What one iteration with a price leaves behind: the trade is the same,
    the marks are those of the fresh price, and a close is requested only
    with the quantity untouched. *)
Lemma monitorPosition_marks s g p cur :
  Gateway.tickerLast g = Some cur -> ~ cur == 0 ->
  let p' := fst (Engine.monitorPosition s g p) in
  Engine.sameTrade p p' /\
  Position.currentPrice p' = cur /\
  Position.pnl p' = Engine.move p cur * Position.amount p /\
  (snd (Engine.monitorPosition s g p) <> None ->
   Position.amount p' = Position.amount p).
Proof.
  intros Ht Hnz. cbv zeta. unfold Engine.monitorPosition. rewrite Ht.
  assert (E : truthyQ cur = true) by now apply truthyQ_true_iff.
  rewrite E. simpl negb. cbv iota.
  destruct (markToMarket_trade p cur) as (M1 & M2 & M3).
  destruct (markToMarket_frame p cur) as (_ & _ & Ma & _).
  set (p1 := Engine.markToMarket p cur) in *.
  destruct (Engine.hitSL p1 cur);
    [cbn [fst snd]; split; [exact M1|]; split; [exact M2|];
     split; [exact M3|]; intros _; exact Ma|].
  destruct (Engine.hitTP p1 cur);
    [cbn [fst snd]; split; [exact M1|]; split; [exact M2|];
     split; [exact M3|]; intros _; exact Ma|].
  destruct (activateTrailing_trade s p1 cur) as (A1 & A2 & A3 & _).
  destruct (activateTrailing_frame s p1 cur) as (_ & _ & Aa & _).
  set (p2 := Engine.activateTrailing s p1 cur) in *.
  destruct (Position.trailingStopActive p2).
  - destruct (ratchetTrailing_trade s p2 cur) as (R1 & R2 & R3 & _).
    destruct (ratchetTrailing_frame s p2 cur) as (_ & _ & Ra & _).
    set (p3 := Engine.ratchetTrailing s p2 cur) in *.
    destruct (Engine.hitTrailing p3 cur); cbn [fst snd].
    + split; [eauto using sameTrade_trans|].
      split; [congruence|]. split; [congruence|]. intros _. congruence.
    + destruct (partialClose_trade s g p3) as (P1 & P2 & P3 & _).
      split; [eauto using sameTrade_trans|].
      split; [congruence|]. split; [congruence|]. intro H. congruence.
  - cbn [fst snd].
    destruct (partialClose_trade s g p2) as (P1 & P2 & P3 & _).
    split; [eauto using sameTrade_trans|].
    split; [congruence|]. split; [congruence|]. intro H. congruence.
Qed.

(** X14.  The exit decision of one monitor iteration.  Without a usable
    price (no ticker, or a last price of 0) the entry is left as it is and
    nothing is closed.  With a price, the entry is marked at it; the stop
    is tested first and the target second, each against the levels the
    entry had when the iteration began; and when no close is requested
    the price lies strictly between stop and target and strictly on the
    safe side of an active trailing stop. *)
Theorem monitorPosition_exit_decision
    (s : Settings) (g : Gateway.t) (p : Position.t) :
  let p' := fst (Engine.monitorPosition s g p) in
  let request := snd (Engine.monitorPosition s g p) in
  ((forall cur, Gateway.tickerLast g = Some cur -> cur == 0) ->
   p' = p /\ request = None) /\
  (forall cur, Gateway.tickerLast g = Some cur -> ~ cur == 0 ->
   Position.currentPrice p' = cur /\
   match Position.direction p with
   | long =>
       (cur <= Position.stopLoss p -> request = Some STOP_LOSS) /\
       (Position.stopLoss p < cur -> Position.takeProfit p <= cur ->
        request = Some TAKE_PROFIT) /\
       (request = None ->
        Position.stopLoss p < cur /\ cur < Position.takeProfit p /\
        (Position.trailingStopActive p' = true ->
         Position.tslValue p' < cur))
   | short =>
       (Position.stopLoss p <= cur -> request = Some STOP_LOSS) /\
       (cur < Position.stopLoss p -> cur <= Position.takeProfit p ->
        request = Some TAKE_PROFIT) /\
       (request = None ->
        cur < Position.stopLoss p /\ Position.takeProfit p < cur /\
        (Position.trailingStopActive p' = true ->
         cur < Position.tslValue p'))
   end).
Proof.
  cbv zeta. split.
  { intro H. rewrite (monitorPosition_no_price s g p H). split; reflexivity. }
  intros cur Ht Hnz.
  split; [exact (proj1 (proj2 (monitorPosition_marks s g p cur Ht Hnz)))|].
  unfold Engine.monitorPosition. rewrite Ht.
  assert (E : truthyQ cur = true) by now apply truthyQ_true_iff.
  rewrite E. simpl negb. cbv iota.
  destruct (markToMarket_trade p cur) as ((_ & Md & _ & _ & _ & Mt & _) & _).
  destruct (markToMarket_frame p cur) as (_ & _ & _ & Ms & _).
  set (p1 := Engine.markToMarket p cur) in *.
  rewrite (hitSL_frame p p1 cur Md Ms), (hitTP_frame p p1 cur Md Mt).
  assert (Htrail :
    forall q, Position.direction q = Position.direction p ->
      Engine.hitTrailing q cur = false ->
      match Position.direction p with
      | long => Position.tslValue q < cur
      | short => cur < Position.tslValue q
      end).
  { intros q Hq. unfold Engine.hitTrailing. rewrite Hq.
    destruct (Position.direction p); intro H.
    - now apply Qleb_false_iff in H.
    - now apply Qgeb_false_iff in H. }
  assert (Hkeep :
    forall q, Position.trailingStopActive (Engine.partialClose s g q)
              = Position.trailingStopActive q /\
              Position.tslValue (Engine.partialClose s g q)
              = Position.tslValue q).
  { intro q. destruct (partialClose_frame s g q) as (_ & _ & _ & Ha & Hp).
    split; [exact Ha|]. unfold Position.tslValue. now rewrite Hp. }
  destruct (activateTrailing_frame s p1 cur) as (Ad & _).
  destruct (ratchetTrailing_frame s (Engine.activateTrailing s p1 cur) cur)
    as (Rd & _ & _ & _ & _ & _ & Ra).
  unfold Engine.hitSL, Engine.hitTP.
  destruct (Position.direction p) eqn:Hdir.
  - destruct (Qleb cur (Position.stopLoss p)) eqn:Hsl.
    { apply Qleb_true_iff in Hsl. cbn [fst snd].
      split; [reflexivity|]. split; [intros; lra|]. discriminate. }
    apply Qleb_false_iff in Hsl.
    destruct (Qgeb cur (Position.takeProfit p)) eqn:Htp.
    { apply Qgeb_true_iff in Htp. cbn [fst snd].
      split; [intros; lra|]. split; [reflexivity|]. discriminate. }
    apply Qgeb_false_iff in Htp.
    split; [intros; lra|]. split; [intros; lra|].
    destruct (Position.trailingStopActive (Engine.activateTrailing s p1 cur))
      eqn:Hact.
    + destruct (Engine.hitTrailing _ cur) eqn:Hhit; cbn [fst snd];
        [discriminate|].
      intros _. split; [exact Hsl|]. split; [exact Htp|]. intros _.
      rewrite (proj2 (Hkeep _)).
      apply (Htrail _ (eq_trans Rd (eq_trans Ad Md)) Hhit).
    + cbn [fst snd]. intros _. split; [exact Hsl|]. split; [exact Htp|].
      rewrite (proj1 (Hkeep _)), Hact. discriminate.
  - destruct (Qgeb cur (Position.stopLoss p)) eqn:Hsl.
    { apply Qgeb_true_iff in Hsl. cbn [fst snd].
      split; [reflexivity|]. split; [intros; lra|]. discriminate. }
    apply Qgeb_false_iff in Hsl.
    destruct (Qleb cur (Position.takeProfit p)) eqn:Htp.
    { apply Qleb_true_iff in Htp. cbn [fst snd].
      split; [intros; lra|]. split; [reflexivity|]. discriminate. }
    apply Qleb_false_iff in Htp.
    split; [intros; lra|]. split; [intros; lra|].
    destruct (Position.trailingStopActive (Engine.activateTrailing s p1 cur))
      eqn:Hact.
    + destruct (Engine.hitTrailing _ cur) eqn:Hhit; cbn [fst snd];
        [discriminate|].
      intros _. split; [exact Hsl|]. split; [exact Htp|]. intros _.
      rewrite (proj2 (Hkeep _)).
      apply (Htrail _ (eq_trans Rd (eq_trans Ad Md)) Hhit).
    + cbn [fst snd]. intros _. split; [exact Hsl|]. split; [exact Htp|].
      rewrite (proj1 (Hkeep _)), Hact. discriminate.
Qed.

(** A long from 100 with stop 98 and target 107: a price of 97 asks for a
    stop-loss close. *)
Lemma monitorPosition_exit_decision_witness :
  let p := Position.mk "BTC/USDT" long 100 100 1 2 (Leverage.Normal 2)
             98 107 false None false 7 50 100 0 0 0 in
  snd (Engine.monitorPosition Db.defaults (Gateway.mk (Some 97) None None) p)
  = Some STOP_LOSS.
Proof.
  cbv zeta.
  refine (proj1 (proj2 (proj2 (monitorPosition_exit_decision Db.defaults
                                 (Gateway.mk (Some 97) None None)
                                 (Position.mk "BTC/USDT" long 100 100 1 2
                                    (Leverage.Normal 2) 98 107 false None
                                    false 7 50 100 0 0 0))
                          97 eq_refl _)) _).
  - vm_compute. discriminate.
  - vm_compute. discriminate.
Defined.

Lemma Qgtb_irrefl a : Qgtb a a = false.
Proof. apply Qgtb_false_iff. apply Qle_refl. Qed.

(** X15.  The tick that activates the trailing stop.  For a positive price
    and trailing distance, when neither stop nor target is hit and the
    marked P&L percentage reaches the activation threshold on an entry
    whose trailing stop is off, the iteration switches it on at exactly
    the level [RiskManager.calculateTrailingStop] gives for that price,
    strictly on the safe side of the price, and does not ask for a close. *)
Theorem trailing_activation_tick
    (s : Settings) (g : Gateway.t) (p : Position.t) (cur : Q) :
  Gateway.tickerLast g = Some cur ->
  0 < cur ->
  0 < futures_trailing_stop_distance_pct s ->
  Position.trailingStopActive p = false ->
  Engine.hitSL p cur = false ->
  Engine.hitTP p cur = false ->
  futures_trailing_stop_activate_pct s
    <= Position.pnlPct (Engine.markToMarket p cur) ->
  let p' := fst (Engine.monitorPosition s g p) in
  let level :=
    RiskTools.calculateTrailingStop cur (Position.direction p)
      (futures_trailing_stop_distance_pct s) in
  Position.trailingStopActive p' = true /\
  Position.trailingStopPrice p' = Some level /\
  snd (Engine.monitorPosition s g p) = None /\
  match Position.direction p with
  | long => level < cur
  | short => cur < level
  end.
Proof.
  intros Ht Hcur Hdist Hoff Hsl Htp Hpct. cbv zeta.
  unfold Engine.monitorPosition. rewrite Ht.
  assert (E : truthyQ cur = true) by (apply truthyQ_true_iff; lra).
  rewrite E. simpl negb. cbv iota.
  destruct (markToMarket_trade p cur) as ((_ & Md & _ & _ & _ & Mt & _) & _).
  destruct (markToMarket_frame p cur) as (_ & _ & _ & Ms & _ & Ma & _).
  set (p1 := Engine.markToMarket p cur) in *.
  rewrite (hitSL_frame p p1 cur Md Ms), Hsl.
  rewrite (hitTP_frame p p1 cur Md Mt), Htp.
  assert (Hd : 0 < cur * (futures_trailing_stop_distance_pct s / 100)).
  { apply Qmult_lt_0_compat; [exact Hcur|].
    apply Qlt_shift_div_l; lra. }
  assert (Hact : Engine.activateTrailing s p1 cur
                 = Position.setTrailing p1 true
                     (Some (RiskTools.calculateTrailingStop cur
                              (Position.direction p)
                              (futures_trailing_stop_distance_pct s)))).
  { unfold Engine.activateTrailing. rewrite Ma, Hoff.
    assert (Hge : Qgeb (Position.pnlPct p1)
                    (futures_trailing_stop_activate_pct s) = true)
      by now apply Qgeb_true_iff.
    rewrite Hge, Md. reflexivity. }
  rewrite Hact.
  cbn [Position.trailingStopActive Position.setTrailing].
  set (level := RiskTools.calculateTrailingStop cur (Position.direction p)
                  (futures_trailing_stop_distance_pct s)) in *.
  set (p2 := Position.setTrailing p1 true (Some level)).
  assert (Hr : Engine.ratchetTrailing s p2 cur = p2).
  { unfold Engine.ratchetTrailing, Position.tslValue.
    cbn [Position.direction Position.trailingStopPrice p2
         Position.setTrailing].
    rewrite Md. unfold level, RiskTools.calculateTrailingStop.
    destruct (Position.direction p).
    - now rewrite Qgtb_irrefl.
    - now rewrite Qltb_irrefl. }
  change (Position.mk (Position.symbol p1) (Position.direction p1)
            (Position.entryPrice p1) (Position.currentPrice p1)
            (Position.amount p1) (Position.leverage p1)
            (Position.leverageMode p1) (Position.stopLoss p1)
            (Position.takeProfit p1) true (Some level)
            (Position.partialClosed p1) (Position.score p1)
            (Position.margin p1) (Position.positionValue p1)
            (Position.openedAt p1) (Position.pnl p1) (Position.pnlPct p1))
    with p2.
  rewrite Hr.
  assert (Hside : match Position.direction p with
                  | long => level < cur
                  | short => cur < level
                  end).
  { unfold level, RiskTools.calculateTrailingStop.
    destruct (Position.direction p); lra. }
  assert (Hhit : Engine.hitTrailing p2 cur = false).
  { unfold Engine.hitTrailing, Position.tslValue.
    cbn [Position.direction Position.trailingStopPrice p2
         Position.setTrailing].
    rewrite Md. destruct (Position.direction p).
    - now apply Qleb_false_iff.
    - now apply Qgeb_false_iff. }
  rewrite Hhit. cbn [fst snd].
  destruct (partialClose_frame s g p2) as (_ & _ & _ & Pa & Pp).
  rewrite Pa, Pp. repeat split. exact Hside.
Qed.

(** A 2x long from 100 marked at 102 (P&L 4%): the trailing stop comes on
    at 102 less 1.5%, 100.47. *)
Lemma trailing_activation_tick_witness :
  let p := Position.mk "BTC/USDT" long 100 100 1 2 (Leverage.Normal 2)
             98 107 false None false 7 50 100 0 0 0 in
  let g := Gateway.mk (Some 102) None None in
  Position.trailingStopPrice (fst (Engine.monitorPosition Db.defaults g p))
    = Some (RiskTools.calculateTrailingStop 102 long 1.5) /\
  RiskTools.calculateTrailingStop 102 long 1.5 == 100.47.
Proof.
  cbv zeta. split; [|reflexivity].
  refine (proj1 (proj2 (trailing_activation_tick Db.defaults
                          (Gateway.mk (Some 102) None None)
                          (Position.mk "BTC/USDT" long 100 100 1 2
                             (Leverage.Normal 2) 98 107 false None false
                             7 50 100 0 0 0)
                          102 eq_refl _ _ eq_refl eq_refl eq_refl _))).
  - reflexivity.
  - reflexivity.
  - vm_compute. discriminate.
Defined.

Lemma monitorPosition_trade s g p :
  Engine.sameTrade p (fst (Engine.monitorPosition s g p)).
Proof.
  destruct (Gateway.tickerLast g) as [cur|] eqn:Ht.
  - destruct (Qeq_dec cur 0) as [Hz|Hnz].
    + rewrite monitorPosition_no_price; [apply sameTrade_refl|].
      intros c Hc. congruence.
    + exact (proj1 (monitorPosition_marks s g p cur Ht Hnz)).
  - rewrite monitorPosition_no_price; [apply sameTrade_refl|].
    intros c Hc. congruence.
Qed.

Lemma monitorPosition_amount s g p :
  0 <= futures_partial_close_amount s <= 100 ->
  0 <= Position.amount p ->
  0 <= Position.amount (fst (Engine.monitorPosition s g p))
    <= Position.amount p.
Proof.
  intros Hs Ha.
  destruct (monitorPosition_cases s g p)
    as (_ & _ & [(E & _) | ((_ & _ & _ & E) & _)]); rewrite E.
  - lra.
  - set (a := Position.amount p) in *.
    set (c := futures_partial_close_amount s) in *.
    assert (H1 : 0 <= c / 100) by (apply Qle_shift_div_l; lra).
    assert (H2 : c / 100 <= 1) by (apply Qle_shift_div_r; lra).
    split; nra.
Qed.

(** X16.  The monitor never rewrites the trade and never adds to it.  Over
    any run of monitor iterations on an entry its symbol, direction, entry
    price, leverage, target, score, margin, notional and opening time stay
    what [openPosition] wrote; and as long as the configured partial-close
    share is between 0 and 100 percent, the quantity never grows and never
    goes below zero. *)
Theorem monitor_keeps_the_trade
    (ticks : list (Settings * Gateway.t)) (p : Position.t) :
  Forall (fun tick => 0 <= futures_partial_close_amount (fst tick) <= 100)
    ticks ->
  0 <= Position.amount p ->
  Engine.sameTrade p (Engine.afterTicks ticks p) /\
  0 <= Position.amount (Engine.afterTicks ticks p) <= Position.amount p.
Proof.
  intros Hticks. revert p.
  induction Hticks as [|[s g] ticks Hs _ IH]; intros p Ha.
  - split; [apply sameTrade_refl|]. simpl. lra.
  - rewrite afterTicks_cons. cbn [fst snd] in *.
    pose proof (monitorPosition_amount s g p Hs Ha) as H1.
    destruct (IH (fst (Engine.monitorPosition s g p)) (proj1 H1))
      as [I1 I2].
    split.
    + eapply sameTrade_trans; [apply monitorPosition_trade | exact I1].
    + lra.
Qed.

(** A 2x long of 1 unit from 100: marked at 103 (P&L 6%) half is closed,
    marked at 104 afterwards nothing more is; the target stays at 107. *)
Lemma monitor_keeps_the_trade_witness :
  let p := Position.mk "BTC/USDT" long 100 100 1 2 (Leverage.Normal 2)
             98 107 false None false 7 50 100 0 0 0 in
  let ticks := [(Db.defaults, Gateway.mk (Some 103) None None);
                (Db.defaults, Gateway.mk (Some 104) None None)] in
  Position.amount (Engine.afterTicks ticks p) == 0.5 /\
  Position.takeProfit (Engine.afterTicks ticks p) = 107.
Proof.
  cbv zeta. split; [reflexivity|].
  assert (H := monitor_keeps_the_trade
                 [(Db.defaults, Gateway.mk (Some 103) None None);
                  (Db.defaults, Gateway.mk (Some 104) None None)]
                 (Position.mk "BTC/USDT" long 100 100 1 2 (Leverage.Normal 2)
                    98 107 false None false 7 50 100 0 0 0)).
  destruct H as [(_ & _ & _ & _ & _ & Htp & _) _].
  - repeat constructor; vm_compute; discriminate.
  - vm_compute. discriminate.
  - exact Htp.
Defined.

(* ================================================================== *)
(** * Closing a position *)

Lemma recordPnL_ledger now pnl s rm :
  let st' := Risk.recordPnL now pnl (s, rm) in
  Risk.dailyPnL (snd st') = Risk.dailyPnL rm + pnl /\
  Risk.dailyTradeCount (snd st') = S (Risk.dailyTradeCount rm) /\
  Risk.currentDay (snd st') = Risk.currentDay rm /\
  (bot_locked s = true -> bot_locked (fst st') = true).
Proof.
  cbv zeta. unfold Risk.recordPnL.
  destruct (Qltb _ _); cbn; repeat split; auto.
Qed.

(** On a store that accepts writes the closer definitions are the ones
    used so far. *)
Lemma recordPnLOn_accepts now pnl st :
  Risk.recordPnLOn Accepts now pnl st = (Risk.recordPnL now pnl st, false).
Proof.
  destruct st as [s rm]. unfold Risk.recordPnLOn, Risk.recordPnL.
  cbv zeta. destruct (Qltb _ _); reflexivity.
Qed.

(** On a store that rejects them the counters move all the same, the
    store does not, and the call throws exactly when the limit is
    crossed. *)
Lemma recordPnLOn_rejects now pnl s rm :
  Risk.recordPnLOn Rejects now pnl (s, rm)
  = ((s, snd (Risk.recordPnL now pnl (s, rm))),
     Qltb (Risk.dailyPnL rm + pnl)
       (- (bot_initial_balance s * (risk_max_daily_loss_pct s / 100)))).
Proof.
  unfold Risk.recordPnLOn, Risk.recordPnL. cbv zeta.
  destruct (Qltb _ _); reflexivity.
Qed.

Lemma closePositionOn_accepts now g symbol reason closePrice st :
  Engine.closePositionOn Accepts now g symbol reason closePrice st
  = Engine.closePosition now g symbol reason closePrice st.
Proof.
  destruct st as [s e]. unfold Engine.closePositionOn, Engine.closePosition.
  destruct (Engine.mapGet _ _) as [pos|]; [|reflexivity].
  destruct (negb _); [reflexivity|]. cbv zeta.
  rewrite recordPnLOn_accepts.
  destruct (Gateway.fault g) as [[ | | ]|]; try reflexivity;
    destruct (Risk.recordPnL _ _ _) as [s2 rm2]; cbv iota beta;
    unfold writeLock; destruct (Qltb _ _); reflexivity.
Qed.

Lemma monitorSymbolOn_accepts now g symbol st :
  Engine.monitorSymbolOn Accepts now g symbol st
  = Engine.monitorSymbol now g symbol st.
Proof.
  destruct st as [s e]. unfold Engine.monitorSymbolOn, Engine.monitorSymbol.
  destruct (Engine.mapGet _ _) as [pos|]; [|reflexivity].
  destruct (Engine.monitorPosition s g pos) as [p1 [reason|]];
    [apply closePositionOn_accepts | reflexivity].
Qed.

Lemma monitorPositionsOn_accepts now gw st :
  Engine.monitorPositionsOn Accepts now gw st
  = Engine.monitorPositions now gw st.
Proof.
  destruct st as [s e].
  unfold Engine.monitorPositionsOn, Engine.monitorPositions.
  destruct (_ || _); [reflexivity|].
  generalize (map fst (Engine.positions e)) as keys.
  generalize (s, e) as st. intros st keys. revert st.
  induction keys as [|k keys IH]; intro st; [reflexivity|].
  simpl. rewrite monitorSymbolOn_accepts. apply IH.
Qed.

(** The ledger entries of a close whose order, trade row and notification
    go through, on either store. *)
Lemma closePositionOn_ledger
    (store : Store) (now : Z) (g : Gateway.t) (symbol : string)
    (reason : CloseReason) (closePrice : Q) (s : Settings)
    (e : Engine.FuturesEngine) (pos : Position.t) :
  Engine.mapGet (Engine.positions e) symbol = Some pos ->
  Gateway.fault g = None ->
  let finalPnL := Engine.move pos closePrice * Position.amount pos in
  let riskLimit := bot_initial_balance s * (risk_max_daily_loss_pct s / 100) in
  let engineLimit :=
    Engine.getBalance s g * (risk_max_daily_loss_pct s / 100) in
  let st' :=
    Engine.closePositionOn store now g symbol reason closePrice (s, e) in
  Engine.dailyPnL (snd st') = Engine.dailyPnL e + finalPnL /\
  Risk.dailyPnL (Engine.riskManager (snd st'))
    = Risk.dailyPnL (Engine.riskManager e) + finalPnL /\
  Risk.dailyTradeCount (Engine.riskManager (snd st'))
    = S (Risk.dailyTradeCount (Engine.riskManager e)) /\
  (forall k, k <> symbol ->
     Engine.mapGet (Engine.positions (snd st')) k
     = Engine.mapGet (Engine.positions e) k) /\
  (bot_locked s = true -> bot_locked (fst st') = true) /\
  (- riskLimit <= Risk.dailyPnL (Engine.riskManager e) + finalPnL ->
   - engineLimit <= Engine.dailyPnL e + finalPnL ->
   Engine.mapGet (Engine.positions (snd st')) symbol = None /\
   fst st' = s) /\
  (Risk.dailyPnL (Engine.riskManager e) + finalPnL < - riskLimit \/
   Engine.dailyPnL e + finalPnL < - engineLimit ->
   match store with
   | Accepts =>
       Engine.mapGet (Engine.positions (snd st')) symbol = None /\
       bot_locked (fst st') = true /\
       bot_lock_until (fst st') = Some (nextMidnight now)
   | Rejects =>
       Engine.mapGet (Engine.positions (snd st')) symbol = Some pos /\
       fst st' = s
   end).
Proof.
  intros Hget Hf. cbv zeta.
  unfold Engine.closePositionOn, Gateway.orderPlaced. rewrite Hget, Hf.
  simpl negb. cbv iota.
  assert (Hmove :
    match Position.direction pos with
    | long => (closePrice - Position.entryPrice pos) * Position.amount pos
    | short => (Position.entryPrice pos - closePrice) * Position.amount pos
    end = Engine.move pos closePrice * Position.amount pos).
  { unfold Engine.move. destruct (Position.direction pos); reflexivity. }
  rewrite Hmove.
  set (finalPnL := Engine.move pos closePrice * Position.amount pos).
  set (e1 := Engine.withDailyPnL e (Engine.dailyPnL e + finalPnL)).
  destruct (recordPnL_ledger now finalPnL s (Engine.riskManager e1))
    as (L1 & L2 & _ & L4).
  pose proof (recordPnL_config now finalPnL (s, Engine.riskManager e1)) as Hc.
  change (Engine.riskManager e1) with (Engine.riskManager e) in *.
  set (riskCross :=
         Qltb (Risk.dailyPnL (Engine.riskManager e) + finalPnL)
           (- (bot_initial_balance s * (risk_max_daily_loss_pct s / 100)))).
  assert (Hrisk : fst (Risk.recordPnL now finalPnL (s, Engine.riskManager e))
                  = if riskCross then Risk.lockBot now s else s).
  { unfold Risk.recordPnL, riskCross. cbv zeta.
    destruct (Qltb _ _); reflexivity. }
  destruct store.
  - rewrite recordPnLOn_accepts.
    destruct (Risk.recordPnL now finalPnL (s, Engine.riskManager e))
      as [s2 rm2].
    cbn [fst snd] in L1, L2, L4, Hc, Hrisk. cbv iota beta.
    assert (Hbal : Engine.getBalance s2 g = Engine.getBalance s g).
    { apply (sameConfig_proj (fun x => Engine.getBalance x g));
        [reflexivity | exact Hc]. }
    assert (Hpct : risk_max_daily_loss_pct s2 = risk_max_daily_loss_pct s).
    { apply (sameConfig_proj risk_max_daily_loss_pct);
        [reflexivity | exact Hc]. }
    rewrite Hbal, Hpct. unfold writeLock.
    cbn [Engine.dailyPnL Engine.withRisk e1 Engine.withDailyPnL].
    destruct (Qltb (Engine.dailyPnL e + finalPnL) _) eqn:Hengine;
      cbn [fst snd Engine.positions Engine.withPositions Engine.dailyPnL
           Engine.riskManager Engine.withRisk Engine.withDailyPnL e1].
    + apply Qltb_true_iff in Hengine.
      split; [reflexivity|]. split; [exact L1|]. split; [exact L2|].
      split; [intros k Hk; now apply mapGet_mapDelete_other|].
      split; [reflexivity|].
      split; [intros _ H; lra|].
      intros _. split; [apply mapGet_mapDelete_same|]. split; reflexivity.
    + apply Qltb_false_iff in Hengine.
      split; [reflexivity|]. split; [exact L1|]. split; [exact L2|].
      split; [intros k Hk; now apply mapGet_mapDelete_other|].
      split; [exact L4|].
      split.
      * intros Hr _. split; [apply mapGet_mapDelete_same|].
        rewrite Hrisk.
        assert (E : riskCross = false)
          by (apply Qltb_false_iff; exact Hr).
        now rewrite E.
      * intros [Hr | He]; [|lra].
        split; [apply mapGet_mapDelete_same|].
        rewrite Hrisk.
        assert (E : riskCross = true)
          by (apply Qltb_true_iff; exact Hr).
        rewrite E. split; reflexivity.
  - rewrite recordPnLOn_rejects. fold riskCross.
    destruct (Risk.recordPnL now finalPnL (s, Engine.riskManager e))
      as [s2 rm2].
    cbn [fst snd] in L1, L2. cbv iota beta.
    destruct riskCross eqn:Hr;
      cbn [fst snd Engine.positions Engine.withPositions Engine.dailyPnL
           Engine.riskManager Engine.withRisk Engine.withDailyPnL e1].
    + apply Qltb_true_iff in Hr.
      split; [reflexivity|]. split; [exact L1|]. split; [exact L2|].
      split; [reflexivity|]. split; [auto|].
      split; [intros H _; lra|].
      intros _. split; [exact Hget | reflexivity].
    + apply Qltb_false_iff in Hr. unfold writeLock.
      destruct (Qltb (Engine.dailyPnL e + finalPnL) _) eqn:Hengine;
        cbn [fst snd Engine.positions Engine.withPositions Engine.dailyPnL
             Engine.riskManager Engine.withRisk Engine.withDailyPnL e1].
      * apply Qltb_true_iff in Hengine.
        split; [reflexivity|]. split; [exact L1|]. split; [exact L2|].
        split; [reflexivity|]. split; [auto|].
        split; [intros _ H; lra|].
        intros _. split; [exact Hget | reflexivity].
      * apply Qltb_false_iff in Hengine.
        split; [reflexivity|]. split; [exact L1|]. split; [exact L2|].
        split; [intros k Hk; now apply mapGet_mapDelete_other|].
        split; [auto|].
        split; [intros _ _; split; [apply mapGet_mapDelete_same|reflexivity]|].
        intros [H | H]; lra.
Qed.

(** X17.  A close that goes through books its result once, in both
    ledgers, whether or not the store takes writes.  When the entry exists
    and neither the order, the trade row nor the notification fails,
    [closePosition] adds the final P&L (the signed move to the close price
    times the quantity) to the engine's daily P&L and to the risk
    manager's, counts one more trade, leaves every other entry alone and
    never lifts a lock.  When the new daily P&L is below neither daily
    loss limit, no setting is written and the entry is removed.  When it
    is below one of them, a store that accepts the write gets the lock
    until the next midnight and the entry is removed; on a store that
    rejects it the [setSetting] throws into the [catch], the entry stays
    in the book and no lock is set. *)
Theorem closePosition_books_the_result
    (store : Store) (now : Z) (g : Gateway.t) (symbol : string)
    (reason : CloseReason) (closePrice : Q) (s : Settings)
    (e : Engine.FuturesEngine) (pos : Position.t) :
  Engine.mapGet (Engine.positions e) symbol = Some pos ->
  Gateway.fault g = None ->
  let finalPnL := Engine.move pos closePrice * Position.amount pos in
  let riskLimit := bot_initial_balance s * (risk_max_daily_loss_pct s / 100) in
  let engineLimit :=
    Engine.getBalance s g * (risk_max_daily_loss_pct s / 100) in
  let st' :=
    Engine.closePositionOn store now g symbol reason closePrice (s, e) in
  Engine.dailyPnL (snd st') = Engine.dailyPnL e + finalPnL /\
  Risk.dailyPnL (Engine.riskManager (snd st'))
    = Risk.dailyPnL (Engine.riskManager e) + finalPnL /\
  Risk.dailyTradeCount (Engine.riskManager (snd st'))
    = S (Risk.dailyTradeCount (Engine.riskManager e)) /\
  (forall k, k <> symbol ->
     Engine.mapGet (Engine.positions (snd st')) k
     = Engine.mapGet (Engine.positions e) k) /\
  (bot_locked s = true -> bot_locked (fst st') = true) /\
  (- riskLimit <= Risk.dailyPnL (Engine.riskManager e) + finalPnL ->
   - engineLimit <= Engine.dailyPnL e + finalPnL ->
   Engine.mapGet (Engine.positions (snd st')) symbol = None /\
   fst st' = s) /\
  (Risk.dailyPnL (Engine.riskManager e) + finalPnL < - riskLimit \/
   Engine.dailyPnL e + finalPnL < - engineLimit ->
   match store with
   | Accepts =>
       Engine.mapGet (Engine.positions (snd st')) symbol = None /\
       bot_locked (fst st') = true /\
       bot_lock_until (fst st') = Some (nextMidnight now)
   | Rejects =>
       Engine.mapGet (Engine.positions (snd st')) symbol = Some pos /\
       fst st' = s
   end).
Proof.
  intros Hget Hf.
  exact (closePositionOn_ledger store now g symbol reason closePrice s e pos
           Hget Hf).
Qed.

(** A long of 1 from 100 closed at 89, a loss of 11 on a limit of 10: on
    a store that rejects the write both ledgers stand at -11, the entry
    is still in the book and the bot is not locked. *)
Lemma closePosition_books_the_result_witness :
  let p := Position.mk "BTC/USDT" long 100 100 1 2 (Leverage.Normal 2)
             88 107 false None false 7 50 100 0 0 0 in
  let e := Engine.mkEngine (Risk.create 0) true [("BTC/USDT"%string, p)] 0 0 in
  let st' := Engine.closePositionOn Rejects 0 (Gateway.mk (Some 89) None None)
               "BTC/USDT" STOP_LOSS 89 (Db.defaults, e) in
  Engine.dailyPnL (snd st') == -11 /\
  Engine.mapGet (Engine.positions (snd st')) "BTC/USDT" = Some p /\
  bot_locked (fst st') = false.
Proof.
  cbv zeta. split; [reflexivity|].
  destruct (proj2 (proj2 (proj2 (proj2 (proj2 (proj2
              (closePosition_books_the_result Rejects 0
                 (Gateway.mk (Some 89) None None) "BTC/USDT" STOP_LOSS 89
                 Db.defaults
                 (Engine.mkEngine (Risk.create 0) true
                    [("BTC/USDT"%string,
                      Position.mk "BTC/USDT" long 100 100 1 2
                        (Leverage.Normal 2) 88 107 false None false 7 50 100
                        0 0 0)] 0 0)
                 _ eq_refl eq_refl))))))) as [Hkept Hstore].
  - left. reflexivity.
  - split; [exact Hkept|]. now rewrite Hstore.
Defined.

Lemma monitorSymbolOn_unfold store now g symbol s e pos :
  Engine.mapGet (Engine.positions e) symbol = Some pos ->
  Engine.monitorSymbolOn store now g symbol (s, e) =
    let p1 := fst (Engine.monitorPosition s g pos) in
    let st' :=
      (s, Engine.withPositions e (Engine.mapSet (Engine.positions e) symbol p1)) in
    match snd (Engine.monitorPosition s g pos) with
    | Some reason =>
        Engine.closePositionOn store now g symbol reason
          (Position.currentPrice p1) st'
    | None => st'
    end.
Proof.
  intro H. unfold Engine.monitorSymbolOn. rewrite H.
  destruct (Engine.monitorPosition s g pos) as [p1 req]. reflexivity.
Qed.

(** X18.  What the monitor books is what it marked.  When an iteration of
    the monitor asks for a close and the order, the trade row and the
    notification go through, the amount added to the engine's daily P&L
    and to the risk manager's is exactly the P&L the iteration wrote on
    the entry at the fresh price, on either store.  The entry is gone
    afterwards when the new daily P&L is below neither daily loss limit,
    and on a store that accepts writes in any case; on a store that
    rejects them a close that crosses a limit leaves the marked entry in
    the book. *)
Theorem monitor_close_books_the_marked_pnl
    (store : Store) (now : Z) (g : Gateway.t) (symbol : string)
    (s : Settings) (e : Engine.FuturesEngine) (pos : Position.t) (cur : Q)
    (reason : CloseReason) :
  Engine.mapGet (Engine.positions e) symbol = Some pos ->
  Gateway.tickerLast g = Some cur ->
  Gateway.fault g = None ->
  snd (Engine.monitorPosition s g pos) = Some reason ->
  let marked := fst (Engine.monitorPosition s g pos) in
  let st' := Engine.monitorSymbolOn store now g symbol (s, e) in
  let riskLimit := bot_initial_balance s * (risk_max_daily_loss_pct s / 100) in
  let engineLimit :=
    Engine.getBalance s g * (risk_max_daily_loss_pct s / 100) in
  let crossed :=
    Risk.dailyPnL (Engine.riskManager e) + Position.pnl marked < - riskLimit \/
    Engine.dailyPnL e + Position.pnl marked < - engineLimit in
  Position.pnl marked = Engine.move pos cur * Position.amount pos /\
  Engine.dailyPnL (snd st') = Engine.dailyPnL e + Position.pnl marked /\
  Risk.dailyPnL (Engine.riskManager (snd st'))
    = Risk.dailyPnL (Engine.riskManager e) + Position.pnl marked /\
  (~ crossed -> Engine.mapGet (Engine.positions (snd st')) symbol = None) /\
  (store = Accepts ->
   Engine.mapGet (Engine.positions (snd st')) symbol = None) /\
  (store = Rejects -> crossed ->
   Engine.mapGet (Engine.positions (snd st')) symbol = Some marked).
Proof.
  intros Hget Ht Hf Hreq. cbv zeta.
  assert (Hnz : ~ cur == 0).
  { intro Hz. rewrite monitorPosition_no_price in Hreq; [discriminate|].
    intros c Hc. congruence. }
  destruct (monitorPosition_marks s g pos cur Ht Hnz)
    as ((_ & Md & Me & _) & Mc & Mp & Ma).
  assert (Hamt : Position.amount (fst (Engine.monitorPosition s g pos))
                 = Position.amount pos).
  { apply Ma. rewrite Hreq. discriminate. }
  rewrite (monitorSymbolOn_unfold store now g symbol s e pos Hget). cbv zeta.
  rewrite Hreq, Mc.
  set (marked := fst (Engine.monitorPosition s g pos)) in *.
  set (e' := Engine.withPositions e
               (Engine.mapSet (Engine.positions e) symbol marked)).
  assert (Hget' : Engine.mapGet (Engine.positions e') symbol = Some marked)
    by apply mapGet_mapSet_same.
  destruct (closePositionOn_ledger store now g symbol reason cur s e'
              marked Hget' Hf) as (C1 & C2 & _ & _ & _ & C6 & C7).
  assert (Hmove : Engine.move marked cur * Position.amount marked
                  = Position.pnl marked).
  { rewrite Mp, Hamt. unfold Engine.move. now rewrite Md, Me. }
  rewrite Hmove in C1, C2, C6, C7.
  change (Engine.riskManager e') with (Engine.riskManager e) in *.
  change (Engine.dailyPnL e') with (Engine.dailyPnL e) in *.
  split; [exact Mp|]. split; [exact C1|]. split; [exact C2|].
  split.
  { intro Hn. apply C6.
    - destruct (Qlt_le_dec
                  (Risk.dailyPnL (Engine.riskManager e) + Position.pnl marked)
                  (- (bot_initial_balance s
                      * (risk_max_daily_loss_pct s / 100))))
        as [H|H]; [elim Hn; now left | exact H].
    - destruct (Qlt_le_dec
                  (Engine.dailyPnL e + Position.pnl marked)
                  (- (Engine.getBalance s g
                      * (risk_max_daily_loss_pct s / 100))))
        as [H|H]; [elim Hn; now right | exact H]. }
  split.
  { intros ->.
    destruct (Qlt_le_dec
                (Risk.dailyPnL (Engine.riskManager e) + Position.pnl marked)
                (- (bot_initial_balance s
                    * (risk_max_daily_loss_pct s / 100))))
      as [H|H]; [exact (proj1 (C7 (or_introl H)))|].
    destruct (Qlt_le_dec
                (Engine.dailyPnL e + Position.pnl marked)
                (- (Engine.getBalance s g
                    * (risk_max_daily_loss_pct s / 100))))
      as [H'|H']; [exact (proj1 (C7 (or_intror H')))|].
    exact (proj1 (C6 H H')). }
  intros -> Hx. exact (proj1 (C7 Hx)).
Qed.

(** A long of 1 from 100 whose price falls to 97: the monitor marks -3
    and books -3, within the limit of 10, and the entry is gone on either
    store. *)
Lemma monitor_close_books_the_marked_pnl_witness :
  let p := Position.mk "BTC/USDT" long 100 100 1 2 (Leverage.Normal 2)
             98 107 false None false 7 50 100 0 0 0 in
  let e := Engine.mkEngine (Risk.create 0) true [("BTC/USDT"%string, p)] 0 0 in
  let g := Gateway.mk (Some 97) None None in
  Engine.dailyPnL
    (snd (Engine.monitorSymbolOn Rejects 0 g "BTC/USDT" (Db.defaults, e)))
    == -3 /\
  Engine.mapGet
    (Engine.positions (snd (Engine.monitorSymbolOn Rejects 0 g "BTC/USDT"
                              (Db.defaults, e)))) "BTC/USDT" = None.
Proof.
  cbv zeta. split; [reflexivity|].
  refine (proj1 (proj2 (proj2 (proj2 (monitor_close_books_the_marked_pnl
            Rejects 0 (Gateway.mk (Some 97) None None) "BTC/USDT" Db.defaults
            (Engine.mkEngine (Risk.create 0) true
               [("BTC/USDT"%string,
                 Position.mk "BTC/USDT" long 100 100 1 2 (Leverage.Normal 2)
                   98 107 false None false 7 50 100 0 0 0)] 0 0)
            _ 97 STOP_LOSS eq_refl eq_refl eq_refl eq_refl)))) _).
  intros [H | H]; vm_compute in H; discriminate H.
Defined.

(* ================================================================== *)
(** * The dry run and the real thing *)

Lemma calculateSLTP_config a b direction entryPrice atr bollinger :
  sameConfig a b ->
  Engine.calculateSLTP a direction entryPrice atr bollinger
  = Engine.calculateSLTP b direction entryPrice atr bollinger.
Proof.
  apply (sameConfig_proj
           (fun s => Engine.calculateSLTP s direction entryPrice atr bollinger)).
  reflexivity.
Qed.

Lemma calculatePositionSize_config a b balance entryPrice stopLoss lev :
  sameConfig a b ->
  Engine.calculatePositionSize a balance entryPrice stopLoss lev
  = Engine.calculatePositionSize b balance entryPrice stopLoss lev.
Proof.
  apply (sameConfig_proj
           (fun s => Engine.calculatePositionSize s balance entryPrice
                       stopLoss lev)).
  reflexivity.
Qed.

Lemma getBalance_config a b g :
  sameConfig a b -> Engine.getBalance a g = Engine.getBalance b g.
Proof.
  apply (sameConfig_proj (fun s => Engine.getBalance s g)). reflexivity.
Qed.

(** X19.  [analyzeOnly] is a faithful dry run of [openPosition].  When
    [openPosition] stores a new entry for an analysis, the preview
    [analyzeOnly] computes from the same score, direction, indicators,
    settings and exchange balance shows the same entry price, leverage,
    stop, target, quantity, margin and notional. *)
Theorem analyzeOnly_previews_openPosition
    (now : Z) (g : Gateway.t) (symbol : string) (direction : Direction)
    (score : Z) (ind : Indicators.t) (st : Engine.State) (p : Position.t) :
  Engine.mapGet (Engine.positions (snd st)) symbol = None ->
  Engine.mapGet
    (Engine.positions
       (snd (Engine.openPosition now g symbol direction score ind st)))
    symbol = Some p ->
  let a := Engine.analyzeOnly (fst st) g score (Some direction) ind in
  Engine.an_entryPrice a = Some (Position.entryPrice p) /\
  Engine.an_leverage a = Position.leverage p /\
  Engine.an_leverageMode a = Position.leverageMode p /\
  exists sltp sizing,
    Engine.an_sltp a = Some sltp /\
    Engine.an_sizing a = Some sizing /\
    SLTP.stopLoss sltp = Position.stopLoss p /\
    SLTP.takeProfit sltp = Position.takeProfit p /\
    Sizing.amount sizing = Position.amount p /\
    Sizing.margin sizing = Position.margin p /\
    Sizing.positionValue sizing = Position.positionValue p.
Proof.
  intros Hfree Hget. cbv zeta.
  destruct (openPosition_cases now g symbol direction score ind st)
    as [Hcfg [Hsame | (entry & sizing & _ & Hprice & Hnz & Hsz & _ & _
                       & Hpos)]].
  - rewrite Hsame in Hget. congruence.
  - rewrite Hpos, mapGet_mapSet_same in Hget. injection Hget as <-.
    set (s1 := fst (Engine.openPosition now g symbol direction score ind st))
      in *.
    cbv zeta in Hsz.
    rewrite (determineLeverage_config s1 (fst st) _ _ Hcfg) in *.
    rewrite (calculateSLTP_config s1 (fst st) _ _ _ _ Hcfg) in *.
    rewrite (getBalance_config s1 (fst st) g Hcfg) in Hsz.
    rewrite (calculatePositionSize_config s1 (fst st) _ _ _ _ Hcfg) in Hsz.
    unfold Engine.analyzeOnly. rewrite Hprice.
    assert (E : truthyQ entry = true) by now apply truthyQ_true_iff.
    rewrite E, Hsz.
    cbn [Engine.an_entryPrice Engine.an_leverage Engine.an_leverageMode
         Engine.an_sltp Engine.an_sizing Position.entryPrice
         Position.leverage Position.leverageMode Position.stopLoss
         Position.takeProfit Position.amount Position.margin
         Position.positionValue].
    split; [reflexivity|]. split; [reflexivity|]. split; [reflexivity|].
    eexists _, sizing. repeat split.
Qed.

(** BTC at 50000 with ATR 500: the preview shows the stop the engine then
    stores. *)
Lemma analyzeOnly_previews_openPosition_witness :
  let ind := Indicators.mk (Some 50000) (Some 500) (Some 1) None in
  let g := Gateway.mk None (Some (Some 100)) None in
  let st := (Db.defaults, Engine.mkEngine (Risk.create 0) true [] 0 0) in
  exists p sltp,
    Engine.mapGet
      (Engine.positions (snd (Engine.openPosition 0 g "BTC/USDT" long 7 ind st)))
      "BTC/USDT" = Some p /\
    Engine.an_sltp (Engine.analyzeOnly Db.defaults g 7 (Some long) ind)
      = Some sltp /\
    SLTP.stopLoss sltp = Position.stopLoss p.
Proof.
  cbv zeta.
  pose proof (analyzeOnly_previews_openPosition 0
                (Gateway.mk None (Some (Some 100)) None) "BTC/USDT" long 7
                (Indicators.mk (Some 50000) (Some 500) (Some 1) None)
                (Db.defaults, Engine.mkEngine (Risk.create 0) true [] 0 0)
                _ eq_refl ltac:(vm_compute; reflexivity)) as H.
  cbv zeta in H.
  destruct H as (_ & _ & _ & sltp & sizing & H1 & _ & H3 & _).
  eexists _, sltp. split; [vm_compute; reflexivity|].
  split; [exact H1 | exact H3].
Defined.

(* ================================================================== *)
(** * A monitor pass, entry by entry *)

Lemma closePositionOn_positions store now g symbol reason closePrice s e :
  let st' := Engine.closePositionOn store now g symbol reason closePrice (s, e) in
  Engine.positions (snd st') = Engine.positions e \/
  (Engine.positions (snd st') = Engine.mapDelete (Engine.positions e) symbol /\
   Gateway.fault g = None).
Proof.
  destruct store.
  - rewrite closePositionOn_accepts. apply closePosition_positions.
  - cbv zeta. unfold Engine.closePositionOn.
    destruct (Engine.mapGet _ _) as [pos|]; [|left; reflexivity].
    unfold Gateway.orderPlaced.
    destruct (Gateway.fault g) as [[ | | ]|]; simpl negb; cbv iota;
      try (left; reflexivity);
      rewrite recordPnLOn_rejects; cbv iota beta;
      destruct (Qltb _ _); try (left; reflexivity);
      unfold writeLock; destruct (Qltb _ _); try (left; reflexivity).
    right. split; reflexivity.
Qed.

Lemma closePositionOn_config store now g symbol reason closePrice st :
  sameConfig
    (fst (Engine.closePositionOn store now g symbol reason closePrice st))
    (fst st).
Proof.
  destruct store.
  - rewrite closePositionOn_accepts. apply closePosition_config.
  - destruct st as [s e]. unfold Engine.closePositionOn.
    destruct (Engine.mapGet _ _) as [pos|]; [|apply sameConfig_refl].
    destruct (negb _); [apply sameConfig_refl|]. cbv zeta.
    rewrite recordPnLOn_rejects.
    destruct (Gateway.fault g) as [[ | | ]|]; try apply sameConfig_refl;
      cbv iota beta;
      destruct (Qltb _ _); try apply sameConfig_refl;
      unfold writeLock; destruct (Qltb _ _); apply sameConfig_refl.
Qed.

Lemma monitorSymbolOn_config store now g symbol st :
  sameConfig (fst (Engine.monitorSymbolOn store now g symbol st)) (fst st).
Proof.
  destruct st as [s e]. unfold Engine.monitorSymbolOn.
  destruct (Engine.mapGet _ _) as [pos|]; [|apply sameConfig_refl].
  destruct (Engine.monitorPosition s g pos) as [p1 [reason|]];
    [|apply sameConfig_refl].
  apply (closePositionOn_config store now g symbol reason
           (Position.currentPrice p1)
           (s, Engine.withPositions e
                 (Engine.mapSet (Engine.positions e) symbol p1))).
Qed.

Lemma monitorSymbolOn_other store now g symbol other st :
  other <> symbol ->
  Engine.mapGet
    (Engine.positions (snd (Engine.monitorSymbolOn store now g symbol st)))
    other
  = Engine.mapGet (Engine.positions (snd st)) other.
Proof.
  intro Hne. destruct st as [s e]. unfold Engine.monitorSymbolOn.
  destruct (Engine.mapGet (Engine.positions e) symbol) as [pos|] eqn:Hget;
    [|reflexivity].
  destruct (Engine.monitorPosition s g pos) as [p1 [reason|]].
  - destruct (closePositionOn_positions store now g symbol reason
                (Position.currentPrice p1) s
                (Engine.withPositions e
                   (Engine.mapSet (Engine.positions e) symbol p1)))
      as [Hsame | [Hdel _]].
    + rewrite Hsame. simpl. apply mapGet_mapSet_other. congruence.
    + rewrite Hdel. simpl. rewrite mapGet_mapDelete_other by congruence.
      apply mapGet_mapSet_other. congruence.
  - simpl. apply mapGet_mapSet_other. congruence.
Qed.

Lemma monitorSymbolOn_absent store now g symbol k st :
  Engine.mapGet (Engine.positions (snd st)) symbol = None ->
  Engine.mapGet
    (Engine.positions (snd (Engine.monitorSymbolOn store now g k st)))
    symbol = None.
Proof.
  intro Hnone. destruct (string_dec k symbol) as [-> | Hne].
  - destruct st as [s e]. unfold Engine.monitorSymbolOn.
    simpl in Hnone. now rewrite Hnone.
  - rewrite monitorSymbolOn_other by congruence. exact Hnone.
Qed.

(** What the loop body leaves under the symbol it handled: the marked
    entry, or nothing; nothing only after a close that was asked for and
    met no failure; and on a store that accepts writes every such close
    removes the entry. *)
Lemma monitorSymbolOn_outcome store now g symbol s e pos :
  Engine.mapGet (Engine.positions e) symbol = Some pos ->
  let after :=
    Engine.mapGet
      (Engine.positions
         (snd (Engine.monitorSymbolOn store now g symbol (s, e)))) symbol in
  let marked := fst (Engine.monitorPosition s g pos) in
  let request := snd (Engine.monitorPosition s g pos) in
  (after = Some marked \/
   (after = None /\ request <> None /\ Gateway.fault g = None)) /\
  (request = None \/ Gateway.fault g <> None -> after = Some marked) /\
  (store = Accepts -> request <> None -> Gateway.fault g = None ->
   after = None).
Proof.
  intro Hget. cbv zeta.
  rewrite (monitorSymbolOn_unfold store now g symbol s e pos Hget).
  cbv zeta.
  set (p1 := fst (Engine.monitorPosition s g pos)).
  set (e' := Engine.withPositions e
               (Engine.mapSet (Engine.positions e) symbol p1)).
  assert (Hget' : Engine.mapGet (Engine.positions e') symbol = Some p1)
    by apply mapGet_mapSet_same.
  destruct (snd (Engine.monitorPosition s g pos)) as [reason|].
  - destruct (closePositionOn_positions store now g symbol reason
                (Position.currentPrice p1) s e') as [Hsame | [Hdel Hnone]].
    + rewrite Hsame, Hget'.
      split; [left; reflexivity|]. split; [reflexivity|].
      intros -> _ Hf. rewrite closePositionOn_accepts in Hsame.
      pose proof (closePosition_succeeds now g symbol reason
                    (Position.currentPrice p1) s e' p1 Hget' Hf) as Hs.
      rewrite Hsame, Hget' in Hs. discriminate Hs.
    + rewrite Hdel. cbn [snd Engine.positions e' Engine.withPositions].
      rewrite mapGet_mapDelete_same.
      split; [right; repeat split; [discriminate | exact Hnone]|].
      split; [|reflexivity].
      intros [H | H]; [discriminate H | contradiction].
  - cbn [snd]. rewrite Hget'.
    split; [left; reflexivity|]. split; [reflexivity|].
    intros _ H. now elim H.
Qed.

Lemma monitorOn_fold_other store now gw symbol keys :
  forall st,
    ~ In symbol keys ->
    Engine.mapGet
      (Engine.positions
         (snd (fold_left
                 (fun acc k => Engine.monitorSymbolOn store now (gw k) k acc)
                 keys st)))
      symbol
    = Engine.mapGet (Engine.positions (snd st)) symbol.
Proof.
  induction keys as [|k keys IH]; intros st Hnotin; simpl; [reflexivity|].
  rewrite IH by (intro H; apply Hnotin; right; exact H).
  apply monitorSymbolOn_other. intro E. apply Hnotin. left. now symmetry.
Qed.

Lemma monitorOn_fold_absent store now gw symbol keys :
  forall st,
    Engine.mapGet (Engine.positions (snd st)) symbol = None ->
    Engine.mapGet
      (Engine.positions
         (snd (fold_left
                 (fun acc k => Engine.monitorSymbolOn store now (gw k) k acc)
                 keys st)))
      symbol = None.
Proof.
  induction keys as [|k keys IH]; intros st Hnone; simpl; [exact Hnone|].
  apply IH. now apply monitorSymbolOn_absent.
Qed.

Lemma monitorOn_fold_outcome store now gw symbol keys :
  forall st pos,
    NoDup keys ->
    In symbol keys ->
    Engine.mapGet (Engine.positions (snd st)) symbol = Some pos ->
    let after :=
      Engine.mapGet
        (Engine.positions
           (snd (fold_left
                   (fun acc k => Engine.monitorSymbolOn store now (gw k) k acc)
                   keys st)))
        symbol in
    let marked := fst (Engine.monitorPosition (fst st) (gw symbol) pos) in
    let request := snd (Engine.monitorPosition (fst st) (gw symbol) pos) in
    (after = Some marked \/
     (after = None /\ request <> None /\ Gateway.fault (gw symbol) = None)) /\
    (request = None \/ Gateway.fault (gw symbol) <> None ->
     after = Some marked) /\
    (store = Accepts -> request <> None ->
     Gateway.fault (gw symbol) = None -> after = None).
Proof.
  induction keys as [|k keys IH]; intros st pos Hnd Hin Hget;
    [contradiction|].
  inversion Hnd as [|? ? Hnotin Hnd']; subst. cbv zeta. simpl fold_left.
  destruct (string_dec k symbol) as [-> | Hne].
  - rewrite (monitorOn_fold_other store now gw symbol keys _ Hnotin).
    destruct st as [s e]. cbn [fst snd] in Hget |- *.
    exact (monitorSymbolOn_outcome store now (gw symbol) symbol s e pos Hget).
  - destruct Hin as [E | Hin]; [contradiction|].
    assert (Hget1 : Engine.mapGet
              (Engine.positions
                 (snd (Engine.monitorSymbolOn store now (gw k) k st))) symbol
            = Some pos).
    { rewrite monitorSymbolOn_other by congruence. exact Hget. }
    pose proof (IH _ pos Hnd' Hin Hget1) as H. cbv zeta in H.
    rewrite (monitorPosition_config _ _ (gw symbol) pos
               (monitorSymbolOn_config store now (gw k) k st)) in H.
    exact H.
Qed.

(** X20.  A monitor pass handles every entry on its own.  In one pass of
    a running engine, with the book holding one entry per symbol, the
    entry of a symbol is afterwards either gone or exactly as its own
    iteration left it.  It is gone only if that iteration asked for a
    close and neither the order, the trade row nor the notification
    failed; it stays whenever no close was asked for or one of the three
    failed.  On a store that accepts writes it is gone whenever a close
    was asked for and none of them failed; on a store that rejects them a
    close that crosses a loss limit leaves it in the book.  A pass
    never adds an entry. *)
Theorem monitorPositions_entry_outcome
    (store : Store) (now : Z) (gw : string -> Gateway.t) (s : Settings)
    (e : Engine.FuturesEngine) (symbol : string) (pos : Position.t) :
  Engine.running e = true ->
  NoDup (map fst (Engine.positions e)) ->
  Engine.mapGet (Engine.positions e) symbol = Some pos ->
  let book :=
    Engine.positions (snd (Engine.monitorPositionsOn store now gw (s, e))) in
  let marked := fst (Engine.monitorPosition s (gw symbol) pos) in
  let request := snd (Engine.monitorPosition s (gw symbol) pos) in
  (Engine.mapGet book symbol = Some marked \/
   (Engine.mapGet book symbol = None /\ request <> None /\
    Gateway.fault (gw symbol) = None)) /\
  (request = None \/ Gateway.fault (gw symbol) <> None ->
   Engine.mapGet book symbol = Some marked) /\
  (store = Accepts -> request <> None -> Gateway.fault (gw symbol) = None ->
   Engine.mapGet book symbol = None) /\
  (forall k, Engine.mapGet (Engine.positions e) k = None ->
             Engine.mapGet book k = None).
Proof.
  intros Hrun Hnd Hget. cbv zeta.
  unfold Engine.monitorPositionsOn.
  rewrite Hrun. simpl negb. simpl orb.
  destruct (Nat.eqb (List.length (Engine.positions e)) 0) eqn:E.
  { apply Nat.eqb_eq in E. destruct (Engine.positions e); discriminate. }
  pose proof (monitorOn_fold_outcome store now gw symbol
                (map fst (Engine.positions e)) (s, e) pos Hnd
                (mapGet_In_keys _ _ _ Hget) Hget) as H.
  cbv zeta in H. cbn [fst snd] in H.
  destruct H as (H1 & H2 & H3).
  split; [exact H1|]. split; [exact H2|]. split; [exact H3|].
  intros k Hk. now apply monitorOn_fold_absent.
Qed.

(** Two longs from 100 on a store that rejects writes; BTC falls through
    its stop while the ETH order gateway is down: BTC is closed, ETH
    stays. *)
Lemma monitorPositions_entry_outcome_witness :
  let p := fun sym => Position.mk sym long 100 100 1 2 (Leverage.Normal 2)
                        98 107 false None false 7 50 100 0 0 0 in
  let e := Engine.mkEngine (Risk.create 0) true
             [("BTC/USDT"%string, p "BTC/USDT"%string);
              ("ETH/USDT"%string, p "ETH/USDT"%string)] 0 0 in
  let gw := fun sym : string =>
              if String.eqb sym "BTC/USDT"
              then Gateway.mk (Some 97) None None
              else Gateway.mk (Some 97) None (Some Gateway.OrderThrows) in
  map fst (Engine.positions
             (snd (Engine.monitorPositionsOn Rejects 0 gw (Db.defaults, e))))
    = ["ETH/USDT"%string] /\
  Engine.mapGet
    (Engine.positions
       (snd (Engine.monitorPositionsOn Rejects 0 gw (Db.defaults, e))))
    "ETH/USDT"
  = Some (fst (Engine.monitorPosition Db.defaults (gw "ETH/USDT"%string)
                 (p "ETH/USDT"%string))).
Proof.
  cbv zeta. split; [reflexivity|].
  refine (proj1 (proj2 (monitorPositions_entry_outcome Rejects 0 _ Db.defaults
            (Engine.mkEngine (Risk.create 0) true
               [("BTC/USDT"%string,
                 Position.mk "BTC/USDT" long 100 100 1 2 (Leverage.Normal 2)
                   98 107 false None false 7 50 100 0 0 0);
                ("ETH/USDT"%string,
                 Position.mk "ETH/USDT" long 100 100 1 2 (Leverage.Normal 2)
                   98 107 false None false 7 50 100 0 0 0)] 0 0)
            "ETH/USDT" _ eq_refl _ eq_refl)) _).
  - repeat constructor; simpl; intuition discriminate.
  - right. discriminate.
Defined.

(* ================================================================== *)
(** * A failed close *)





(** * The daily counters of the risk manager *)

Lemma checkDayReset_same_day now s rm :
  dayOf now = Risk.currentDay rm ->
  Risk.checkDayReset now (s, rm) = (s, rm).
Proof.
  intro H. unfold Risk.checkDayReset.
  rewrite H, Z.eqb_refl. reflexivity.
Qed.

Lemma checkDayReset_day now st :
  Risk.currentDay (snd (Risk.checkDayReset now st)) = dayOf now.
Proof.
  destruct st as [s rm]. unfold Risk.checkDayReset.
  destruct (Z.eqb (dayOf now) (Risk.currentDay rm)) eqn:E.
  - apply Z.eqb_eq in E. simpl. congruence.
  - destruct (bot_locked s); [|reflexivity].
    destruct (bot_lock_until s) as [l|]; [|reflexivity].
    destruct (Z.leb l now); reflexivity.
Qed.

(** X21.  The daily counters are reset once per day change.  After
    [checkDayReset] the manager is on today's date, so a further call at
    any instant of the same local day changes nothing.  A call on a new
    day zeroes the daily P&L and the daily trade count and leaves the
    outcome window, the peak balance and the maximum drawdown alone. *)
Theorem checkDayReset_once_per_day (now now' : Z) (st : Risk.Sys) :
  dayOf now' = dayOf now ->
  let st1 := Risk.checkDayReset now st in
  Risk.checkDayReset now' st1 = st1 /\
  Risk.currentDay (snd st1) = dayOf now /\
  (dayOf now <> Risk.currentDay (snd st) ->
   Risk.dailyPnL (snd st1) = 0 /\ Risk.dailyTradeCount (snd st1) = 0%nat) /\
  Risk.tradeHistory (snd st1) = Risk.tradeHistory (snd st) /\
  Risk.peakBalance (snd st1) = Risk.peakBalance (snd st) /\
  Risk.maxDrawdown (snd st1) = Risk.maxDrawdown (snd st).
Proof.
  intro Hday. cbv zeta.
  pose proof (checkDayReset_day now st) as Hd.
  split.
  { destruct (Risk.checkDayReset now st) as [s1 rm1]. simpl in Hd.
    apply checkDayReset_same_day. congruence. }
  split; [exact Hd|].
  destruct st as [s rm]. unfold Risk.checkDayReset. simpl snd.
  destruct (Z.eqb (dayOf now) (Risk.currentDay rm)) eqn:E.
  - apply Z.eqb_eq in E. split; [intro; contradiction|repeat split].
  - destruct (bot_locked s); [|repeat split].
    destruct (bot_lock_until s) as [l|]; [|repeat split].
    destruct (Z.leb l now); repeat split.
Qed.

(** A manager created on day 0 with one trade booked, asked on day 1: the
    counters are back at zero and the window still holds the trade. *)
Lemma checkDayReset_once_per_day_witness :
  let st := Risk.recordPnL 1000 5 (Db.defaults, Risk.create 0) in
  let st1 := Risk.checkDayReset 86400000 st in
  Risk.checkDayReset 90000000 st1 = st1 /\
  Risk.dailyTradeCount (snd st1) = 0%nat /\
  Risk.tradeHistory (snd st1) = [Risk.win].
Proof.
  cbv zeta.
  destruct (checkDayReset_once_per_day 86400000 90000000
              (Risk.recordPnL 1000 5 (Db.defaults, Risk.create 0))
              eq_refl) as (H1 & _ & H3 & _).
  split; [exact H1|]. split; [|reflexivity].
  apply H3. vm_compute. discriminate.
Defined.

Lemma canTrade_same_day now ctx s rm :
  dayOf now = Risk.currentDay rm ->
  snd (snd (Risk.canTrade now ctx (s, rm))) = rm.
Proof.
  intro H. unfold Risk.canTrade.
  rewrite (checkDayReset_same_day now s rm H).
  destruct (bot_locked s); [reflexivity|].
  destruct (Qltb _ _); [reflexivity|].
  destruct (Risk.marginTooHigh s ctx); [reflexivity|].
  destruct (Risk.rrTooLow s ctx); reflexivity.
Qed.

(** X22.  Within one local day the daily P&L is the running sum of what
    was recorded.  Over any sequence of [canTrade] and [recordPnL] calls
    made on the manager's current day, the daily P&L grows by the sum of
    the recorded amounts and the daily trade count by their number;
    [canTrade] never changes either. *)
Theorem dailyPnL_accumulates_within_a_day
    (calls : list (Z * Risk.Call)) (st : Risk.Sys) :
  Forall (fun c => dayOf (fst c) = Risk.currentDay (snd st)) calls ->
  let final := snd (snd (Risk.run calls st)) in
  Risk.dailyPnL final
    == Risk.dailyPnL (snd st) + RiskTools.recordedPnL calls /\
  Risk.dailyTradeCount final
    = (Risk.dailyTradeCount (snd st) + RiskTools.recordedTrades calls)%nat.
Proof.
  cbv zeta. revert st.
  induction calls as [|[t c] calls IH]; intros st Hall.
  - simpl. split; [ring | lia].
  - inversion Hall as [|? ? Hday Hrest]; subst. simpl in Hday.
    destruct st as [s rm]. cbn [snd] in Hday, Hrest, Hall |- *.
    destruct c as [ctx | pnl];
      cbn [Risk.run RiskTools.recordedPnL RiskTools.recordedTrades].
    + pose proof (canTrade_same_day t ctx s rm Hday) as Hrm.
      destruct (Risk.canTrade t ctx (s, rm)) as [answer [s1 rm1]].
      simpl in Hrm. subst rm1.
      specialize (IH (s1, rm) Hrest).
      destruct (Risk.run calls (s1, rm)) as [answers st2]. exact IH.
    + destruct (recordPnL_ledger t pnl s rm) as (L1 & L2 & L3 & _).
      specialize (IH (Risk.recordPnL t pnl (s, rm))).
      rewrite L1, L2, L3 in IH. specialize (IH Hrest).
      destruct IH as [I1 I2]. split; [rewrite I1; ring | lia].
Qed.

(** Three trades and a check on day 0: the daily P&L is their sum. *)
Lemma dailyPnL_accumulates_within_a_day_witness :
  let calls := [(1%Z, Risk.RecordPnL 2); (2%Z, Risk.CanTrade Risk.noContext);
                (3%Z, Risk.RecordPnL (-5)); (4%Z, Risk.RecordPnL 1)] in
  Risk.dailyPnL (snd (snd (Risk.run calls (Db.defaults, Risk.create 0))))
    == -2 /\
  Risk.dailyTradeCount
    (snd (snd (Risk.run calls (Db.defaults, Risk.create 0)))) = 3%nat.
Proof.
  cbv zeta. split; [reflexivity|].
  refine (proj2 (dailyPnL_accumulates_within_a_day
                   [(1%Z, Risk.RecordPnL 2); (2%Z, Risk.CanTrade Risk.noContext);
                    (3%Z, Risk.RecordPnL (-5)); (4%Z, Risk.RecordPnL 1)]
                   (Db.defaults, Risk.create 0) _)).
  repeat constructor.
Defined.

(* ================================================================== *)
(** * Signals and trend alignment *)

(** A block of [generateSignal] never lowers a total and adds at most
    [cap] points over both. *)
Ltac votes_block :=
  intros [b s]; unfold TA.addBuy, TA.addSell; cbn [fst snd];
  repeat match goal with
  | |- context [match ?x with Some _ => _ | None => _ end] => destruct x
  | |- context [if ?c then _ else _] => destruct c
  end;
  cbn [fst snd]; repeat split; lra.

Lemma rsiBlock_votes x :
  forall v, fst v <= fst (TA.rsiBlock x v) /\ snd v <= snd (TA.rsiBlock x v) /\
    fst (TA.rsiBlock x v) + snd (TA.rsiBlock x v) <= fst v + snd v + 2.
Proof. unfold TA.rsiBlock. votes_block. Qed.

Lemma macdBlock_votes x :
  forall v, fst v <= fst (TA.macdBlock x v) /\
    snd v <= snd (TA.macdBlock x v) /\
    fst (TA.macdBlock x v) + snd (TA.macdBlock x v) <= fst v + snd v + 2.
Proof. unfold TA.macdBlock. votes_block. Qed.

Lemma bollingerBlock_votes x :
  forall v, fst v <= fst (TA.bollingerBlock x v) /\
    snd v <= snd (TA.bollingerBlock x v) /\
    fst (TA.bollingerBlock x v) + snd (TA.bollingerBlock x v)
      <= fst v + snd v + 1.5.
Proof. unfold TA.bollingerBlock. votes_block. Qed.

Lemma emaBlock_votes x :
  forall v, fst v <= fst (TA.emaBlock x v) /\ snd v <= snd (TA.emaBlock x v) /\
    fst (TA.emaBlock x v) + snd (TA.emaBlock x v) <= fst v + snd v + 1.5.
Proof. unfold TA.emaBlock. votes_block. Qed.

Lemma stochasticBlock_votes x :
  forall v, fst v <= fst (TA.stochasticBlock x v) /\
    snd v <= snd (TA.stochasticBlock x v) /\
    fst (TA.stochasticBlock x v) + snd (TA.stochasticBlock x v)
      <= fst v + snd v + 1.
Proof. unfold TA.stochasticBlock. votes_block. Qed.

Lemma volumeBlock_votes x :
  forall v, fst v <= fst (TA.volumeBlock x v) /\
    snd v <= snd (TA.volumeBlock x v) /\
    fst (TA.volumeBlock x v) + snd (TA.volumeBlock x v) <= fst v + snd v + 1.
Proof. unfold TA.volumeBlock. votes_block. Qed.

Lemma votes_range x :
  0 <= fst (TA.votes x) /\ 0 <= snd (TA.votes x) /\
  fst (TA.votes x) + snd (TA.votes x) <= 9.
Proof.
  unfold TA.votes.
  set (v0 := (0, 0) : TA.Votes).
  destruct (rsiBlock_votes x v0) as (A1 & A2 & A3).
  set (v1 := TA.rsiBlock x v0) in *.
  destruct (macdBlock_votes x v1) as (B1 & B2 & B3).
  set (v2 := TA.macdBlock x v1) in *.
  destruct (bollingerBlock_votes x v2) as (C1 & C2 & C3).
  set (v3 := TA.bollingerBlock x v2) in *.
  destruct (emaBlock_votes x v3) as (D1 & D2 & D3).
  set (v4 := TA.emaBlock x v3) in *.
  destruct (stochasticBlock_votes x v4) as (E1 & E2 & E3).
  set (v5 := TA.stochasticBlock x v4) in *.
  destruct (volumeBlock_votes x v5) as (F1 & F2 & F3).
  set (v6 := TA.volumeBlock x v5) in *.
  change (fst v0) with 0 in *. change (snd v0) with 0 in *.
  repeat split; lra.
Qed.

Lemma decide_cases (v : TA.Votes) :
  match TA.decide v with
  | strong_buy => 7 <= fst v /\ snd v + 2 < fst v
  | buy => 5 <= fst v /\ snd v + 1 < fst v
  | strong_sell => 7 <= snd v /\ fst v + 2 < snd v
  | sell => 5 <= snd v /\ fst v + 1 < snd v
  | neutral => True
  end.
Proof.
  unfold TA.decide. cbv zeta.
  repeat match goal with
  | |- context [if ?a && ?b then _ else _] =>
      let Ha := fresh "Ha" in let Hb := fresh "Hb" in
      destruct a eqn:Ha; destruct b eqn:Hb; cbn [andb];
      try (apply Qgeb_true_iff in Ha; apply Qgtb_true_iff in Hb;
           split; assumption)
  end; exact I.
Qed.

Lemma generateSignal_majority (x : Snapshot.t) :
  let r := TA.generateSignal (Some x) in
  (includesBuy (TA.signal r) = true ->
   5 <= TA.buyScore r /\ TA.sellScore r + 1 < TA.buyScore r) /\
  (includesSell (TA.signal r) = true ->
   5 <= TA.sellScore r /\ TA.buyScore r + 1 < TA.sellScore r).
Proof.
  cbv zeta. unfold TA.generateSignal. cbv zeta.
  cbn [TA.buyScore TA.sellScore TA.signal].
  pose proof (decide_cases (TA.votes x)) as Hd.
  destruct (TA.decide (TA.votes x)); cbn [includesBuy includesSell];
    split; intro H; try discriminate H; lra.
Qed.

(** X23.  [generateSignal] only signals on a clear majority.  The two
    totals are never negative and together never exceed 9.  A buy signal
    needs at least 5 buy points, more than one point above the sell total,
    which is then below 4; a strong buy needs at least 7 buy points
    against at most 2 sell points; and the same with the sides exchanged.
    Without indicators the signal is neutral. *)
Theorem generateSignal_needs_a_clear_majority (indicators : option Snapshot.t) :
  let r := TA.generateSignal indicators in
  0 <= TA.buyScore r /\ 0 <= TA.sellScore r /\
  TA.buyScore r + TA.sellScore r <= 9 /\
  (includesBuy (TA.signal r) = true ->
   5 <= TA.buyScore r /\ TA.sellScore r + 1 < TA.buyScore r /\
   TA.sellScore r < 4) /\
  (includesSell (TA.signal r) = true ->
   5 <= TA.sellScore r /\ TA.buyScore r + 1 < TA.sellScore r /\
   TA.buyScore r < 4) /\
  (TA.signal r = strong_buy -> 7 <= TA.buyScore r /\ TA.sellScore r <= 2) /\
  (TA.signal r = strong_sell -> 7 <= TA.sellScore r /\ TA.buyScore r <= 2) /\
  (indicators = None -> TA.signal r = neutral).
Proof.
  cbv zeta. destruct indicators as [x|].
  - unfold TA.generateSignal. cbv zeta.
    cbn [TA.buyScore TA.sellScore TA.signal].
    destruct (votes_range x) as (H0 & H1 & H9).
    pose proof (decide_cases (TA.votes x)) as Hd.
    split; [exact H0|]. split; [exact H1|]. split; [exact H9|].
    destruct (TA.decide (TA.votes x)); cbn [includesBuy includesSell];
      repeat split; intros; try discriminate; lra.
  - cbn. repeat split; intros; try discriminate; lra.
Qed.


(** RSI 20, a bullish MACD crossover and a close under the lower band:
    5.5 buy points against none, a buy. *)
Lemma generateSignal_needs_a_clear_majority_witness :
  let x := Snapshot.mk (Some 100) (Some 20)
             (Some (Macd.mk 1 0 1)) (Some (Macd.mk 0 0 0))
             (Some (Bollinger.mk 200 150 50 0 false))
             (Ema.mk None None None) None None None None in
  TA.signal (TA.generateSignal (Some x)) = buy /\
  TA.buyScore (TA.generateSignal (Some x)) == 5.5 /\
  TA.sellScore (TA.generateSignal (Some x)) < 4.
Proof.
  cbv zeta. split; [reflexivity|]. split; [reflexivity|].
  refine (proj2 (proj2 (proj1 (proj2 (proj2 (proj2
            (generateSignal_needs_a_clear_majority
               (Some (Snapshot.mk (Some 100) (Some 20)
                        (Some (Macd.mk 1 0 1)) (Some (Macd.mk 0 0 0))
                        (Some (Bollinger.mk 200 150 50 0 false))
                        (Ema.mk None None None) None None None None)))))) _))).
  reflexivity.
Defined.

Lemma analyzeSymbol_agrees fetched (d : Direction) :
  match d with long => Timeframe.buys | short => Timeframe.sells end
    (TA.analyzeSymbol fetched) = true ->
  exists x, fetched = Some x /\
    match d with
    | long =>
        5 <= TA.buyScore (TA.generateSignal (Some x)) /\
        TA.sellScore (TA.generateSignal (Some x)) + 1
          < TA.buyScore (TA.generateSignal (Some x))
    | short =>
        5 <= TA.sellScore (TA.generateSignal (Some x)) /\
        TA.buyScore (TA.generateSignal (Some x)) + 1
          < TA.sellScore (TA.generateSignal (Some x))
    end.
Proof.
  destruct fetched as [x|]; [|destruct d; discriminate].
  destruct (generateSignal_majority x) as [Hb Hs].
  destruct d; cbn [TA.analyzeSymbol Timeframe.buys Timeframe.sells];
    intro H; exists x; (split; [reflexivity|]); auto.
Qed.

(** X24.  The engine's direction always rests on a signal with a clear
    majority.  For the timeframes [multiTimeframeAnalysis] builds, a
    direction is returned only when both the 1h and the 4h candles could
    be analysed, and then the indicators of the 1h timeframe, or with a
    neutral 1h signal those of the 4h timeframe, gave at least 5 points
    to that side and more than one point less to the other. *)
Theorem engine_direction_rests_on_a_signal
    (f15m f1h f4h : option Snapshot.t) (d : Direction) :
  let timeframes := fst (TA.multiTimeframeAnalysis f15m f1h f4h) in
  let clear x :=
    match d with
    | long =>
        5 <= TA.buyScore (TA.generateSignal (Some x)) /\
        TA.sellScore (TA.generateSignal (Some x)) + 1
          < TA.buyScore (TA.generateSignal (Some x))
    | short =>
        5 <= TA.sellScore (TA.generateSignal (Some x)) /\
        TA.buyScore (TA.generateSignal (Some x)) + 1
          < TA.sellScore (TA.generateSignal (Some x))
    end in
  SignalScore.direction (Engine.calculateSignalScore timeframes) = Some d ->
  exists x1 x4,
    f1h = Some x1 /\ f4h = Some x4 /\
    (clear x1 \/
     (TA.signal (TA.generateSignal (Some x1)) = neutral /\ clear x4)).
Proof.
  cbv zeta. unfold TA.multiTimeframeAnalysis. cbn [fst]. intro Hd.
  destruct (calculateSignalScore_direction _ d Hd)
    as (H1 & _ & _ & _ & Hn1 & Hn4).
  cbn [Timeframes.tf1h Timeframes.tf4h] in H1, Hn1, Hn4.
  destruct f1h as [x1|]; [|now elim Hn1].
  destruct f4h as [x4|]; [|now elim Hn4].
  exists x1, x4. split; [reflexivity|]. split; [reflexivity|].
  destruct H1 as [H1 | (Hb & Hs & H4)].
  - left. destruct (analyzeSymbol_agrees (Some x1) d H1) as (x & Hx & Hc).
    injection Hx as <-. exact Hc.
  - right. split.
    + cbn [TA.analyzeSymbol Timeframe.buys Timeframe.sells] in Hb, Hs.
      destruct (TA.signal (TA.generateSignal (Some x1)));
        first [reflexivity | discriminate Hb | discriminate Hs].
    + destruct (analyzeSymbol_agrees (Some x4) d H4) as (x & Hx & Hc).
      injection Hx as <-. exact Hc.
Qed.

(** The 1h candles give 5.5 buy points and a buy; the engine goes long. *)
Lemma engine_direction_rests_on_a_signal_witness :
  let x := Snapshot.mk (Some 100) (Some 20)
             (Some (Macd.mk 1 0 1)) (Some (Macd.mk 0 0 0))
             (Some (Bollinger.mk 200 150 50 0 false))
             (Ema.mk None None None) None None None None in
  let timeframes := fst (TA.multiTimeframeAnalysis None (Some x) (Some x)) in
  SignalScore.direction (Engine.calculateSignalScore timeframes) = Some long /\
  exists x1 x4 : Snapshot.t, Some x = Some x1 /\ Some x = Some x4.
Proof.
  cbv zeta. split; [reflexivity|].
  destruct (engine_direction_rests_on_a_signal None
              (Some (Snapshot.mk (Some 100) (Some 20)
                       (Some (Macd.mk 1 0 1)) (Some (Macd.mk 0 0 0))
                       (Some (Bollinger.mk 200 150 50 0 false))
                       (Ema.mk None None None) None None None None))
              (Some (Snapshot.mk (Some 100) (Some 20)
                       (Some (Macd.mk 1 0 1)) (Some (Macd.mk 0 0 0))
                       (Some (Bollinger.mk 200 150 50 0 false))
                       (Ema.mk None None None) None None None None))
              long eq_refl) as (x1 & x4 & H1 & H4 & _).
  exists x1, x4. split; assumption.
Defined.

(** X25.  Trend alignment and the trend layer agree on full agreement.
    When [checkTrendAlignment] reports a strong bullish (bearish)
    alignment, the score's direction is long (short) with the full two
    trend points and the entry-timing point.  When the score has a
    direction with two trend points, the alignment points the same way.
    The alignment is mixed exactly when its strength is weak. *)
Theorem trend_alignment_meets_trend_layer (timeframes : Timeframes.t) :
  let ta := TA.checkTrendAlignment (Timeframes.tf15m timeframes)
              (Timeframes.tf1h timeframes) (Timeframes.tf4h timeframes) in
  let r := Engine.calculateSignalScore timeframes in
  (ta = (TA.bullish, TA.guclu) ->
   SignalScore.direction r = Some long /\
   Layers.trend (SignalScore.layers r) = 2%Z /\
   Layers.entry_timing (SignalScore.layers r) = 1%Z) /\
  (ta = (TA.bearish, TA.guclu) ->
   SignalScore.direction r = Some short /\
   Layers.trend (SignalScore.layers r) = 2%Z /\
   Layers.entry_timing (SignalScore.layers r) = 1%Z) /\
  (SignalScore.direction r = Some long ->
   Layers.trend (SignalScore.layers r) = 2%Z -> fst ta = TA.bullish) /\
  (SignalScore.direction r = Some short ->
   Layers.trend (SignalScore.layers r) = 2%Z -> fst ta = TA.bearish) /\
  (fst ta = TA.mixed <-> snd ta = TA.zayif).
Proof.
  cbv zeta. destruct timeframes as [tf15m tf1h tf4h].
  cbn [Timeframes.tf15m Timeframes.tf1h Timeframes.tf4h].
  unfold Engine.calculateSignalScore.
  cbn [Timeframes.tf15m Timeframes.tf1h Timeframes.tf4h].
  destruct tf1h as [|s1 x1]; destruct tf4h as [|s4 x4];
    destruct tf15m as [|s15 x15];
    try destruct s1; try destruct s4; try destruct s15;
    signal_cases;
    cbn [SignalScore.direction SignalScore.layers Layers.trend
         Layers.entry_timing Layers.empty];
    cbv -[Z.add];
    repeat split; intros; try discriminate; try reflexivity;
    try congruence.
Qed.

(** All three timeframes say buy: the alignment is strongly bullish and
    the score goes long with both trend points. *)
Lemma trend_alignment_meets_trend_layer_witness :
  let x := Snapshot.mk (Some 100) None None None None
             (Ema.mk None None None) None None None None in
  let tfs := Timeframes.mk (Timeframe.Analysed buy x)
               (Timeframe.Analysed strong_buy x) (Timeframe.Analysed buy x) in
  SignalScore.direction (Engine.calculateSignalScore tfs) = Some long /\
  Layers.trend (SignalScore.layers (Engine.calculateSignalScore tfs)) = 2%Z.
Proof.
  cbv zeta.
  destruct (proj1 (trend_alignment_meets_trend_layer
                     (Timeframes.mk
                        (Timeframe.Analysed buy
                           (Snapshot.mk (Some 100) None None None None
                              (Ema.mk None None None) None None None None))
                        (Timeframe.Analysed strong_buy
                           (Snapshot.mk (Some 100) None None None None
                              (Ema.mk None None None) None None None None))
                        (Timeframe.Analysed buy
                           (Snapshot.mk (Some 100) None None None None
                              (Ema.mk None None None) None None None None))))
              eq_refl) as (H1 & H2 & _).
  split; assumption.
Defined.

(* ================================================================== *)
(** * The engine under a tripped breaker *)

Lemma now_before_nextMidnight (now : Z) : (now < nextMidnight now)%Z.
Proof.
  unfold nextMidnight, dayOf, msPerDay.
  pose proof (Z.mod_pos_bound now 86400000 ltac:(lia)) as Hm.
  pose proof (Z.div_mod now 86400000 ltac:(lia)) as Hd.
  lia.
Qed.

Lemma nextMidnight_same_day (t0 t : Z) :
  dayOf t = dayOf t0 -> nextMidnight t = nextMidnight t0.
Proof. unfold nextMidnight. now intros ->. Qed.

Lemma recordPnL_lock now pnl s rm M :
  nextMidnight now = M ->
  bot_locked s = true -> bot_lock_until s = Some M ->
  bot_locked (fst (Risk.recordPnL now pnl (s, rm))) = true /\
  bot_lock_until (fst (Risk.recordPnL now pnl (s, rm))) = Some M.
Proof.
  intros HM Hl Hu. unfold Risk.recordPnL.
  destruct (Qltb _ _); cbn [fst]; [|split; assumption].
  unfold Risk.lockBot. cbn. rewrite HM. split; reflexivity.
Qed.

Lemma closePosition_lock now g symbol reason closePrice st M :
  nextMidnight now = M ->
  bot_locked (fst st) = true -> bot_lock_until (fst st) = Some M ->
  let st' := Engine.closePosition now g symbol reason closePrice st in
  bot_locked (fst st') = true /\ bot_lock_until (fst st') = Some M.
Proof.
  intros HM Hl Hu. destruct st as [s e]. cbn [fst] in Hl, Hu. cbv zeta.
  unfold Engine.closePosition.
  destruct (Engine.mapGet _ _) as [pos|]; [|split; assumption].
  destruct (negb _); [split; assumption|].
  match goal with
  | |- context [Risk.recordPnL now ?pnl (s, ?rm)] =>
      destruct (recordPnL_lock now pnl s rm M HM Hl Hu) as [R1 R2];
      destruct (Risk.recordPnL now pnl (s, rm)) as [s2 rm2]
  end.
  cbn [fst] in R1, R2.
  destruct (Gateway.fault g) as [[ | | ]|]; cbn [fst];
    try (split; assumption);
    destruct (Qltb _ _); cbn; rewrite ?HM; split;
    first [assumption | reflexivity].
Qed.

Lemma monitorSymbol_lock now g symbol st M :
  nextMidnight now = M ->
  bot_locked (fst st) = true -> bot_lock_until (fst st) = Some M ->
  let st' := Engine.monitorSymbol now g symbol st in
  bot_locked (fst st') = true /\ bot_lock_until (fst st') = Some M.
Proof.
  intros HM Hl Hu. destruct st as [s e]. cbv zeta.
  unfold Engine.monitorSymbol.
  destruct (Engine.mapGet _ _) as [pos|]; [|split; assumption].
  destruct (Engine.monitorPosition s g pos) as [p1 [reason|]];
    [|split; assumption].
  now apply closePosition_lock.
Qed.

Lemma monitorPositions_lock now gw st M :
  nextMidnight now = M ->
  bot_locked (fst st) = true -> bot_lock_until (fst st) = Some M ->
  let st' := Engine.monitorPositions now gw st in
  bot_locked (fst st') = true /\ bot_lock_until (fst st') = Some M.
Proof.
  intros HM Hl Hu. cbv zeta. destruct st as [s e].
  unfold Engine.monitorPositions.
  destruct (_ || _); [split; assumption|].
  generalize (map fst (Engine.positions e)) as keys.
  generalize dependent (s, e). clear s e.
  intros st Hl Hu keys. revert st Hl Hu.
  induction keys as [|k keys IH]; intros st Hl Hu; [split; assumption|].
  simpl fold_left.
  destruct (monitorSymbol_lock now (gw k) k st M HM Hl Hu) as [H1 H2].
  now apply IH.
Qed.

(** X26.  A tripped breaker holds for the engine for the rest of the day.
    Once [bot.locked] is set with [bot.lock_until] at the midnight ending
    the local day of [t0], no firing of the scan or monitor timer during
    that day opens a position: a symbol without an entry still has none
    after the whole run, and the lock is still in place.  The monitor
    keeps running and may close entries meanwhile. *)
Theorem tripped_breaker_blocks_the_engine
    (t0 : Z) (firings : list (Z * Engine.Firing)) (st : Engine.State)
    (k : string) :
  bot_locked (fst st) = true ->
  bot_lock_until (fst st) = Some (nextMidnight t0) ->
  Forall (fun f => dayOf (fst f) = dayOf t0) firings ->
  Engine.mapGet (Engine.positions (snd st)) k = None ->
  let st' := Engine.fireAll firings st in
  Engine.mapGet (Engine.positions (snd st')) k = None /\
  bot_locked (fst st') = true /\
  bot_lock_until (fst st') = Some (nextMidnight t0).
Proof.
  intros Hl Hu Hall. revert st Hl Hu.
  induction Hall as [|[t f] firings Hday _ IH]; intros st Hl Hu Hk;
    cbv zeta; [repeat split; assumption|].
  cbn [fst] in Hday. unfold Engine.fireAll. simpl fold_left.
  cbn [fst snd].
  assert (HM : nextMidnight t = nextMidnight t0)
    by now apply nextMidnight_same_day.
  assert (Hstep :
    bot_locked (fst (Engine.fire t f st)) = true /\
    bot_lock_until (fst (Engine.fire t f st)) = Some (nextMidnight t0) /\
    Engine.mapGet (Engine.positions (snd (Engine.fire t f st))) k = None).
  { destruct f as [coins | gw]; cbn [Engine.fire].
    - destruct (scanSignals_locked t coins st Hl) as (E1 & E2 & _).
      { right. intros L HL. rewrite Hu in HL. injection HL as <-.
        rewrite <- HM. apply now_before_nextMidnight. }
      rewrite E1, E2. repeat split; assumption.
    - destruct (monitorPositions_lock t gw st _ HM Hl Hu) as [L1 L2].
      split; [exact L1|]. split; [exact L2|].
      exact (proj2 (proj2 (proj2 (monitorPositions_keeps t gw st k))) Hk). }
  destruct Hstep as (S1 & S2 & S3).
  exact (IH (Engine.fire t f st) S1 S2 S3).
Qed.

(** A locked, running engine holding BTC, offered a full-score ETH signal
    and then a BTC price under the stop: ETH is not opened, BTC is
    closed. *)
Lemma tripped_breaker_blocks_the_engine_witness :
  let x := Snapshot.mk (Some 100) (Some 20)
             (Some (Macd.mk 1 0 1)) (Some (Macd.mk 0 0 0))
             (Some (Bollinger.mk 200 150 50 0 true))
             (Ema.mk (Some 3) (Some 2) (Some 1)) None (Some 1) (Some 1)
             (Some 2) in
  let tfs := Timeframes.mk (Timeframe.Analysed buy x)
               (Timeframe.Analysed strong_buy x) (Timeframe.Analysed buy x) in
  let feed := Feed.mk (Some tfs) (Gateway.mk None (Some (Some 100)) None) in
  let p := Position.mk "BTC/USDT" long 100 100 1 2 (Leverage.Normal 2)
             98 107 false None false 7 50 100 0 0 0 in
  let st := (setLock Db.defaults true (Some (nextMidnight 0)),
             Engine.mkEngine (Risk.create 0) true
               [("BTC/USDT"%string, p)] 0 0) in
  let firings :=
    [(1000%Z, Engine.Scan [("ETH/USDT"%string, feed)]);
     (2000%Z, Engine.Monitor (fun _ => Gateway.mk (Some 97) None None))] in
  Engine.positions (snd (Engine.fireAll firings st)) = [] /\
  Engine.mapGet (Engine.positions (snd (Engine.fireAll firings st)))
    "ETH/USDT" = None.
Proof.
  cbv zeta. split; [reflexivity|].
  refine (proj1 (tripped_breaker_blocks_the_engine 0 _
                   (setLock Db.defaults true (Some (nextMidnight 0)),
                    Engine.mkEngine (Risk.create 0) true
                      [("BTC/USDT"%string,
                        Position.mk "BTC/USDT" long 100 100 1 2
                          (Leverage.Normal 2) 98 107 false None false
                          7 50 100 0 0 0)] 0 0)
                   "ETH/USDT" eq_refl eq_refl _ eq_refl)).
  repeat constructor.
Defined.
